(** * WebRTCClient (src/web-rtc-client.js): a shallow embedding

    The client is a JavaScript class whose methods mutate the instance,
    the SIP sessions handed to them, the Web Audio graph and the timer
    queue of the event loop.  The embedding keeps that shape: one [World]
    record holds the instance fields together with the parts of the
    environment the methods act upon, and every method is a computation in
    a state-and-exception monad over [World]. *)

From Stdlib Require Import Ascii String DecimalString DecimalNat List Bool Arith NArith Lia.
From stdpp Require Import base option gmap strings list fin_maps.

Local Open Scope string_scope.

(** [String(n)] for a natural number: its decimal numeral. *)
Definition decimal (n : nat) : string :=
  DecimalString.NilEmpty.string_of_uint (Nat.to_uint n).

(** ** ICE servers (static methods [isAPrivateIp], [getIceServers]) *)

Module Ice.

(** The regular expressions of the source use literals, character
    classes, sequencing, ordered alternation, the [^] anchor and a
    trailing greedy [.*].  [DotStar] is that last form. *)
Inductive regex : Type :=
| Lit (c : ascii)
| Range (lo hi : ascii)
| Seq (r1 r2 : regex)
| Alt (r1 r2 : regex)
| DotStar.

Definition in_range (lo hi c : ascii) : bool :=
  Nat.leb (nat_of_ascii lo) (nat_of_ascii c) && Nat.leb (nat_of_ascii c) (nat_of_ascii hi).

(** [.] matches everything but the line terminators; of those only LF
    and CR are 8-bit characters. *)
Definition is_line_terminator (c : ascii) : bool :=
  Ascii.eqb c "010" || Ascii.eqb c "013".

(** Greedy [.*]: consume as long as possible, back off until the
    continuation accepts. *)
Fixpoint dot_star (s : string) (k : string -> bool) : bool :=
  match s with
  | String c s' =>
      ((negb (is_line_terminator c)) && dot_star s' k) || k s
  | EmptyString => k s
  end.

(** Backtracking matcher in continuation-passing style: [run r s k]
    tries to match [r] at the head of [s] and hands the rest to [k]. *)
Fixpoint run (r : regex) (s : string) (k : string -> bool) : bool :=
  match r with
  | Lit c =>
      match s with
      | String c' s' => Ascii.eqb c c' && k s'
      | EmptyString => false
      end
  | Range lo hi =>
      match s with
      | String c' s' => in_range lo hi c' && k s'
      | EmptyString => false
      end
  | Seq r1 r2 => run r1 s (fun s' => run r2 s' k)
  | Alt r1 r2 => run r1 s k || run r2 s k
  | DotStar => dot_star s k
  end.

(** [regex.exec(s) != null] for a pattern that starts with [^] and has
    no flags: the match has to start at index 0 and may stop anywhere. *)
Definition exec_anchored (r : regex) (s : string) : bool :=
  run r s (fun _ => true).

Fixpoint lit (p : string) (r : regex) : regex :=
  match p with
  | String c p' => Seq (Lit c) (lit p' r)
  | EmptyString => r
  end.

Definition dot : regex := Lit ".".

(** [/^(?:10|127|172\.(?:1[6-9]|2[0-9]|3[01])|192\.168)\..*/] *)
Definition private_regex : regex :=
  Seq (Alt (lit "10" dot)
        (Alt (lit "127" dot)
          (Alt (lit "172."
                  (Seq (Alt (Seq (Lit "1") (Range "6" "9"))
                         (Alt (Seq (Lit "2") (Range "0" "9"))
                              (Seq (Lit "3") (Range "0" "1"))))
                       dot))
               (lit "192.168" dot))))
      DotStar.

(** [isAPrivateIp]: [regex.exec(ip) == null]. *)
Definition isAPrivateIp (ip : string) : bool :=
  negb (exec_anchored private_regex ip).

Record IceServer := { urls : list string }.

Definition stun_servers : list IceServer :=
  [ {| urls := ["stun:stun.l.google.com:19302"; "stun:stun4.l.google.com:19302"] |} ].

Definition getIceServers (ip : string) : list IceServer :=
  if isAPrivateIp ip then stun_servers else [].

(** *** The language of the regular expression

    The texts the expression accepts are those that begin with one of
    four prefixes: "10.", "127.", "172." followed by two digits that
    read 16 to 31 and a dot, or "192.168.".  Nothing else of the text
    is looked at. *)

Definition digit_val (c : ascii) : option nat :=
  let n := nat_of_ascii c in
  if Nat.leb 48 n && Nat.leb n 57 then Some (n - 48) else None.

Definition second_octet_16_31 (a b : ascii) : Prop :=
  exists x y, digit_val a = Some x /\ digit_val b = Some y /\
              16 <= 10 * x + y <= 31.

Definition private_host (host : string) : Prop :=
  (exists rest, host = "10." ++ rest) \/
  (exists rest, host = "127." ++ rest) \/
  (exists a b rest, host = "172." ++ String a (String b ("." ++ rest)) /\
                    second_octet_16_31 a b) \/
  (exists rest, host = "192.168." ++ rest).

(** *** Addresses

    An IPv4 address [a.b.c.d] in dotted decimal notation, and the
    networks an address can be on that are not routed on the public
    Internet: the private networks 10/8, 172.16/12 and 192.168/16
    (RFC 1918), the loopback network 127/8 and the link-local network
    169.254/16 (RFC 3927). *)

Definition dotted (a b c d : nat) : string :=
  decimal a ++ "." ++ decimal b ++ "." ++ decimal c ++ "." ++ decimal d.

(** A text of decimal digits only. *)
Fixpoint digits (s : string) : bool :=
  match s with
  | EmptyString => true
  | String c s' => match digit_val c with Some _ => digits s' | None => false end
  end.

Definition private_network (a b : nat) : bool :=
  Nat.eqb a 10 ||
  (Nat.eqb a 172 && Nat.leb 16 b && Nat.leb b 31) ||
  (Nat.eqb a 192 && Nat.eqb b 168).

Definition loopback_network (a : nat) : bool := Nat.eqb a 127.

Definition link_local_network (a b : nat) : bool := Nat.eqb a 169 && Nat.eqb b 254.

(** The addresses the regular expression is written for. *)
Definition private_address (a b : nat) : bool :=
  private_network a b || loopback_network a.

(** An address of a host on an internal network. *)
Definition internal_address (a b : nat) : bool :=
  private_address a b || link_local_network a b.

End Ice.

Local Open Scope list_scope.

(** ** Data: media tracks, peer connections, SIP sessions *)

Inductive TrackKind : Type := AudioTrack | VideoTrack.

Record Track := mkTrack { kind : TrackKind; enabled : bool }.

(** [MediaStream]: an identity and its tracks. *)
Record Stream := mkStream { streamId : nat; tracks : list Track }.

(** [RTCRtpSender] and [RTCRtpReceiver]: [track] may be null. *)
Record Sender := mkSender { senderTrack : option Track }.
Record Receiver := mkReceiver { receiverTrack : option Track }.

(** [RTCPeerConnection].  [senders = None] stands for a connection
    without [getSenders] (the code then falls back on [getLocalStreams]),
    likewise for [receivers]. *)
Record PeerConnection := mkPc {
  senders : option (list Sender);
  localStreams : list Stream;
  receivers : option (list Receiver);
  remoteStreams : list Stream;
  signalingState : string;
  iceConnectionState : string;
}.

Record SessionDescriptionHandler := mkSdh { peerConnection : option PeerConnection }.

(** [SessionStatus] of sip.js/lib/Enums. *)
Inductive SessionStatus : Type :=
| STATUS_NULL | STATUS_INVITE_SENT | STATUS_1XX_RECEIVED | STATUS_INVITE_RECEIVED
| STATUS_WAITING_FOR_ANSWER | STATUS_ANSWERED | STATUS_WAITING_FOR_PRACK
| STATUS_WAITING_FOR_ACK | STATUS_CANCELED | STATUS_TERMINATED
| STATUS_ANSWERED_WAITING_FOR_PRACK | STATUS_EARLY_MEDIA | STATUS_CONFIRMED.

(** The incoming request of a session: [callId], the SDP [body] and the
    headers [getHeader] looks up (first value of that name, or
    undefined). *)
Record Request := mkRequest {
  callId : string;
  body : string;
  headers : list (string * string);
}.

Definition getHeader (r : Request) (name : string) : option string :=
  snd <$> List.find (fun h => String.eqb (fst h) name) (headers r).

(** A SIP session (InviteClientContext or InviteServerContext) as the
    client sees it: the properties it reads and which methods exist. *)
Record Session := mkSession {
  request : option Request;
  id : option string;
  status : SessionStatus;
  cancel_defined : bool;          (* typeof session.cancel !== 'undefined' *)
  reject_defined : bool;
  bye_defined : bool;
  stop_defined : bool;            (* 'stop' in session *)
  isCanceled : bool;
  _canceled : bool;
  hasAnswer : bool;
  localHold : bool;
  sessionDescriptionHandler : option SessionDescriptionHandler;
}.

(** Sessions are objects shared between the client and sip.js: they live
    in a store and are passed by reference. *)
Abbreviation SRef := nat.

(** ** Configuration *)

(** [media.audio] / [media.video]: a boolean or a constraint object
    [{ deviceId: { exact } }]. *)
Inductive MediaSetting : Type :=
| MBool (b : bool)
| MDevice (exact : string).

Record MediaConfig := mkMediaConfig {
  mediaAudio : MediaSetting;
  mediaVideo : MediaSetting;
  mediaLocalVideo : bool;
}.

Record WebRtcConfig := mkConfig {
  displayName : string;
  host : string;
  port : option nat;
  authorizationUser : option string;
  password : option string;
  uri : string;
  media : MediaConfig;
  maxMergeSessions : nat;
  iceCheckingTimeout : option nat;
  audioOutputDeviceId : option string;
}.

Record RtcOptions := mkRtcOptions {
  OfferToReceiveAudio : bool;
  OfferToReceiveVideo : bool;
}.

(** What [_getMediaConfiguration] hands to sip.js. *)
Record MediaConfiguration := mkMediaConfiguration {
  constraintsAudio : MediaSetting;
  constraintsVideo : MediaSetting;
  disableVideo : bool;
  RTCOfferOptions : RtcOptions;
}.

(** The configuration object of [_createWebRTCConfiguration]. *)
Record UAConfiguration := mkUAConfiguration {
  ua_authorizationUser : option string;
  ua_displayName : string;
  ua_password : option string;
  ua_uri : string;
  ua_wsServers : string;
  ua_constraintsAudio : MediaSetting;
  ua_constraintsVideo : MediaSetting;
  ua_iceCheckingTimeout : nat;
  ua_iceServers : list Ice.IceServer;
  ua_rtcOptions : RtcOptions;
  ua_mobile : bool;   (* MobileSessionDescriptionHandler + mobility=mobile *)
}.

(** The sip.js user agent the client holds. *)
Record UA := mkUA {
  uaId : nat;
  uaConfiguration : UAConfiguration;
  uaIsRegistered : bool;            (* userAgent.isRegistered() *)
}.

(** ** Errors, callbacks, effects *)

Inductive JsError : Type :=
| TypeError                 (* property access on undefined or null, call of a non-function *)
| ExternalError.            (* raised inside sip.js or the browser *)

(** The completion callback of [reinit]: the default [() => {}] or a
    function of the caller. *)
Inductive Callback : Type :=
| DefaultCb
| UserCb (k : nat).

(** Calls that leave the client: methods of sip.js objects, of the peer
    connection, of the audio graph and of the DOM, events emitted to the
    subscribers, the console.  [MemberAssign] is an assignment rather
    than a call, to an object that belongs to the realm and not to the
    client. *)
Inductive Effect : Type :=
| SessionCancel (s : SRef)
| SessionReject (s : SRef)
| SessionBye (s : SRef)
| SessionStop (s : SRef)
| SessionHold (s : SRef) (c : MediaConfiguration)
| SessionUnhold (s : SRef) (c : MediaConfiguration)
| SessionOn (s : SRef) (event : string)
| SdhOnce (s : SRef) (event : string)
| PcRemoveStream (s : SRef) (st : option Stream)
| PcAddStream (s : SRef) (destinationNode : nat)        (* pc.addStream(destination.stream) *)
| PcRemoveMergedStream (s : SRef) (destinationNode : nat) (* pc.removeStream(destination.stream) *)
| PcCreateOffer (s : SRef) (o : RtcOptions)
| PcSetLocalDescription (s : SRef)
| NewUA (ua : nat) (c : UAConfiguration)
| UaOn (ua : nat) (event : string)
| UaTransportOn (ua : nat) (event : string)
| UaRegister (ua : nat)
| UaUnregister (ua : nat)
| UaRemoveAllListeners (ua : nat)
| UaTransportDisconnect (ua : nat)
| UaStop (ua : nat)
| CreateMediaStreamSource (node : nat) (st : Stream)
| CreateMediaStreamDestination (node : nat)
| AudioResume
| NodeConnect (src dst : nat)
| NodeDisconnect (src : nat) (dst : option nat)
| ElementPause (sessionId : string)
| ElementRemoveChild (sessionId : string)
| EmitInvite (s : SRef) (hasVideo shouldAutoAnswer : bool)
| InvokeCallback (cb : Callback) (failed : bool)
| ConsoleWarn (msg : string)
| MemberAssign (member : string) (st : option Stream)
    (* Object.prototype[member].local = st; for "__proto__" the object
       is Object.prototype itself *).

(** ** The client instance and its world *)

Record MergeEntry := mkMergeEntry {
  localAudioSource : option nat;
  remoteAudioSource : option nat;
}.

(** [remotes] holds what was pushed, streams or undefined. *)
Record VideoSession := mkVideoSession {
  vsLocal : option Stream;
  vsRemotes : list (option Stream);
}.

Record AudioElement := mkAudioElement {
  srcObject : option Stream;
  parentNode : bool;
}.

(** *** Objects used as dictionaries

    [audioStreams], [videoSessions] and [audioElements] are created as
    [{}] and indexed by session id.  Besides the properties the client
    stores in it, such an object has those of [Object.prototype]: under
    the name "toString" a lookup finds a function and [in] is true,
    while [delete] and [Object.keys] see own properties only.
    [Object.prototype] is taken as the engine provides it: what a
    [MemberAssign] does to it is recorded in the trace and not followed
    any further. *)

Definition Object_prototype : list string :=
  ["constructor"; "__defineGetter__"; "__defineSetter__"; "hasOwnProperty";
   "__lookupGetter__"; "__lookupSetter__"; "isPrototypeOf"; "propertyIsEnumerable";
   "toString"; "valueOf"; "__proto__"; "toLocaleString"].

(** The name is found on [Object.prototype]. *)
Definition inherited (name : string) : bool :=
  existsb (String.eqb name) Object_prototype.

Definition is_some {A} (o : option A) : bool :=
  match o with Some _ => true | None => false end.

(** [audioStreams] and [videoSessions] are maps of own properties.
    The assignment [audioStreams["__proto__"] = entry] makes no own
    property: it installs [entry] as the prototype of [audioStreams],
    where a lookup of "__proto__" finds it and [in] finds its two
    fields, while [delete] and [Object.keys] do not reach it.  The map
    keeps an entry installed that way under the name "__proto__", which
    no own property can have. *)

(** [name in this.audioStreams] *)
Definition in_audioStreams (name : string) (m : gmap string MergeEntry) : bool :=
  is_some (m !! name) || inherited name ||
  (is_some (m !! "__proto__") &&
   (String.eqb name "localAudioSource" || String.eqb name "remoteAudioSource")).

(** [delete this.audioStreams[name]] *)
Definition delete_audioStream (name : string) (m : gmap string MergeEntry)
    : gmap string MergeEntry :=
  if String.eqb name "__proto__" then m else delete name m.

(** [Object.keys(this.audioStreams).length] *)
Definition count_audioStreams (m : gmap string MergeEntry) : nat :=
  size (delete "__proto__" m).

(** [audioElements] is walked with [Object.keys] and [Object.values],
    so the order of its properties matters: it is kept as the list of
    its own properties in the order in which they were created. *)
Definition Elements : Type := list (string * AudioElement).

(** [this.audioElements[name]], as far as it is an audio element. *)
Definition element_at (name : string) (d : Elements) : option AudioElement :=
  snd <$> List.find (fun p => String.eqb (fst p) name) d.

(** [delete this.audioElements[name]] *)
Definition delete_element (name : string) (d : Elements) : Elements :=
  List.filter (fun p => negb (String.eqb (fst p) name)) d.

(** An array index is the decimal numeral, without leading zeros, of a
    number below 2^32 - 1. *)
Definition array_index (name : string) : option N :=
  match DecimalString.NilEmpty.uint_of_string name with
  | Some d =>
      let n := N.of_uint d in
      if String.eqb (DecimalString.NilEmpty.string_of_uint (N.to_uint n)) name
         && N.ltb n 4294967295
      then Some n else None
  | None => None
  end.

Fixpoint insert_index (k : N * string) (l : list (N * string)) : list (N * string) :=
  match l with
  | [] => [k]
  | x :: l' => if N.ltb (fst k) (fst x) then k :: l else x :: insert_index k l'
  end.

(** [Object.keys(object)]: the names that are array indices first, in
    ascending order, then the other names in the order of their
    creation. *)
Definition Object_keys (d : Elements) : list string :=
  let names := fst <$> d in
  (snd <$> foldr insert_index []
             (omap (fun name => (fun i => (i, name)) <$> array_index name) names))
  ++ List.filter (fun name => negb (is_some (array_index name))) names.

(** [AudioContext]: only its [state === 'suspended'] is read. *)
Record AudioContext := mkAudioContext { suspended : bool }.

(** Continuations the client leaves with the event loop. *)
Inductive Task : Type :=
| RetryRegister (delay : nat) (cb : Callback)
    (* the arrow function given to setTimeout in _tryToRegister *)
| AddToMergeOffer (s : SRef) (e : MergeEntry)
    (* .then(offer => ...) of bindStreams in addToMerge *)
| AddTrackOnce (s : SRef)
    (* sdh.once('addTrack', e => bindStreams(e.streams[0])) *)
| RemoveFromMergeOffer (s : SRef) (shouldHold : bool)
    (* .then(offer => ...) of removeFromMerge; the task's identity is
       that of the promise removeFromMerge returns *)
| SetLocalDescriptionDone (p : nat)
    (* p was resolved with the promise of pc.setLocalDescription *)
| UnmergeAll (awaiting : list nat)
    (* Promise.all(promises).then(...) of unmerge *).

Record Client := mkClient {
  config : option WebRtcConfig;
  userAgent : option UA;
  hasAudio : bool;
  audio : MediaSetting;
  video : MediaSetting;
  videoEnabled : bool;
  localVideo : bool;
  audioContext : option AudioContext;
  audioStreams : gmap string MergeEntry;
  mergeDestination : option nat;
  audioElements : Elements;
  videoSessions : gmap string VideoSession;
  registerTries : nat;
  registered : bool;
  registering : bool;
  registerTimeout : option nat;
}.

(** The platform: [_isWeb()], whether the browser is Firefox, and which
    external calls raise. *)
Record Platform := mkPlatform {
  isWeb : bool;
  isFirefox : bool;
  raises : Effect -> bool;
}.

Record World := mkWorld {
  client : Client;
  platform : Platform;
  sessions : gmap nat Session;          (* the session objects *)
  edges : list (nat * nat);             (* connections of the audio graph *)
  tasks : list (nat * Task);            (* pending timers, promises, listeners *)
  fresh : nat;                          (* next identity to hand out *)
  trace : list Effect;                  (* external calls so far, oldest first *)
}.

(** *** Field updates *)

Definition set_config (v : option WebRtcConfig) (c : Client) : Client :=
  mkClient v (userAgent c) (hasAudio c) (audio c) (video c) (videoEnabled c)
    (localVideo c) (audioContext c) (audioStreams c) (mergeDestination c)
    (audioElements c) (videoSessions c) (registerTries c) (registered c)
    (registering c) (registerTimeout c).

Definition set_userAgent (v : option UA) (c : Client) : Client :=
  mkClient (config c) v (hasAudio c) (audio c) (video c) (videoEnabled c)
    (localVideo c) (audioContext c) (audioStreams c) (mergeDestination c)
    (audioElements c) (videoSessions c) (registerTries c) (registered c)
    (registering c) (registerTimeout c).

Definition set_audio (v : MediaSetting) (c : Client) : Client :=
  mkClient (config c) (userAgent c) (hasAudio c) v (video c) (videoEnabled c)
    (localVideo c) (audioContext c) (audioStreams c) (mergeDestination c)
    (audioElements c) (videoSessions c) (registerTries c) (registered c)
    (registering c) (registerTimeout c).

Definition set_video (v : MediaSetting) (c : Client) : Client :=
  mkClient (config c) (userAgent c) (hasAudio c) (audio c) v (videoEnabled c)
    (localVideo c) (audioContext c) (audioStreams c) (mergeDestination c)
    (audioElements c) (videoSessions c) (registerTries c) (registered c)
    (registering c) (registerTimeout c).

Definition set_videoEnabled (v : bool) (c : Client) : Client :=
  mkClient (config c) (userAgent c) (hasAudio c) (audio c) (video c) v
    (localVideo c) (audioContext c) (audioStreams c) (mergeDestination c)
    (audioElements c) (videoSessions c) (registerTries c) (registered c)
    (registering c) (registerTimeout c).

Definition set_audioStreams (v : gmap string MergeEntry) (c : Client) : Client :=
  mkClient (config c) (userAgent c) (hasAudio c) (audio c) (video c) (videoEnabled c)
    (localVideo c) (audioContext c) v (mergeDestination c)
    (audioElements c) (videoSessions c) (registerTries c) (registered c)
    (registering c) (registerTimeout c).

Definition set_mergeDestination (v : option nat) (c : Client) : Client :=
  mkClient (config c) (userAgent c) (hasAudio c) (audio c) (video c) (videoEnabled c)
    (localVideo c) (audioContext c) (audioStreams c) v
    (audioElements c) (videoSessions c) (registerTries c) (registered c)
    (registering c) (registerTimeout c).

Definition set_audioElements (v : Elements) (c : Client) : Client :=
  mkClient (config c) (userAgent c) (hasAudio c) (audio c) (video c) (videoEnabled c)
    (localVideo c) (audioContext c) (audioStreams c) (mergeDestination c)
    v (videoSessions c) (registerTries c) (registered c)
    (registering c) (registerTimeout c).

Definition set_videoSessions (v : gmap string VideoSession) (c : Client) : Client :=
  mkClient (config c) (userAgent c) (hasAudio c) (audio c) (video c) (videoEnabled c)
    (localVideo c) (audioContext c) (audioStreams c) (mergeDestination c)
    (audioElements c) v (registerTries c) (registered c)
    (registering c) (registerTimeout c).

Definition set_registerTries (v : nat) (c : Client) : Client :=
  mkClient (config c) (userAgent c) (hasAudio c) (audio c) (video c) (videoEnabled c)
    (localVideo c) (audioContext c) (audioStreams c) (mergeDestination c)
    (audioElements c) (videoSessions c) v (registered c)
    (registering c) (registerTimeout c).

Definition set_registered (v : bool) (c : Client) : Client :=
  mkClient (config c) (userAgent c) (hasAudio c) (audio c) (video c) (videoEnabled c)
    (localVideo c) (audioContext c) (audioStreams c) (mergeDestination c)
    (audioElements c) (videoSessions c) (registerTries c) v
    (registering c) (registerTimeout c).

Definition set_registering (v : bool) (c : Client) : Client :=
  mkClient (config c) (userAgent c) (hasAudio c) (audio c) (video c) (videoEnabled c)
    (localVideo c) (audioContext c) (audioStreams c) (mergeDestination c)
    (audioElements c) (videoSessions c) (registerTries c) (registered c)
    v (registerTimeout c).

Definition set_registerTimeout (v : option nat) (c : Client) : Client :=
  mkClient (config c) (userAgent c) (hasAudio c) (audio c) (video c) (videoEnabled c)
    (localVideo c) (audioContext c) (audioStreams c) (mergeDestination c)
    (audioElements c) (videoSessions c) (registerTries c) (registered c)
    (registering c) v.

Definition with_client (f : Client -> Client) (w : World) : World :=
  mkWorld (f (client w)) (platform w) (sessions w) (edges w) (tasks w) (fresh w) (trace w).

Definition with_sessions (f : gmap nat Session -> gmap nat Session) (w : World) : World :=
  mkWorld (client w) (platform w) (f (sessions w)) (edges w) (tasks w) (fresh w) (trace w).

Definition with_edges (f : list (nat * nat) -> list (nat * nat)) (w : World) : World :=
  mkWorld (client w) (platform w) (sessions w) (f (edges w)) (tasks w) (fresh w) (trace w).

Definition with_tasks (f : list (nat * Task) -> list (nat * Task)) (w : World) : World :=
  mkWorld (client w) (platform w) (sessions w) (edges w) (f (tasks w)) (fresh w) (trace w).

Definition with_fresh (f : nat -> nat) (w : World) : World :=
  mkWorld (client w) (platform w) (sessions w) (edges w) (tasks w) (f (fresh w)) (trace w).

Definition with_trace (f : list Effect -> list Effect) (w : World) : World :=
  mkWorld (client w) (platform w) (sessions w) (edges w) (tasks w) (fresh w) (f (trace w)).

(** ** The monad: state plus JavaScript exceptions

    A computation that throws keeps the changes it made before. *)

Inductive Result (A : Type) : Type :=
| Ok (a : A)
| Throw (e : JsError).
Arguments Ok {A} a.
Arguments Throw {A} e.

Definition M (A : Type) : Type := World -> Result A * World.

Definition ret {A} (a : A) : M A := fun w => (Ok a, w).

Definition bind {A B} (m : M A) (f : A -> M B) : M B :=
  fun w => match m w with
           | (Ok a, w') => f a w'
           | (Throw e, w') => (Throw e, w')
           end.

Definition throw {A} (e : JsError) : M A := fun w => (Throw e, w).

(** [try { m } catch (error) { h }] *)
Definition try_catch {A} (m : M A) (h : JsError -> M A) : M A :=
  fun w => match m w with
           | (Ok a, w') => (Ok a, w')
           | (Throw e, w') => h e w'
           end.

Declare Scope js_scope.
Delimit Scope js_scope with js.
Notation "x <- m ;; k" := (bind m (fun x => k))
  (at level 20, m at level 99, k at level 200) : js_scope.
Notation "m ;; k" := (bind m (fun _ => k))
  (at level 100, k at level 200, right associativity) : js_scope.
Local Open Scope js_scope.

Definition gets {A} (f : World -> A) : M A := fun w => (Ok (f w), w).
Definition modify (f : World -> World) : M unit := fun w => (Ok tt, f w).
Definition this {A} (f : Client -> A) : M A := gets (fun w => f (client w)).
Definition assign (f : Client -> Client) : M unit := modify (with_client f).

Definition when (b : bool) (m : M unit) : M unit := if b then m else ret tt.

(** [x.p] where [x] may be undefined or null. *)
Definition unwrap {A} (o : option A) : M A :=
  match o with Some a => ret a | None => throw TypeError end.

Fixpoint forEach {A} (l : list A) (f : A -> M unit) : M unit :=
  match l with
  | [] => ret tt
  | x :: l' => f x ;; forEach l' f
  end.

(** [array.map((x, i) => f(x, i))], starting at index [i]. *)
Fixpoint mapi_from {A B} (i : nat) (l : list A) (f : A -> nat -> M B) : M (list B) :=
  match l with
  | [] => ret []
  | x :: l' => y <- f x i ;; ys <- mapi_from (S i) l' f ;; ret (y :: ys)
  end.

(** An external call: recorded, and raising where the platform says so. *)
Definition call (e : Effect) : M unit :=
  fun w =>
    let w' := with_trace (fun t => t ++ [e]) w in
    if raises (platform w) e then (Throw ExternalError, w') else (Ok tt, w').

(** [console.warn] and the no-op default callback cannot raise. *)
Definition record (e : Effect) : M unit :=
  modify (with_trace (fun t => t ++ [e])).

Definition new_id : M nat :=
  fun w => (Ok (fresh w), with_fresh S w).

(** Leave a continuation with the event loop; the result identifies it
    (a timer id, or the promise the continuation hangs on). *)
Definition spawn (t : Task) : M nat :=
  i <- new_id ;;
  modify (with_tasks (fun ts => ts ++ [(i, t)])) ;;
  ret i.

Definition remove_task (i : nat) (ts : list (nat * Task)) : list (nat * Task) :=
  List.filter (fun it => negb (Nat.eqb (fst it) i)) ts.

Definition clearTimeout (i : nat) : M unit :=
  modify (with_tasks (remove_task i)).

(** A reference that is not in the store stands for [undefined]. *)
Definition session_at (s : SRef) : M (option Session) :=
  gets (fun w => sessions w !! s).

Definition deref (s : SRef) : M Session :=
  o <- session_at s ;; unwrap o.

Definition store (s : SRef) (v : Session) : M unit :=
  modify (with_sessions (fun m => <[s := v]> m)).

(** ** Methods of [WebRTCClient] *)

(** JavaScript truthiness of a string. *)
Definition truthy (s : string) : bool := negb (String.eqb s "").

Definition MAX_REGISTER_TRY : nat := 200.
Definition MAX_MERGE_SESSIONS : nat := 4.

Definition events : list string :=
  ["registered"; "unregistered"; "registrationFailed"; "invite"; "inviteSent";
   "transportCreated"; "newTransaction"; "transactionDestroyed"; "notify";
   "outOfDialogReferRequested"; "message"].

Definition transportEvents : list string :=
  ["connected"; "disconnected"; "transportError"; "message"; "closed";
   "keepAliveDebounceTimeout"].

Definition _isWeb : M bool := gets (fun w => isWeb (platform w)).
Definition _hasAudio : M bool := this hasAudio.
Definition _hasVideo : M bool := this videoEnabled.

(** [(s && s.request && s.request.callId) || (s && s.id) || ''] *)
Definition getSipSessionId (o : option Session) : string :=
  match o with
  | None => ""
  | Some s =>
      let fromRequest := match request s with Some r => callId r | None => "" end in
      if truthy fromRequest then fromRequest
      else match id s with Some i => i | None => "" end
  end.

Definition sessionId (s : SRef) : M string :=
  o <- session_at s ;; ret (getSipSessionId o).

(** [m && m.deviceId && m.deviceId.exact ? m : true] *)
Definition device_or_true (m : MediaSetting) : MediaSetting :=
  match m with
  | MDevice e => if truthy e then MDevice e else MBool true
  | MBool _ => MBool true
  end.

Definition _getAudioConstraints : M MediaSetting :=
  a <- this audio ;; ret (device_or_true a).

Definition _getVideoConstraints : M MediaSetting :=
  ve <- this videoEnabled ;;
  if negb ve then ret (MBool false)
  else v <- this video ;; ret (device_or_true v).

Definition _getRtcOptions (enableVideo : bool) : M RtcOptions :=
  a <- _hasAudio ;; ret (mkRtcOptions a enableVideo).

Definition _getMediaConfiguration (enableVideo : bool) : M MediaConfiguration :=
  a <- _getAudioConstraints ;;
  v <- _getVideoConstraints ;;
  ha <- _hasAudio ;;
  ret (mkMediaConfiguration a v (negb enableVideo) (mkRtcOptions ha enableVideo)).

Definition changeVideo (enabled : bool) : M unit :=
  assign (set_videoEnabled enabled).

(** *** Muting tracks *)

Definition kind_eqb (a b : TrackKind) : bool :=
  match a, b with
  | AudioTrack, AudioTrack | VideoTrack, VideoTrack => true
  | _, _ => false
  end.

(** [track.enabled = v] on a track of kind [k], nothing on the others. *)
Definition set_enabled (k : TrackKind) (v : bool) (t : Track) : Track :=
  if kind_eqb (kind t) k then mkTrack (kind t) v else t.

Definition toggle_sender (k : TrackKind) (v : bool) (s : Sender) : Sender :=
  mkSender (set_enabled k v <$> senderTrack s).

Definition toggle_stream (k : TrackKind) (v : bool) (s : Stream) : Stream :=
  mkStream (streamId s) (set_enabled k v <$> tracks s).

(** The two branches the toggles share: [pc.getSenders()] when the
    connection has it, [pc.getLocalStreams()] otherwise. *)
Definition toggle_pc (k : TrackKind) (v : bool) (pc : PeerConnection) : PeerConnection :=
  match senders pc with
  | Some ss =>
      mkPc (Some (toggle_sender k v <$> ss)) (localStreams pc) (receivers pc)
        (remoteStreams pc) (signalingState pc) (iceConnectionState pc)
  | None =>
      mkPc None (toggle_stream k v <$> localStreams pc) (receivers pc)
        (remoteStreams pc) (signalingState pc) (iceConnectionState pc)
  end.

Definition with_pc (pc : PeerConnection) (s : Session) : Session :=
  mkSession (request s) (id s) (status s) (cancel_defined s) (reject_defined s)
    (bye_defined s) (stop_defined s) (isCanceled s) (_canceled s) (hasAnswer s)
    (localHold s) (Some (mkSdh (Some pc))).

Definition _toggleAudio (s : SRef) (muteAudio : bool) : M unit :=
  sess <- deref s ;;
  match sessionDescriptionHandler sess with
  | None => ret tt
  | Some sdh =>
      match peerConnection sdh with
      | None => ret tt
      | Some pc => store s (with_pc (toggle_pc AudioTrack (negb muteAudio) pc) sess)
      end
  end.

Definition _toggleVideo (s : SRef) (muteCamera : bool) : M unit :=
  sess <- deref s ;;
  sdh <- unwrap (sessionDescriptionHandler sess) ;;
  pc <- unwrap (peerConnection sdh) ;;
  store s (with_pc (toggle_pc VideoTrack (negb muteCamera) pc) sess).

Definition mute (s : SRef) : M unit := _toggleAudio s true.
Definition unmute (s : SRef) : M unit := _toggleAudio s false.
Definition toggleCameraOn (s : SRef) : M unit := _toggleVideo s false.
Definition toggleCameraOff (s : SRef) : M unit := _toggleVideo s true.

Definition hold (s : SRef) : M unit :=
  mute s ;;
  ve <- this videoEnabled ;;
  c <- _getMediaConfiguration ve ;;
  call (SessionHold s c).

Definition unhold (s : SRef) : M unit :=
  unmute s ;;
  ve <- this videoEnabled ;;
  c <- _getMediaConfiguration ve ;;
  call (SessionUnhold s c).

(** *** Streams of a peer connection *)

(** With [getSenders] a new MediaStream is filled with the senders'
    tracks; otherwise the first of [getLocalStreams()], if any. *)
Definition _getLocalStream (pc : option PeerConnection) : M (option Stream) :=
  pc <- unwrap pc ;;
  match senders pc with
  | Some ss => i <- new_id ;; ret (Some (mkStream i (omap senderTrack ss)))
  | None => ret (head (localStreams pc))
  end.

Definition _getRemoteStream (pc : option PeerConnection) : M (option Stream) :=
  pc <- unwrap pc ;;
  match receivers pc with
  | Some rs => i <- new_id ;; ret (Some (mkStream i (omap receiverTrack rs)))
  | None => ret (head (remoteStreams pc))
  end.

(** *** The audio graph *)

Definition edge_eqb (a b : nat * nat) : bool :=
  Nat.eqb (fst a) (fst b) && Nat.eqb (snd a) (snd b).

Definition connected (src dst : nat) (es : list (nat * nat)) : bool :=
  existsb (edge_eqb (src, dst)) es.

(** Connecting twice is connecting once. *)
Definition add_edge (src dst : nat) (es : list (nat * nat)) : list (nat * nat) :=
  if connected src dst es then es else es ++ [(src, dst)].

(** [disconnect(dst)] drops the connection to [dst]; with [undefined]
    or [null] for [dst] the call is [disconnect(0)], which drops every
    connection of the node. *)
Definition drop_edges (src : nat) (dst : option nat) (es : list (nat * nat)) : list (nat * nat) :=
  List.filter (fun e =>
    match dst with
    | Some d => negb (edge_eqb (src, d) e)
    | None => negb (Nat.eqb (fst e) src)
    end) es.

(** [src.connect(dst)] *)
Definition connect (src dst : nat) : M unit :=
  call (NodeConnect src dst) ;;
  modify (with_edges (add_edge src dst)).

(** [src.disconnect(dst)] *)
Definition disconnect (src : nat) (dst : option nat) : M unit :=
  call (NodeDisconnect src dst) ;;
  modify (with_edges (drop_edges src dst)).

Definition _addAudioStream (mediaStream : option Stream) : M (option nat) :=
  ctx <- this audioContext ;;
  match ctx, mediaStream with
  | Some _, Some st =>
      audioSource <- new_id ;;
      call (CreateMediaStreamSource audioSource st) ;;
      d <- this mergeDestination ;;
      match d with Some d => connect audioSource d | None => ret tt end ;;
      ret (Some audioSource)
  | _, _ => ret None
  end.

(** *** Merging sessions *)

Definition merge_warning : string :=
  "Merging more than 4 session is not recommended, it will consume too many resources.".

Definition _checkMaxMergeSessions (nbSessions : nat) : M unit :=
  if Nat.ltb nbSessions MAX_MERGE_SESSIONS then ret tt
  else record (ConsoleWarn merge_warning).

Definition bindStreams (s : SRef) (remoteStream : option Stream) : M nat :=
  sess <- deref s ;;
  sdh <- unwrap (sessionDescriptionHandler sess) ;;
  localStream <- _getLocalStream (peerConnection sdh) ;;
  localAudioSource <- _addAudioStream localStream ;;
  remoteAudioSource <- _addAudioStream remoteStream ;;
  when (is_some remoteStream) (call (PcRemoveStream s remoteStream)) ;;
  call (PcRemoveStream s localStream) ;;
  d <- this mergeDestination ;;
  match d with Some d => call (PcAddStream s d) | None => ret tt end ;;
  o <- _getRtcOptions false ;;
  call (PcCreateOffer s o) ;;
  spawn (AddToMergeOffer s (mkMergeEntry localAudioSource remoteAudioSource)).

Definition addToMerge (s : SRef) : M nat :=
  n <- this (fun c => count_audioStreams (audioStreams c)) ;;
  _checkMaxMergeSessions (n + 1) ;;
  web <- _isWeb ;;
  ff <- gets (fun w => isFirefox (platform w)) ;;
  let isFirefox := web && ff in
  sess <- deref s ;;
  sdh <- unwrap (sessionDescriptionHandler sess) ;;
  if localHold sess && negb isFirefox then
    unhold s ;;
    call (SdhOnce s "addTrack") ;;
    spawn (AddTrackOnce s)
  else
    remoteStream <- _getRemoteStream (peerConnection sdh) ;;
    bindStreams s remoteStream.

Definition merge (ss : list SRef) : M (list nat) :=
  _checkMaxMergeSessions (length ss) ;;
  ctx <- this audioContext ;;
  match ctx with
  | Some _ =>
      d <- new_id ;;
      call (CreateMediaStreamDestination d) ;;
      assign (set_mergeDestination (Some d))
  | None => ret tt
  end ;;
  match ctx with
  | Some c => when (suspended c) (call AudioResume)
  | None => ret tt
  end ;;
  mapi_from 0 ss (fun s _ => addToMerge s).

Definition pc_closed (pc : PeerConnection) : bool :=
  String.eqb (signalingState pc) "closed" || String.eqb (iceConnectionState pc) "closed".

(** The part of [removeFromMerge] under [if (this.audioContext)]; the
    result tells whether the method goes on ([false]: it returned null
    because the connection is closed). *)
Definition rebuild_destination (s : SRef) (pc : option PeerConnection)
    (localAudioSource : nat) (remoteAudioSource : option nat) : M bool :=
  newDestination <- new_id ;;
  call (CreateMediaStreamDestination newDestination) ;;
  connect localAudioSource newDestination ;;
  match remoteAudioSource with
  | Some r => connect r newDestination
  | None => ret tt
  end ;;
  pc <- unwrap pc ;;
  if pc_closed pc then ret false
  else
    d <- this mergeDestination ;;
    match d with Some d => call (PcRemoveMergedStream s d) | None => ret tt end ;;
    call (PcAddStream s newDestination) ;;
    ret true.

(** The result is the promise the method returns, [None] for null. *)
Definition removeFromMerge (s : SRef) (shouldHold : bool) : M (option nat) :=
  sess <- deref s ;;
  sdh <- unwrap (sessionDescriptionHandler sess) ;;
  let pc := peerConnection sdh in
  key <- sessionId s ;;
  entry <- this (fun c => audioStreams c !! key) ;;
  entry <- unwrap entry ;;
  d <- this mergeDestination ;;
  match remoteAudioSource entry with
  | Some r => disconnect r d
  | None => ret tt
  end ;;
  l <- unwrap (localAudioSource entry) ;;
  disconnect l d ;;
  ctx <- this audioContext ;;
  go_on <- match ctx with
           | Some _ => rebuild_destination s pc l (remoteAudioSource entry)
           | None => ret true
           end ;;
  if negb go_on then ret None
  else
    key <- sessionId s ;;
    assign (fun c => set_audioStreams (delete_audioStream key (audioStreams c)) c) ;;
    _ <- unwrap pc ;;
    o <- _getRtcOptions false ;;
    call (PcCreateOffer s o) ;;
    p <- spawn (RemoveFromMergeOffer s shouldHold) ;;
    ret (Some p).

Definition unmerge (ss : list SRef) : M nat :=
  let nbSessions := length ss in
  promises <- mapi_from 0 ss (fun s i => removeFromMerge s (Nat.ltb i (nbSessions - 1))) ;;
  spawn (UnmergeAll (omap (fun p => p) promises)).

(** *** Media elements *)

(** The local function [cleanAudio] of [_cleanupMedia].  Where the
    lookup finds no audio element (nothing, or a member of
    [Object.prototype]) the call of [pause] raises. *)
Definition cleanAudio (key : string) : M unit :=
  element <- this (fun c => element_at key (audioElements c)) ;;
  element <- unwrap element ;;
  call (ElementPause key) ;;
  when (parentNode element) (call (ElementRemoveChild key)) ;;
  assign (fun c => set_audioElements (delete_element key (audioElements c)) c).

(** [_cleanupMedia(session)]; [None] is the call without argument. *)
Definition _cleanupMedia (s : option SRef) : M unit :=
  sess <- match s with Some r => session_at r | None => ret None end ;;
  let key := getSipSessionId sess in
  vs <- this videoSessions ;;
  when (is_some sess && (is_some (vs !! key) || inherited key))
       (assign (fun c => set_videoSessions (delete key (videoSessions c)) c)) ;;
  ha <- _hasAudio ;;
  web <- _isWeb ;;
  when (ha && web)
       (if is_some sess then cleanAudio key
        else
          keys <- this (fun c => Object_keys (audioElements c)) ;;
          forEach keys cleanAudio).

(** *** Hanging up *)

(** The local function [cancel] of [hangup]; it returns nothing. *)
Definition hangup_cancel (s : SRef) (isISC : bool) : M unit :=
  sess <- deref s ;;
  if isISC && negb (isCanceled sess) then call (SessionCancel s)
  else if negb (_canceled sess) then
    (if reject_defined sess then ret tt else throw TypeError) ;;
    call (SessionReject s)
  else ret tt.

(** The local function [reject] of [hangup]:
    [session.reject && session.reject()]. *)
Definition hangup_reject (s : SRef) : M (option Effect) :=
  sess <- deref s ;;
  if reject_defined sess then call (SessionReject s) ;; ret (Some (SessionReject s))
  else ret None.

(** The table [actions]: [true] where the entry is [cancel], [false]
    where it is null or missing. *)
Definition actions (st : SessionStatus) : bool :=
  match st with
  | STATUS_1XX_RECEIVED => true
  | STATUS_WAITING_FOR_ANSWER => true
  | STATUS_CANCELED => false
  | STATUS_TERMINATED => false
  | _ => false
  end.

(** The body of the [try] block.  The result names the call whose value
    is returned, [None] where that is undefined. *)
Definition hangup_body (s : SRef) : M (option Effect) :=
  _cleanupMedia (Some s) ;;
  key <- sessionId s ;;
  merged <- this (fun c => in_audioStreams key (audioStreams c)) ;;
  (if merged then _ <- removeFromMerge s true ;; ret tt else ret tt) ;;
  _cleanupMedia (Some s) ;;
  sess <- deref s ;;
  let isISC := cancel_defined sess in
  let stop_and_reject :=
    (when (stop_defined sess) (call (SessionStop s)) ;;
     hangup_reject s) in
  if actions (status sess) then hangup_cancel s isISC ;; ret None
  else if isISC then
    if hasAnswer sess && bye_defined sess then
      call (SessionBye s) ;; ret (Some (SessionBye s))
    else if negb (hasAnswer sess) then hangup_cancel s isISC ;; ret None
    else stop_and_reject
  else stop_and_reject.

(** [None] also stands for the null that follows the [catch]. *)
Definition hangup (s : SRef) : M (option Effect) :=
  try_catch (hangup_body s)
    (fun error => record (ConsoleWarn "WebRtcClient.hangup error") ;; ret None).

(** *** The user agent *)

(** [a || b] on numbers: 0 and undefined are falsy. *)
Definition nat_or (o : option nat) (d : nat) : nat :=
  match o with
  | Some 0 | None => d
  | Some n => n
  end.

Definition string_or (o : option string) (d : string) : string :=
  match o with
  | Some s => if truthy s then s else d
  | None => d
  end.

Definition _createWebRTCConfiguration : M UAConfiguration :=
  cfg <- this config ;;
  cfg <- unwrap cfg ;;
  a <- _getAudioConstraints ;;
  v <- _getVideoConstraints ;;
  ve <- this videoEnabled ;;
  o <- _getRtcOptions ve ;;
  web <- _isWeb ;;
  ret {| ua_authorizationUser := authorizationUser cfg;
         ua_displayName := displayName cfg;
         ua_password := password cfg;
         ua_uri := (string_or (authorizationUser cfg) "" ++ "@" ++ host cfg)%string;
         ua_wsServers :=
           ("wss://" ++ host cfg ++ ":" ++ decimal (nat_or (port cfg) 443)
              ++ "/api/asterisk/ws")%string;
         ua_constraintsAudio := a;
         ua_constraintsVideo := v;
         ua_iceCheckingTimeout := nat_or (iceCheckingTimeout cfg) 5000;
         ua_iceServers := Ice.getIceServers (host cfg);
         ua_rtcOptions := o;
         ua_mobile := negb web |}.

Definition _bindRegistrationEvents (ua : nat) : M unit :=
  call (UaOn ua "registered") ;;
  call (UaTransportOn ua "disconnected") ;;
  call (UaOn ua "unregistered").

Definition createUserAgent : M UA :=
  webRTCConfiguration <- _createWebRTCConfiguration ;;
  ua <- new_id ;;
  call (NewUA ua webRTCConfiguration) ;;
  forEach (List.filter (fun e => negb (String.eqb e "invite") && negb (String.eqb e "new")) events)
          (fun e => call (UaOn ua e)) ;;
  call (UaOn ua "invite") ;;
  forEach transportEvents (fun e => call (UaTransportOn ua e)) ;;
  _bindRegistrationEvents ua ;;
  ret (mkUA ua webRTCConfiguration false).

(** [this.userAgent && this.userAgent.isRegistered()] *)
Definition isRegistered : M bool :=
  ua <- this userAgent ;;
  ret (match ua with Some u => uaIsRegistered u | None => false end).

Definition register : M unit :=
  ua <- this userAgent ;;
  r <- isRegistered ;;
  match ua with
  | None => ret tt
  | Some u => if r then ret tt else call (UaRegister (uaId u))
  end.

Definition unregister : M unit :=
  ua <- this userAgent ;;
  match ua with
  | None => ret tt
  | Some u => call (UaUnregister (uaId u)) ;; assign (set_registered false)
  end.

Definition changeAudioInputDevice (dev : string) : M unit :=
  assign (set_audio (if truthy dev then MDevice dev else MBool true)) ;;
  ua <- this userAgent ;;
  match ua with
  | Some u =>
      call (UaTransportDisconnect (uaId u)) ;;
      call (UaStop (uaId u)) ;;
      call (UaRemoveAllListeners (uaId u))
  | None => ret tt
  end ;;
  u <- createUserAgent ;;
  assign (set_userAgent (Some u)).

Definition changeVideoInputDevice (dev : string) : M unit :=
  assign (set_video (if truthy dev then MDevice dev else MBool true)) ;;
  ua <- this userAgent ;;
  match ua with
  | Some u =>
      call (UaTransportDisconnect (uaId u)) ;;
      call (UaRemoveAllListeners (uaId u)) ;;
      call (UaStop (uaId u))
  | None => ret tt
  end ;;
  u <- createUserAgent ;;
  assign (set_userAgent (Some u)).

(** *** Registration retry *)

(** [cb(failed)]: the default callback does nothing and cannot raise. *)
Definition invoke (cb : Callback) (failed : bool) : M unit :=
  match cb with
  | DefaultCb => record (InvokeCallback cb failed)
  | UserCb _ => call (InvokeCallback cb failed)
  end.

(** [setTimeout] identifiers are truthy, so [registerTimeout] is falsy
    only while it is null. *)
Definition _tryToRegister (cb : Callback) : M unit :=
  r <- this registered ;;
  n <- this registerTries ;;
  if r || Nat.leb MAX_REGISTER_TRY n then
    t <- this registerTimeout ;;
    match t with Some i => clearTimeout i | None => ret tt end ;;
    invoke cb (Nat.leb MAX_REGISTER_TRY n) ;;
    assign (set_registering false)
  else
    i <- spawn (RetryRegister (1500 * n) cb) ;;
    assign (set_registerTimeout (Some i)).

(** The function [_tryToRegister] hands to [setTimeout]. *)
Definition retry_attempt (cb : Callback) : M unit :=
  ua <- this userAgent ;;
  match ua with
  | Some u => call (UaRemoveAllListeners (uaId u))
  | None => ret tt
  end ;;
  u <- createUserAgent ;;
  assign (set_userAgent (Some u)) ;;
  register ;;
  assign (fun c => set_registerTries (S (registerTries c)) c) ;;
  _tryToRegister cb.

Definition reinit (cb : Callback) : M unit :=
  r <- this registering ;;
  if r then ret tt
  else
    assign (set_registering true) ;;
    assign (set_registerTries 0) ;;
    assign (set_registered false) ;;
    _tryToRegister cb.

(** The listeners of [_bindRegistrationEvents]. *)
Definition onRegistered : M unit := assign (set_registered true).
Definition onDisconnected : M unit := assign (set_registered false) ;; reinit DefaultCb.

(** *** Incoming invites *)

Fixpoint prefixb (p s : string) : bool :=
  match p, s with
  | EmptyString, _ => true
  | String a p', String b s' => Ascii.eqb a b && prefixb p' s'
  | String _ _, EmptyString => false
  end.

Fixpoint contains (needle hay : string) : bool :=
  prefixb needle hay ||
  match hay with
  | String _ hay' => contains needle hay'
  | EmptyString => false
  end.

(** [/\r\nm=video /.test(sdp)] *)
Definition sessionWantsToDoVideo (s : SRef) : M bool :=
  sess <- deref s ;;
  req <- unwrap (request sess) ;;
  ret (contains (String "013" (String "010" "m=video ")) (body req)).

Definition _setupSession (s : SRef) : M unit :=
  _ <- deref s ;;
  call (SessionOn s "accepted") ;;
  call (SessionOn s "terminated") ;;
  call (SessionOn s "SessionDescriptionHandler-created").

Definition _fixLocalDescription (s : SRef) (direction : string) : M unit :=
  _ <- deref s ;;
  call (SessionOn s "SessionDescriptionHandler-created").

(** [!!value] for the result of [getHeader]. *)
Definition truthy_header (v : option string) : bool :=
  match v with Some x => truthy x | None => false end.

(** The listener [createUserAgent] binds to the agent's 'invite'. *)
Definition onInvite (s : SRef) : M unit :=
  _setupSession s ;;
  _fixLocalDescription s "answer" ;;
  sess <- deref s ;;
  req <- unwrap (request sess) ;;
  let shouldAutoAnswer := truthy_header (getHeader req "alert-info") in
  hasVideo <- sessionWantsToDoVideo s ;;
  call (EmitInvite s hasVideo shouldAutoAnswer).

(** ** The event loop

    The client is single-threaded: between two of its methods the event
    loop runs one pending continuation at a time.  Which one, and when, is
    up to the environment (timers expire, offers are created, tracks
    arrive); only [Promise.all] has to wait for what it awaits. *)

(** What a continuation does when the event loop calls it.  [i] is the
    identity it was spawned under, [payload] the stream of an 'addTrack'
    event ([e.streams[0]]). *)
Definition run_task (i : nat) (t : Task) (payload : option Stream) : M unit :=
  match t with
  | RetryRegister _ cb => retry_attempt cb
  | AddToMergeOffer s e =>
      key <- sessionId s ;;
      assign (fun c => set_audioStreams (<[key := e]> (audioStreams c)) c) ;;
      call (PcSetLocalDescription s)
  | AddTrackOnce s => _ <- bindStreams s payload ;; ret tt
  | RemoveFromMergeOffer s shouldHold =>
      call (PcSetLocalDescription s) ;;
      when shouldHold (hold s) ;;
      _ <- spawn (SetLocalDescriptionDone i) ;; ret tt
  | SetLocalDescriptionDone _ => ret tt
  | UnmergeAll _ => assign (set_mergeDestination None)
  end.

(** [Promise.all] is ready once nothing it awaits is pending. *)
Definition ready (t : Task) : bool :=
  match t with
  | UnmergeAll (_ :: _) => false
  | _ => true
  end.

Definition lookup_task (i : nat) (ts : list (nat * Task)) : option Task :=
  snd <$> List.find (fun it => Nat.eqb (fst it) i) ts.

(** Promise [p] is fulfilled: whoever awaits it stops waiting for it. *)
Definition fulfil (p : nat) (ts : list (nat * Task)) : list (nat * Task) :=
  (fun it => match snd it with
             | UnmergeAll l => (fst it, UnmergeAll (List.filter (fun q => negb (Nat.eqb q p)) l))
             | _ => it
             end) <$> ts.

(** Promise [p] is rejected: [Promise.all] rejects with it and its
    [then] callback never runs. *)
Definition reject (p : nat) (ts : list (nat * Task)) : list (nat * Task) :=
  List.filter (fun it => match snd it with
                         | UnmergeAll l => negb (existsb (Nat.eqb p) l)
                         | _ => true
                         end) ts.

(** The promise a continuation settles, if somebody can await it. *)
Definition settles_promise (i : nat) (t : Task) : option nat :=
  match t with
  | RemoveFromMergeOffer _ _ => Some i
  | SetLocalDescriptionDone p => Some p
  | _ => None
  end.

(** The event loop takes the pending continuation [i] and runs it. *)
Definition settle (i : nat) (payload : option Stream) (w : World) : option World :=
  match lookup_task i (tasks w) with
  | Some t =>
      if ready t then
        match run_task i t payload (with_tasks (remove_task i) w) with
        | (Ok _, w') =>
            Some (match t with
                  | SetLocalDescriptionDone p => with_tasks (fulfil p) w'
                  | _ => w'
                  end)
        | (Throw _, w') =>
            Some (match settles_promise i t with
                  | Some p => with_tasks (reject p) w'
                  | None => w'
                  end)
        end
      else None
  | None => None
  end.

(** The awaited operation fails instead (an offer cannot be created, a
    description cannot be set): the continuation is dropped. *)
Definition fail (i : nat) (w : World) : option World :=
  match lookup_task i (tasks w) with
  | Some (AddToMergeOffer _ _) => Some (with_tasks (remove_task i) w)
  | Some (RemoveFromMergeOffer _ _) =>
      Some (with_tasks (fun ts => reject i (remove_task i ts)) w)
  | Some (SetLocalDescriptionDone p) =>
      Some (with_tasks (fun ts => reject p (remove_task i ts)) w)
  | _ => None
  end.



(** Nothing is pending any more. *)
Definition quiescent (w : World) : Prop := tasks w = [].

(** The event loop runs the continuations of a schedule, in order;
    each comes with what its event carries. *)
Fixpoint settle_all (schedule : list (nat * option Stream)) (w : World) : option World :=
  match schedule with
  | [] => Some w
  | (i, payload) :: rest =>
      match settle i payload w with
      | Some w' => settle_all rest w'
      | None => None
      end
  end.

(** ** The constructor *)

(** [configureMedia]: the audio context exists on the web only. *)
Definition configureMedia (m : MediaConfig) (ctx : option AudioContext) (c : Client) : Client :=
  mkClient (config c) (userAgent c)
    (match mediaAudio m with MBool b => b | MDevice _ => true end)
    (mediaAudio m) (mediaVideo m) (videoEnabled c) (mediaLocalVideo m)
    ctx ∅ (mergeDestination c) [] (videoSessions c) (registerTries c) (registered c)
    (registering c) (registerTimeout c).

(** The instance [new WebRTCClient(config)] returns; [config] and
    [userAgent] are still undefined, they arrive with [_buildConfig]. *)
Definition constructed (m : MediaConfig) (ctx : option AudioContext) : Client :=
  configureMedia m ctx
    (mkClient None None false (MBool false) (MBool false) false false None
       ∅ None [] ∅ 0 false false None).

(** The [then] callback of [_buildConfig] in the constructor. *)
Definition onConfig (newConfig : WebRtcConfig) : M unit :=
  assign (set_config (Some newConfig)) ;;
  u <- createUserAgent ;;
  assign (set_userAgent (Some u)).

(** A world in which the client has just been constructed: nothing is
    pending, nothing was called. *)
Definition initial (w : World) : Prop :=
  (exists m ctx, client w = constructed m ctx /\ is_some ctx = isWeb (platform w)) /\
  tasks w = [] /\ edges w = [] /\ trace w = [].

(** ** What can happen to a client

    The application calls its methods, sip.js and the browser deliver
    events and change the objects they own, the event loop runs pending
    continuations. *)
Inductive Action : Type :=
| CallReinit (cb : Callback)
| CallRegister
| CallUnregister
| CallChangeAudioInputDevice (dev : string)
| CallChangeVideoInputDevice (dev : string)
| CallHangup (s : SRef)
| CallMute (s : SRef)
| CallUnmute (s : SRef)
| CallToggleCameraOn (s : SRef)
| CallToggleCameraOff (s : SRef)
| CallHold (s : SRef)
| CallUnhold (s : SRef)
| CallMerge (ss : list SRef)
| CallAddToMerge (s : SRef)
| CallRemoveFromMerge (s : SRef) (shouldHold : bool)
| CallUnmerge (ss : list SRef)
| ConfigResolved (cfg : WebRtcConfig)
| EventRegistered
| EventUnregistered
| EventDisconnected
| EventInvite (s : SRef)
| LoopSettle (i : nat) (payload : option Stream)
| LoopFail (i : nat)
| LibrarySessions (ss : gmap nat Session)
| LibraryAgent (isRegistered : bool).

Definition after {A} (m : M A) (w : World) : option World := Some (snd (m w)).

Definition agent_registered (b : bool) (c : Client) : Client :=
  set_userAgent ((fun u => mkUA (uaId u) (uaConfiguration u) b) <$> userAgent c) c.

Definition perform (a : Action) (w : World) : option World :=
  match a with
  | CallReinit cb => after (reinit cb) w
  | CallRegister => after register w
  | CallUnregister => after unregister w
  | CallChangeAudioInputDevice dev => after (changeAudioInputDevice dev) w
  | CallChangeVideoInputDevice dev => after (changeVideoInputDevice dev) w
  | CallHangup s => after (hangup s) w
  | CallMute s => after (mute s) w
  | CallUnmute s => after (unmute s) w
  | CallToggleCameraOn s => after (toggleCameraOn s) w
  | CallToggleCameraOff s => after (toggleCameraOff s) w
  | CallHold s => after (hold s) w
  | CallUnhold s => after (unhold s) w
  | CallMerge ss => after (merge ss) w
  | CallAddToMerge s => after (addToMerge s) w
  | CallRemoveFromMerge s b => after (removeFromMerge s b) w
  | CallUnmerge ss => after (unmerge ss) w
  | ConfigResolved cfg => after (onConfig cfg) w
  | EventRegistered => after onRegistered (with_client (agent_registered true) w)
  | EventUnregistered => after onDisconnected (with_client (agent_registered false) w)
  | EventDisconnected => after onDisconnected w
  | EventInvite s => after (onInvite s) w
  | LoopSettle i payload => settle i payload w
  | LoopFail i => fail i w
  | LibrarySessions ss => Some (with_sessions (fun _ => ss) w)
  | LibraryAgent b => Some (with_client (agent_registered b) w)
  end.

Inductive reachable : World -> Prop :=
| reachable_initial w : initial w -> reachable w
| reachable_perform w a w' : reachable w -> perform a w = Some w' -> reachable w'.

(** ** Vocabulary of the properties *)

(** The tracks a session sends: those of its senders, or of its local
    streams on a connection without [getSenders]. *)
Definition outgoing_tracks (pc : PeerConnection) : list Track :=
  match senders pc with
  | Some ss => omap senderTrack ss
  | None => concat (tracks <$> localStreams pc)
  end.

Definition session_pc (w : World) (s : SRef) : option PeerConnection :=
  sess ← sessions w !! s; sdh ← sessionDescriptionHandler sess; peerConnection sdh.

Definition session_tracks (w : World) (s : SRef) : list Track :=
  match session_pc w s with
  | Some pc => outgoing_tracks pc
  | None => []
  end.

Definition audio_tracks (l : list Track) : list Track :=
  List.filter (fun t => kind_eqb (kind t) AudioTrack) l.

(** Every outgoing video track of [s] has [enabled = v]. *)
Definition video_tracks_enabled (v : bool) (w : World) (s : SRef) : Prop :=
  Forall (fun t => kind t = VideoTrack -> enabled t = v) (session_tracks w s).

(** ** Sample worlds *)

Definition quiet : Effect -> bool := fun _ => false.
Definition browser : Platform := mkPlatform true false quiet.
Definition mobile : Platform := mkPlatform false false quiet.

Definition sample_media : MediaConfig := mkMediaConfig (MBool true) (MBool true) false.

Definition sample_config : WebRtcConfig :=
  mkConfig "Alice" "stack.example.org" None (Some "alice") (Some "secret")
    "alice@stack.example.org" sample_media 4 None None.

Definition sample_client (p : Platform) : Client :=
  set_config (Some sample_config)
    (constructed sample_media (if isWeb p then Some (mkAudioContext false) else None)).

Definition sample_world (p : Platform) (ss : list (nat * Session)) : World :=
  mkWorld (sample_client p) p (list_to_map ss) [] [] 100 [].

(** A client in a browser that is configured for the server [h]. *)
Definition config_for (h : string) : WebRtcConfig :=
  mkConfig "Alice" h None (Some "alice") (Some "secret") ("alice@" ++ h) sample_media 4 None None.

Definition world_for (h : string) : World :=
  mkWorld (set_config (Some (config_for h)) (sample_client browser)) browser ∅ [] [] 100 [].

Definition open_pc (ss : list Sender) : PeerConnection :=
  mkPc (Some ss) [] (Some []) [] "stable" "connected".

(** An answered outgoing call with a camera that is switched off. *)
Definition camera_session : Session :=
  mkSession (Some (mkRequest "call-1" "" [])) (Some "s1") STATUS_CONFIRMED
    true false true false false false true false
    (Some (mkSdh (Some (open_pc [mkSender (Some (mkTrack AudioTrack true));
                                 mkSender (Some (mkTrack VideoTrack false))])))).

Definition camera_world : World := sample_world browser [(0, camera_session)].

(** The request has a header of that name. *)
Definition carries_header (r : Request) (name : string) : Prop :=
  exists v, In (name, v) (headers r).

(** No external call raises. *)
Definition calm (w : World) : Prop := forall e, raises (platform w) e = false.

(** An incoming call whose Alert-Info header has an empty value. *)
Definition empty_alert_session : Session :=
  mkSession (Some (mkRequest "call-2" "v=0" [("alert-info", "")])) (Some "s2")
    STATUS_WAITING_FOR_ANSWER
    false true true false false false false false None.

Definition empty_alert_world : World := sample_world browser [(0, empty_alert_session)].

(** An incoming call that asks for automatic answer. *)
Definition auto_answer_session : Session :=
  mkSession (Some (mkRequest "call-3" "v=0" [("alert-info", "info=alert-autoanswer")]))
    (Some "s3") STATUS_WAITING_FOR_ANSWER
    false true true false false false false false None.

Definition auto_answer_world : World := sample_world browser [(0, auto_answer_session)].

(** The pending retry timers of the registration loop. *)
Definition is_retry (t : Task) : bool :=
  match t with RetryRegister _ _ => true | _ => false end.

Definition retry_timers (w : World) : list (nat * Task) :=
  List.filter (fun it => is_retry (snd it)) (tasks w).

(** The invocations of completion callbacks in a trace. *)
Definition callbacks (t : list Effect) : list (Callback * bool) :=
  omap (fun e => match e with InvokeCallback cb failed => Some (cb, failed) | _ => None end) t.

(** [frames R m]: whatever [m] does and however it ends, the world it
    leaves is [R]-related to the one it found. *)
Definition frames (R : World -> World -> Prop) {A} (m : M A) : Prop :=
  forall w, R w (snd (m w)).

(** The state changes of the media methods (everything but the
    registration loop); a relation that tolerates them is framed by all
    of these methods. *)
Class Tolerant (R : World -> World -> Prop) : Prop := {
  tol_refl : forall w, R w w;
  tol_trans : forall w1 w2 w3, R w1 w2 -> R w2 w3 -> R w1 w3;
  tol_trace : forall e w, R w (with_trace (fun t => t ++ [e]) w);
  tol_fresh : forall w, R w (with_fresh S w);
  tol_edges : forall f w, R w (with_edges f w);
  tol_toggle : forall w s sess sdh pc k v,
    sessions w !! s = Some sess ->
    sessionDescriptionHandler sess = Some sdh ->
    peerConnection sdh = Some pc ->
    R w (with_sessions (fun m => <[s := with_pc (toggle_pc k v pc) sess]> m) w);
  tol_spawn : forall w t,
    is_retry t = false ->
    R w (with_tasks (fun ts => ts ++ [(fresh w, t)]) (with_fresh S w));
  tol_mergeDestination : forall w v, R w (with_client (set_mergeDestination v) w);
  tol_audioStreams : forall w v, R w (with_client (set_audioStreams v) w);
  tol_audioElements : forall w v, R w (with_client (set_audioElements v) w);
  tol_videoSessions : forall w v, R w (with_client (set_videoSessions v) w);
}.

(** The trace is only ever extended. *)
Definition trace_grows (w w' : World) : Prop :=
  exists rest, trace w' = trace w ++ rest.

(** An outgoing call that was answered and has ended. *)
Definition terminated_session : Session :=
  mkSession (Some (mkRequest "call-4" "" [])) (Some "s4") STATUS_TERMINATED
    true false true false false false true false
    (Some (mkSdh (Some (open_pc [mkSender (Some (mkTrack AudioTrack true))])))).

Definition terminated_world : World := sample_world mobile [(0, terminated_session)].

(** An incoming call that was canceled before it was answered. *)
Definition canceled_session : Session :=
  mkSession (Some (mkRequest "call-5" "" [])) (Some "s5") STATUS_CANCELED
    false true true false false false false false None.

Definition canceled_world : World := sample_world mobile [(0, canceled_session)].

Definition four_sessions : list SRef := [0; 1; 2; 3].

(** Identities are handed out in increasing order: what is pending was
    spawned under an identity below [fresh]. *)
Definition task_ids_fresh (w : World) : Prop :=
  Forall (fun it => fst it < fresh w) (tasks w).

(** The pending retry timer expires: the event loop runs the
    continuation [registerTimeout] refers to. *)
Definition attempt (w : World) : option World :=
  match registerTimeout (client w) with
  | Some i => settle i None w
  | None => None
  end.

(** [k] attempts in a row, nothing else happening in between (in
    particular no 'registered' event: the attempts fail). *)
Fixpoint attempts (k : nat) (w : World) : option World :=
  match k with
  | 0 => Some w
  | S k' => match attempt w with
            | Some w' => attempts k' w'
            | None => None
            end
  end.

(** The loop [reinit cb] started in [w0] has made [k] attempts, all of
    them failed, and waits for its next timer. *)
Definition looping (cb : Callback) (w0 : World) (k : nat) (w : World) : Prop :=
  registering (client w) = true /\
  registered (client w) = false /\
  registerTries (client w) = k /\
  config (client w) = config (client w0) /\
  platform w = platform w0 /\
  fresh w0 <= fresh w /\
  callbacks (trace w) = callbacks (trace w0) /\
  exists i, registerTimeout (client w) = Some i /\ fresh w0 <= i /\
            tasks w = tasks w0 ++ [(i, RetryRegister (1500 * k) cb)].

(** The loop [reinit cb] started in [w0] has given up; what
    [registerTimeout] holds is the timer of its last attempt. *)
Definition gave_up (cb : Callback) (w0 : World) (w : World) : Prop :=
  registering (client w) = false /\
  registerTries (client w) = MAX_REGISTER_TRY /\
  tasks w = tasks w0 /\
  callbacks (trace w) = callbacks (trace w0) ++ [(cb, true)] /\
  exists i, registerTimeout (client w) = Some i /\ fresh w0 <= i.

(** Two worlds with the same registering flag and the same retry timers. *)
Definition same_registration (w w' : World) : Prop :=
  registering (client w') = registering (client w) /\
  retry_timers w' = retry_timers w.

(** At most one retry timer is pending, and none outside of a loop. *)
Definition single_loop (w : World) : Prop :=
  length (retry_timers w) <= 1 /\
  (registering (client w) = false -> retry_timers w = []).

(** A client that was just constructed, on platform [p]. *)
Definition new_world (p : Platform) : World :=
  mkWorld (constructed sample_media (if isWeb p then Some (mkAudioContext true) else None))
    p ∅ [] [] 0 [].

(** ** Vocabulary of the merge properties *)

(** [_getLocalStream] finds a stream on this connection. *)
Definition has_local_stream (pc : PeerConnection) : bool :=
  is_some (senders pc) || is_some (head (localStreams pc)).

(** A session the merge can work on: it has a session description
    handler whose peer connection is open and yields a local stream;
    [key] is its identifier, under which [audioStreams] can hold an own
    property. *)
Definition mergeable_session (key : string) (sess : Session) : Prop :=
  (getSipSessionId (Some sess) = key /\ key <> "__proto__") /\
  exists sdh pc,
    sessionDescriptionHandler sess = Some sdh /\
    peerConnection sdh = Some pc /\
    pc_closed pc = false /\
    has_local_stream pc = true.

Definition mergeable (w : World) (s : SRef) (key : string) : Prop :=
  exists sess, sessions w !! s = Some sess /\ mergeable_session key sess.

(** A step of the media methods that leaves the client's fields and the
    pending continuations alone. *)
Definition quiet_step (w w' : World) : Prop :=
  client w' = client w /\
  platform w' = platform w /\
  tasks w' = tasks w /\
  fresh w <= fresh w' /\
  (forall s key, mergeable w s key -> mergeable w' s key) /\
  trace_grows w w'.


(** The node was made by [createMediaStreamDestination]. *)
Definition is_destination (w : World) (n : nat) : Prop :=
  In (CreateMediaStreamDestination n) (trace w).

(** [runs m w Q]: from [w] the computation [m] returns normally, with
    a result and a world that satisfy [Q]. *)
Definition runs {A} (m : M A) (w : World) (Q : A -> World -> Prop) : Prop :=
  exists a w', m w = (Ok a, w') /\ Q a w'.

Definition add_edge_opt (src : option nat) (dst : nat) (es : list (nat * nat)) : list (nat * nat) :=
  match src with
  | Some n => add_edge n dst es
  | None => es
  end.

Definition drop_edges_opt (src : option nat) (dst : option nat) (es : list (nat * nat)) : list (nat * nat) :=
  match src with
  | Some n => drop_edges n dst es
  | None => es
  end.

(** The graph after [removeFromMerge] took the sources [l] and [r]
    off destination [d] and put them on the new destination [nd]. *)
Definition rewire (l : nat) (r : option nat) (d : option nat) (nd : nat)
    (es : list (nat * nat)) : list (nat * nat) :=
  add_edge_opt r nd (add_edge l nd (drop_edges l d (drop_edges_opt r d es))).

Definition ids_ok (w : World) : Prop :=
  NoDup (fst <$> tasks w) /\ task_ids_fresh w.

(** The identifier session [s] had in [w0]. *)
Definition key_in (w0 : World) (s : SRef) : string :=
  getSipSessionId (sessions w0 !! s).







(** An answered call with a microphone. *)
Definition call_session (name : string) : Session :=
  mkSession (Some (mkRequest name "" [])) (Some name) STATUS_CONFIRMED
    true false true false false false true false
    (Some (mkSdh (Some (open_pc [mkSender (Some (mkTrack AudioTrack true))])))).

(** Two calls in a browser, nothing merged yet. *)
Definition conference : list SRef := [0; 1].

Definition conference_world : World :=
  sample_world browser [(0, call_session "call-a"); (1, call_session "call-b")].


(** Four calls in a browser, for a merge at the maximum. *)
Definition four_calls_world : World :=
  sample_world browser
    [(0, call_session "call-a"); (1, call_session "call-b");
     (2, call_session "call-c"); (3, call_session "call-d")].


(** ** Vocabulary of the event loop *)









(** ** Further methods of [WebRTCClient] *)

(** [sessionHasAudio(session)].  On a connection without [getSenders]
    the method calls [some] on what [_getLocalStream] returns, which is a
    MediaStream or undefined and has no such method. *)
Definition sessionHasAudio (s : SRef) : M bool :=
  sess <- deref s ;;
  sdh <- unwrap (sessionDescriptionHandler sess) ;;
  pc <- unwrap (peerConnection sdh) ;;
  match senders pc with
  | Some ss =>
      ret (existsb (fun sender =>
                      match senderTrack sender with
                      | Some t => kind_eqb (kind t) AudioTrack && enabled t
                      | None => false
                      end) ss)
  | None =>
      _ <- _getLocalStream (Some pc) ;;
      throw TypeError
  end.

(** *** Video sessions *)

(** [stream.getVideoTracks()] *)
Definition getVideoTracks (st : Stream) : list Track :=
  List.filter (fun t => kind_eqb (kind t) VideoTrack) (tracks st).

(** [if (!this.videoSessions[sessionId])]: under a name the object
    inherits the lookup finds a member of [Object.prototype], which is
    truthy, and no entry is made. *)
Definition _initializeVideoSession (sessionId : string) : M unit :=
  known <- this (fun c => is_some (videoSessions c !! sessionId) || inherited sessionId) ;;
  when (negb known)
       (assign (fun c =>
          set_videoSessions (<[sessionId := mkVideoSession None []]> (videoSessions c)) c)).

(** [this.videoSessions[sessionId].local = stream].  [stream] may be
    undefined: it is what [_getLocalStream] returned.  Where the lookup
    finds a member of [Object.prototype] the assignment is made on that
    object. *)
Definition _addLocalToVideoSession (sessionId : string) (stream : option Stream) : M unit :=
  _initializeVideoSession sessionId ;;
  v <- this (fun c => videoSessions c !! sessionId) ;;
  match v with
  | Some v =>
      assign (fun c =>
        set_videoSessions
          (<[sessionId := mkVideoSession stream (vsRemotes v)]> (videoSessions c)) c)
  | None => record (MemberAssign sessionId stream)
  end.

(** [this.videoSessions[sessionId].remotes.push(stream)].  [stream]
    may be undefined: it is what [_getRemoteStream] returned.  A member
    of [Object.prototype] has no [remotes]. *)
Definition _addRemoteToVideoSession (sessionId : string) (stream : option Stream) : M unit :=
  _initializeVideoSession sessionId ;;
  v <- this (fun c => videoSessions c !! sessionId) ;;
  v <- unwrap v ;;
  assign (fun c =>
    set_videoSessions (<[sessionId := mkVideoSession (vsLocal v) (vsRemotes v ++ [stream])]>
                         (videoSessions c)) c).

(** [!!stream.getVideoTracks().length] *)
Definition has_video_track (st : Stream) : bool :=
  negb (Nat.eqb (length (getVideoTracks st)) 0).

(** A member of [Object.prototype] has neither [local] nor [remotes],
    so both tests below answer for it as for a name that is not there. *)
Definition sessionHasLocalVideo (sessionId : string) : M bool :=
  streams <- this (fun c => videoSessions c !! sessionId) ;;
  ret (match streams with
       | Some v => match vsLocal v with
                   | Some st => has_video_track st
                   | None => false
                   end
       | None => false
       end).

(** [remotes.some(remote => !!remote.getVideoTracks().length)]: the
    callback raises on an element that is undefined, unless an earlier
    one has ended the search. *)
Fixpoint some_has_video (remotes : list (option Stream)) : M bool :=
  match remotes with
  | [] => ret false
  | None :: _ => throw TypeError
  | Some st :: rest => if has_video_track st then ret true else some_has_video rest
  end.

Definition sessionHasRemoteVideo (sessionId : string) : M bool :=
  streams <- this (fun c => videoSessions c !! sessionId) ;;
  match streams with
  | Some v => some_has_video (vsRemotes v)
  | None => ret false
  end.


Definition getRemoteVideoStreamsForSession (sessionId : string) : M (list (option Stream)) :=
  streams <- this (fun c => videoSessions c !! sessionId) ;;
  ret (match streams with
       | Some v => vsRemotes v
       | None => []
       end).

(** ** Vocabulary of the further properties *)

(** Every outgoing audio track of [s] has [enabled = v]. *)
Definition audio_tracks_enabled (v : bool) (w : World) (s : SRef) : Prop :=
  Forall (fun t => kind t = AudioTrack -> enabled t = v) (session_tracks w s).

Definition video_tracks (l : list Track) : list Track :=
  List.filter (fun t => kind_eqb (kind t) VideoTrack) l.

(** The calls that end or stop a session. *)
Definition ends_session (e : Effect) : bool :=
  match e with
  | SessionCancel _ | SessionReject _ | SessionBye _ | SessionStop _ => true
  | _ => false
  end.

(** A video call offer, and one whose first line is the video line. *)
Definition video_offer : string :=
  "v=0" ++ String "013" (String "010" "m=audio 9 RTP/AVP 0")
        ++ String "013" (String "010" "m=video 9 RTP/AVP 96").

Definition invited_session (sdp : string) : Session :=
  mkSession (Some (mkRequest "call-6" sdp [])) (Some "s6") STATUS_WAITING_FOR_ANSWER
    false true true false false false false false None.

(** A step that leaves the platform, the sessions and [hasAudio] alone
    and makes no call that ends or stops a session. *)
Definition spares (w w' : World) : Prop :=
  platform w' = platform w /\
  sessions w' = sessions w /\
  hasAudio (client w') = hasAudio (client w) /\
  exists tr, trace w' = trace w ++ tr /\ Forall (fun e => ends_session e = false) tr.

(** The same, and the audio elements are left alone too. *)
Definition keeps_elements (w w' : World) : Prop :=
  spares w w' /\ audioElements (client w') = audioElements (client w).

(** A call in a browser, with its audio element in the page. *)
Definition ringing_world : World :=
  with_client (set_audioElements [("call-a", mkAudioElement None true)]) conference_world.

(** An outgoing call that is ringing at the other end. *)
Definition dialing_session : Session :=
  mkSession (Some (mkRequest "call-7" "" [])) (Some "s7") STATUS_1XX_RECEIVED
    true false true false false false false false None.

(** Three calls on a phone: one answered, one dialing, one coming in. *)
Definition phone_world : World :=
  sample_world mobile
    [(0, call_session "call-a"); (1, dialing_session); (2, invited_session video_offer)].

(** What [createUserAgent] calls on the agent [ua] it makes with
    configuration [c]: the constructor, then the listeners. *)
Definition agent_calls (ua : nat) (c : UAConfiguration) : list Effect :=
  NewUA ua c ::
  (UaOn ua <$> List.filter (fun e => negb (String.eqb e "invite") && negb (String.eqb e "new"))
                 events) ++
  [UaOn ua "invite"] ++
  (UaTransportOn ua <$> transportEvents) ++
  [UaOn ua "registered"; UaTransportOn ua "disconnected"; UaOn ua "unregistered"].

(** The device constraint [changeAudioInputDevice] and
    [changeVideoInputDevice] store: [id ? { deviceId: { exact: id } } : true]. *)
Definition device_constraint (dev : string) : MediaSetting :=
  if truthy dev then MDevice dev else MBool true.

(** A registered client in a browser, agent 7. *)
Definition registered_world : World :=
  with_client (fun c => set_registered true
                 (set_userAgent (Some (mkUA 7 (mkUAConfiguration None "" None "" ""
                                                 (MBool true) (MBool false) 5000 []
                                                 (mkRtcOptions true false) false) true)) c))
    (sample_world browser []).

(** A call whose peer connection has been closed. *)
Definition closed_pc : PeerConnection :=
  mkPc (Some [mkSender (Some (mkTrack AudioTrack true))]) [] (Some []) [] "closed" "closed".

Definition closed_session (name : string) : Session :=
  mkSession (Some (mkRequest name "" [])) (Some name) STATUS_TERMINATED
    true false true false false false true false
    (Some (mkSdh (Some closed_pc))).

(** Its audio was merged before: sources 3 and 4 on destination 2. *)
Definition closed_world : World :=
  mkWorld
    (set_mergeDestination (Some 2)
       (set_audioStreams {["call-z" := mkMergeEntry (Some 3) (Some 4)]} (sample_client browser)))
    browser (list_to_map [(0, closed_session "call-z")])
    [(3, 2); (4, 2)] [] 100 [].

(** The continuations [unmerge] leaves for the sessions [ss], the
    [k]-th of [n] first, when identities start at [p]: each removal
    takes one identity for its new destination and the next for its
    promise, and every session but the last of the [n] is to be held. *)
Fixpoint removal_offers (k n p : nat) (ss : list SRef) : list (nat * Task) :=
  match ss with
  | [] => []
  | s :: rest =>
      (S p, RemoveFromMergeOffer s (Nat.ltb k (n - 1)))
        :: removal_offers (S k) n (S (S p)) rest
  end.

(** Two merged calls in a browser: what [merge] leaves when its offers
    have arrived. *)
Definition merged_world : World :=
  default conference_world
    (settle_all [(105, None); (110, None)] (snd (merge conference conference_world))).

(** A call in a browser with a camera picture, local and remote. *)
Definition video_world : World :=
  with_client
    (set_videoSessions
       {["call-a" := mkVideoSession (Some (mkStream 1 [mkTrack VideoTrack true]))
                                    [Some (mkStream 2 [mkTrack AudioTrack true])]]})
    ringing_world.

(** A call the user has put on hold. *)
Definition held_session (name : string) : Session :=
  mkSession (Some (mkRequest name "" [])) (Some name) STATUS_CONFIRMED
    true false true false false false true true
    (Some (mkSdh (Some (open_pc [mkSender (Some (mkTrack AudioTrack false))])))).

Definition held_world : World := sample_world browser [(0, held_session "call-h")].

(** [close()].  [uaSessions] stands for the sessions in
    [userAgent.sessions], the table sip.js keeps of its sessions, and
    [transport] for whether [userAgent.transport] is there.  The result
    tells whether [userAgent.stop()] was reached; otherwise the method
    returned null. *)
Definition close (transport : bool) (uaSessions : list SRef) : M bool :=
  _cleanupMedia None ;;
  ids <- this (fun c => Object_keys (audioElements c)) ;;
  forEach ids (fun id => call (ElementPause id)) ;;
  assign (set_audioElements []) ;;
  ua <- this userAgent ;;
  match ua with
  | None => ret false
  | Some u =>
      when transport (call (UaTransportDisconnect (uaId u))) ;;
      call (UaRemoveAllListeners (uaId u)) ;;
      forEach uaSessions (fun s => _ <- hangup s ;; ret tt) ;;
      call (UaStop (uaId u)) ;;
      ret true
  end.

(** The calls [cleanAudio] makes on the element of that name: it is
    paused, and taken out of the page if it is in it. *)
Definition cleaning_calls (d : Elements) (name : string) : list Effect :=
  ElementPause name ::
  match element_at name d with
  | Some el => if parentNode el then [ElementRemoveChild name] else []
  | None => []
  end.

(** A registered client in a browser with two calls, one of which has
    its audio element in the page. *)
Definition busy_world : World :=
  with_client (fun c => set_userAgent (userAgent (client registered_world)) c) ringing_world.

(** The same with three audio elements; the one made last is named
    by an array index. *)
Definition crowded_world : World :=
  with_client
    (set_audioElements [("call-b", mkAudioElement None false);
                        ("call-a", mkAudioElement None true);
                        ("7", mkAudioElement None true)])
    busy_world.

(** The phone after its answered call was merged. *)
Definition merged_phone_world : World :=
  default phone_world (settle_all [(102, None)] (snd (addToMerge 0 phone_world))).

(** * Properties *)

(** ** ICE servers *)

Module IceFacts.
Import Ice.

Lemma dot_star_accepts s : dot_star s (fun _ => true) = true.
Proof. destruct s; simpl; [reflexivity | apply orb_true_r]. Qed.

Lemma run_seq r1 r2 s k :
  run (Seq r1 r2) s k = run r1 s (fun s' => run r2 s' k).
Proof. reflexivity. Qed.

(** A literal prefix matches exactly the strings that start with it. *)
Lemma run_lit p : forall r s k,
  run (lit p r) s k = true <->
  exists rest, s = (p ++ rest)%string /\ run r rest k = true.
Proof.
  induction p as [|c p IH]; intros r s k; simpl.
  - split; [intros H; now exists s | intros (rest & -> & H); exact H].
  - destruct s as [|c' s]; simpl.
    + split; [discriminate | intros (rest & E & _); discriminate].
    + rewrite andb_true_iff, IH. split.
      * intros [E (rest & -> & H)]. apply Ascii.eqb_eq in E. subst c'.
        now exists rest.
      * intros (rest & E & H). injection E as -> ->.
        split; [apply Ascii.eqb_refl | now exists rest].
Qed.

Lemma run_dot s k :
  run dot s k = true <-> exists rest, s = ("." ++ rest)%string /\ k rest = true.
Proof.
  unfold dot. destruct s as [|c s]; cbn [run].
  - split; [discriminate | intros (rest & E & _); discriminate].
  - rewrite andb_true_iff. split.
    + intros [E H]. apply Ascii.eqb_eq in E. subst c. now exists s.
    + intros (rest & E & H). injection E as -> ->.
      split; [apply Ascii.eqb_refl | exact H].
Qed.

Lemma in_range_iff lo hi c :
  in_range lo hi c = true <->
  nat_of_ascii lo <= nat_of_ascii c <= nat_of_ascii hi.
Proof.
  unfold in_range. rewrite andb_true_iff, !Nat.leb_le. tauto.
Qed.

Lemma digit_val_iff c x :
  digit_val c = Some x <-> 48 <= nat_of_ascii c <= 57 /\ x = nat_of_ascii c - 48.
Proof.
  unfold digit_val.
  destruct (Nat.leb 48 (nat_of_ascii c)) eqn:E1;
    destruct (Nat.leb (nat_of_ascii c) 57) eqn:E2; simpl;
    rewrite ?Nat.leb_le, ?Nat.leb_gt in *;
    (split; [intros H; try discriminate; injection H as <-; lia
            | intros [H ->]; try reflexivity; lia]).
Qed.

(** Character codes of literals, computed. *)
Ltac codes :=
  repeat match goal with
    | |- context [nat_of_ascii (Ascii ?a ?b ?c ?d ?e ?f ?g ?h)] =>
        let v := eval vm_compute in (nat_of_ascii (Ascii a b c d e f g h)) in
        change (nat_of_ascii (Ascii a b c d e f g h)) with v
    end.

Lemma ascii_of_code c n : nat_of_ascii c = n -> c = ascii_of_nat n.
Proof. intros <-. symmetry. apply ascii_nat_embedding. Qed.

(** The class [1[6-9]|2[0-9]|3[01]] reads the decimal numbers 16..31. *)
Lemma second_octet_regex a b s k :
  run (Alt (Seq (Lit "1") (Range "6" "9"))
           (Alt (Seq (Lit "2") (Range "0" "9"))
                (Seq (Lit "3") (Range "0" "1"))))
      (String a (String b s)) k = true <->
  second_octet_16_31 a b /\ k s = true.
Proof.
  cbn [run]. rewrite !orb_true_iff, !andb_true_iff, !in_range_iff.
  unfold second_octet_16_31. codes.
  split.
  - intros [[E [R K]] | [[E [R K]] | [E [R K]]]];
      apply Ascii.eqb_eq in E; subst a; (split; [|exact K]).
    + exists 1, (nat_of_ascii b - 48). rewrite !digit_val_iff. codes. lia.
    + exists 2, (nat_of_ascii b - 48). rewrite !digit_val_iff. codes. lia.
    + exists 3, (nat_of_ascii b - 48). rewrite !digit_val_iff. codes. lia.
  - intros [(x & y & Ha & Hb & R) K].
    apply digit_val_iff in Ha, Hb.
    destruct Ha as [Ra ->], Hb as [Rb ->].
    assert (C : nat_of_ascii a = 49 \/ nat_of_ascii a = 50 \/ nat_of_ascii a = 51) by lia.
    destruct C as [C | [C | C]]; rewrite C in R;
      apply ascii_of_code in C; subst a.
    + left. split; [reflexivity | split; [lia | exact K]].
    + right; left. split; [reflexivity | split; [lia | exact K]].
    + right; right. split; [reflexivity | split; [lia | exact K]].
Qed.

Lemma second_octet_run s k :
  run (Alt (Seq (Lit "1") (Range "6" "9"))
           (Alt (Seq (Lit "2") (Range "0" "9"))
                (Seq (Lit "3") (Range "0" "1")))) s k = true <->
  exists a b rest, s = String a (String b rest) /\ second_octet_16_31 a b /\ k rest = true.
Proof.
  destruct s as [|a [|b s]].
  - cbn [run]. split; [discriminate | intros (a & b & rest & E & _); discriminate].
  - cbn [run]. rewrite !andb_false_r. cbn [orb].
    split; [discriminate | intros (a' & b & rest & E & _); discriminate].
  - rewrite second_octet_regex. split.
    + intros [H K]. now exists a, b, s.
    + intros (a' & b' & rest & E & H & K). injection E as -> -> ->. now split.
Qed.

(** The pattern of [isAPrivateIp] matches exactly the private hosts. *)
Lemma private_regex_spec ip :
  exec_anchored private_regex ip = true <-> private_host ip.
Proof.
  unfold exec_anchored, private_regex, private_host.
  cbn [run]. rewrite !orb_true_iff.
  rewrite !run_lit.
  split.
  - intros [H | [H | [H | H]]].
    + destruct H as (r1 & -> & H). apply run_dot in H. destruct H as (r2 & -> & _).
      left. now exists r2.
    + destruct H as (r1 & -> & H). apply run_dot in H. destruct H as (r2 & -> & _).
      right; left. now exists r2.
    + destruct H as (r1 & -> & H). rewrite run_seq in H.
      apply second_octet_run in H. destruct H as (a & b & r2 & -> & O & H).
      apply run_dot in H. destruct H as (r3 & -> & _).
      right; right; left. now exists a, b, r3.
    + destruct H as (r1 & -> & H). apply run_dot in H. destruct H as (r2 & -> & _).
      right; right; right. now exists r2.
  - intros [(r & ->) | [(r & ->) | [(a & b & r & -> & O) | (r & ->)]]].
    + left. exists ("." ++ r)%string. split; [reflexivity|].
      apply run_dot. exists r. split; [reflexivity | apply dot_star_accepts].
    + right; left. exists ("." ++ r)%string. split; [reflexivity|].
      apply run_dot. exists r. split; [reflexivity | apply dot_star_accepts].
    + right; right; left. exists (String a (String b ("." ++ r)))%string.
      split; [reflexivity|]. rewrite run_seq.
      apply second_octet_run. exists a, b, ("." ++ r)%string.
      split; [reflexivity | split; [exact O|]].
      apply run_dot. exists r. split; [reflexivity | apply dot_star_accepts].
    + right; right; right. exists ("." ++ r)%string. split; [reflexivity|].
      apply run_dot. exists r. split; [reflexivity | apply dot_star_accepts].
Qed.

Lemma isAPrivateIp_spec ip : isAPrivateIp ip = false <-> private_host ip.
Proof.
  unfold isAPrivateIp. rewrite negb_false_iff. apply private_regex_spec.
Qed.

Lemma getIceServers_private ip : private_host ip -> getIceServers ip = [].
Proof.
  intros H. apply isAPrivateIp_spec in H. unfold getIceServers. now rewrite H.
Qed.

Lemma getIceServers_public ip : ~ private_host ip -> getIceServers ip = stun_servers.
Proof.
  intros H. unfold getIceServers.
  destruct (isAPrivateIp ip) eqn:E; [reflexivity|].
  apply isAPrivateIp_spec in E. contradiction.
Qed.

Lemma getIceServers_cases ip :
  (getIceServers ip = stun_servers <-> ~ private_host ip) /\
  (getIceServers ip = [] <-> private_host ip).
Proof.
  unfold getIceServers.
  destruct (isAPrivateIp ip) eqn:E.
  - assert (N : ~ private_host ip).
    { intros H. apply isAPrivateIp_spec in H. congruence. }
    split; split; try tauto; try discriminate.
  - apply isAPrivateIp_spec in E.
    split; split; try tauto; try discriminate.
Qed.

(** *** Addresses in dotted decimal notation *)

Lemma string_of_uint_digits d : digits (NilEmpty.string_of_uint d) = true.
Proof. induction d; cbn; auto. Qed.

Lemma decimal_digits n : digits (decimal n) = true.
Proof. apply string_of_uint_digits. Qed.

Lemma decimal_inj a b : decimal a = decimal b -> a = b.
Proof.
  unfold decimal. intros H. apply Unsigned.to_uint_inj.
  apply (f_equal NilEmpty.uint_of_string) in H. rewrite !NilEmpty.usu in H. congruence.
Qed.

(** Two numerals, each followed by a dot: the numerals are the same. *)
Lemma digits_dot s1 : forall s2 r1 r2,
  digits s1 = true -> digits s2 = true ->
  (s1 ++ "." ++ r1 = s2 ++ "." ++ r2)%string -> s1 = s2 /\ r1 = r2.
Proof.
  induction s1 as [|c s1 IH]; intros [|c' s2] r1 r2 D1 D2 E; cbn in *.
  - now injection E.
  - injection E as <- _. discriminate D2.
  - injection E as -> _. discriminate D1.
  - injection E as <- E.
    destruct (digit_val c); [|discriminate].
    destruct (IH s2 r1 r2 D1 D2 E) as [-> ->]. now split.
Qed.

Lemma dotted_prefix a b c d n rest :
  digits n = true ->
  dotted a b c d = (n ++ "." ++ rest)%string ->
  decimal a = n /\ rest = (decimal b ++ "." ++ decimal c ++ "." ++ decimal d)%string.
Proof.
  intros D E. unfold dotted in E.
  destruct (digits_dot (decimal a) n _ rest (decimal_digits a) D E) as [-> <-].
  now split.
Qed.


Lemma digit_val_inv c v : digit_val c = Some v -> c = ascii_of_nat (48 + v) /\ v <= 9.
Proof.
  unfold digit_val. intros H.
  destruct (Nat.leb 48 (nat_of_ascii c) && Nat.leb (nat_of_ascii c) 57) eqn:E; [|discriminate].
  apply andb_true_iff in E as [L U]. apply Nat.leb_le in L, U.
  injection H as <-. split; [|lia].
  replace (48 + (nat_of_ascii c - 48)) with (nat_of_ascii c) by lia.
  now rewrite ascii_nat_embedding.
Qed.

Lemma two_digits x y :
  1 <= x <= 9 -> y <= 9 ->
  String (ascii_of_nat (48 + x)) (String (ascii_of_nat (48 + y)) "") = decimal (10 * x + y).
Proof.
  intros Hx Hy.
  assert (X : In x (seq 1 9)) by (apply in_seq; lia).
  assert (Y : In y (seq 0 10)) by (apply in_seq; lia).
  cbn in X, Y.
  repeat (destruct X as [<- | X]; [repeat (destruct Y as [<- | Y]; [reflexivity|]); destruct Y|]).
  destruct X.
Qed.

Lemma private_host_dotted a b c d :
  private_host (dotted a b c d) <-> private_address a b = true.
Proof.
  unfold private_address, private_network, loopback_network.
  rewrite !orb_true_iff, !andb_true_iff, !Nat.eqb_eq, !Nat.leb_le.
  split.
  - intros [(r & E) | [(r & E) | [(x & y & r & E & O) | (r & E)]]].
    + apply (dotted_prefix a b c d "10" r eq_refl) in E as [E _].
      apply (decimal_inj a 10) in E. tauto.
    + apply (dotted_prefix a b c d "127" r eq_refl) in E as [E _].
      apply (decimal_inj a 127) in E. tauto.
    + apply (dotted_prefix a b c d "172" _ eq_refl) in E as [E R].
      apply (decimal_inj a 172) in E.
      destruct O as (x' & y' & Hx & Hy & O).
      assert (D : digits (String x (String y "")) = true) by (cbn; now rewrite Hx, Hy).
      symmetry in R.
      destruct (digits_dot (decimal b) (String x (String y "")) _ r (decimal_digits b) D R)
        as [B _].
      apply digit_val_inv in Hx as [-> Hx], Hy as [-> Hy].
      rewrite two_digits in B by lia. apply decimal_inj in B. subst b.
      left. left. right. lia.
    + apply (dotted_prefix a b c d "192" _ eq_refl) in E as [E R].
      apply (decimal_inj a 192) in E. symmetry in R.
      destruct (digits_dot (decimal b) "168" _ r (decimal_digits b) eq_refl R) as [B _].
      apply (decimal_inj b 168) in B. tauto.
  - intros [[[-> | [[-> L] U]] | [-> ->]] | ->].
    + left. now eexists.
    + right. right. left.
      exists (ascii_of_nat (48 + b / 10)), (ascii_of_nat (48 + b mod 10)),
             (decimal c ++ "." ++ decimal d)%string.
      assert (B : decimal b = String (ascii_of_nat (48 + b / 10))
                                (String (ascii_of_nat (48 + b mod 10)) "")).
      { assert (X : In b (seq 16 16)) by (apply in_seq; lia).
        cbn in X. repeat (destruct X as [<- | X]; [reflexivity|]). destruct X. }
      split.
      * unfold dotted. rewrite B. reflexivity.
      * exists (b / 10), (b mod 10).
        assert (X : In b (seq 16 16)) by (apply in_seq; lia).
        cbn in X.
        repeat (destruct X as [<- | X]; [repeat split; cbn; lia|]). destruct X.
    + right. right. right. now eexists.
    + right. left. now eexists.
Qed.

End IceFacts.

(** ** Reasoning about computations *)

(** Projections out of updated worlds and clients. *)
Ltac wsimpl :=
  cbn [client platform sessions edges tasks fresh trace
       with_client with_sessions with_edges with_tasks with_fresh with_trace
       config userAgent hasAudio audio video videoEnabled localVideo audioContext
       audioStreams mergeDestination audioElements videoSessions registerTries
       registered registering registerTimeout
       set_config set_userAgent set_audio set_video set_videoEnabled set_audioStreams
       set_mergeDestination set_audioElements set_videoSessions set_registerTries
       set_registered set_registering set_registerTimeout fst snd].

Tactic Notation "wsimpl" "in" hyp(H) :=
  cbn [client platform sessions edges tasks fresh trace
       with_client with_sessions with_edges with_tasks with_fresh with_trace
       config userAgent hasAudio audio video videoEnabled localVideo audioContext
       audioStreams mergeDestination audioElements videoSessions registerTries
       registered registering registerTimeout
       set_config set_userAgent set_audio set_video set_videoEnabled set_audioStreams
       set_mergeDestination set_audioElements set_videoSessions set_registerTries
       set_registered set_registering set_registerTimeout fst snd] in H.

(** Worlds are compared field by field: unfolding nested updates would
    copy the inner world once per field. *)
Lemma world_eq w w' :
  client w = client w' -> platform w = platform w' -> sessions w = sessions w' ->
  edges w = edges w' -> tasks w = tasks w' -> fresh w = fresh w' ->
  trace w = trace w' -> w = w'.
Proof. destruct w, w'. cbn. now intros -> -> -> -> -> -> ->. Qed.

Lemma bind_ok {A B} (m : M A) (f : A -> M B) w a w1 :
  m w = (Ok a, w1) -> bind m f w = f a w1.
Proof. unfold bind. now intros ->. Qed.

Section Frames.
Context (R : World -> World -> Prop) `{!Tolerant R}.

Let R_refl := tol_refl (R := R).
Let R_trans := tol_trans (R := R).
Let R_trace := tol_trace (R := R).
Let R_fresh := tol_fresh (R := R).

Lemma frames_ret {A} (a : A) : frames R (ret a).
Proof. intros w. apply R_refl. Qed.

Lemma frames_throw {A} e : frames R (@throw A e).
Proof. intros w. apply R_refl. Qed.

Lemma frames_bind {A B} (m : M A) (f : A -> M B) :
  frames R m -> (forall a, frames R (f a)) -> frames R (bind m f).
Proof.
  intros Hm Hf w. unfold bind. specialize (Hm w).
  destruct (m w) as [[a|e] w1]; simpl in *; [|exact Hm].
  eapply R_trans; [exact Hm | apply Hf].
Qed.

Lemma frames_try_catch {A} (m : M A) h :
  frames R m -> (forall e, frames R (h e)) -> frames R (try_catch m h).
Proof.
  intros Hm Hh w. unfold try_catch. specialize (Hm w).
  destruct (m w) as [[a|e] w1]; simpl in *; [exact Hm|].
  eapply R_trans; [exact Hm | apply Hh].
Qed.

Lemma frames_gets {A} (f : World -> A) : frames R (gets f).
Proof. intros w. apply R_refl. Qed.

Lemma frames_this {A} (f : Client -> A) : frames R (this f).
Proof. apply frames_gets. Qed.

Lemma frames_modify f : (forall w, R w (f w)) -> frames R (modify f).
Proof. intros H w. apply H. Qed.

Lemma frames_unwrap {A} (o : option A) : frames R (unwrap o).
Proof. destruct o; [apply frames_ret | apply frames_throw]. Qed.

Lemma frames_when b m : frames R m -> frames R (when b m).
Proof. destruct b; [trivial | intros _; apply frames_ret]. Qed.

Lemma frames_forEach {A} (l : list A) f :
  (forall x, frames R (f x)) -> frames R (forEach l f).
Proof.
  intros H. induction l as [|x l IH]; simpl; [apply frames_ret|].
  apply frames_bind; [apply H | intros _; exact IH].
Qed.

Lemma frames_mapi_from {A B} (l : list A) (f : A -> nat -> M B) :
  (forall x i, frames R (f x i)) -> forall i, frames R (mapi_from i l f).
Proof.
  intros H. induction l as [|x l IH]; intros i; simpl; [apply frames_ret|].
  apply frames_bind; [apply H | intros y].
  apply frames_bind; [apply IH | intros ys; apply frames_ret].
Qed.

Lemma frames_session_at s : frames R (session_at s).
Proof. apply frames_gets. Qed.

Lemma frames_deref s : frames R (deref s).
Proof.
  apply frames_bind; [apply frames_session_at | intros o; apply frames_unwrap].
Qed.

Lemma frames_sessionId s : frames R (sessionId s).
Proof.
  apply frames_bind; [apply frames_session_at | intros o; apply frames_ret].
Qed.

Lemma frames_call e : frames R (call e).
Proof.
  intros w. unfold call. destruct (raises (platform w) e); apply R_trace.
Qed.

Lemma frames_record e : frames R (record e).
Proof. intros w. apply R_trace. Qed.

Lemma frames_new_id : frames R new_id.
Proof. intros w. apply R_fresh. Qed.

Lemma frames_invoke cb b : frames R (invoke cb b).
Proof. destruct cb; [apply frames_record | apply frames_call]. Qed.

Lemma frames_checkMaxMergeSessions n : frames R (_checkMaxMergeSessions n).
Proof.
  unfold _checkMaxMergeSessions.
  destruct (Nat.ltb n MAX_MERGE_SESSIONS); [apply frames_ret | apply frames_record].
Qed.

Ltac frames_step :=
  first
    [ apply frames_ret | apply frames_throw | apply frames_gets | apply frames_this
    | apply frames_unwrap | apply frames_call | apply frames_record
    | apply frames_new_id | apply frames_deref | apply frames_sessionId
    | apply frames_session_at | apply frames_invoke
    | apply frames_checkMaxMergeSessions
    | apply frames_when
    | apply frames_forEach; intros ?
    | apply frames_mapi_from; intros ? ?
    | apply frames_try_catch; [|intros ?]
    | apply frames_bind; [|intros ?]
    | match goal with
      | |- frames _ (match ?x with _ => _ end) => destruct x
      | |- frames _ (if ?b then _ else _) => destruct b
      | |- frames _ (let _ := _ in _) => cbv zeta
      end ].

Ltac frames_auto := repeat frames_step.

Lemma frames_getRtcOptions b : frames R (_getRtcOptions b).
Proof. unfold _getRtcOptions, _hasAudio. frames_auto. Qed.

Lemma frames_getMediaConfiguration b : frames R (_getMediaConfiguration b).
Proof.
  unfold _getMediaConfiguration, _getAudioConstraints, _getVideoConstraints, _hasAudio.
  frames_auto.
Qed.

Lemma frames_toggle s k v :
  frames R (sess <- deref s ;;
            sdh <- unwrap (sessionDescriptionHandler sess) ;;
            pc <- unwrap (peerConnection sdh) ;;
            store s (with_pc (toggle_pc k v pc) sess)).
Proof.
  intros w. unfold deref, session_at, bind, gets, unwrap, store, modify, ret, throw.
  destruct (sessions w !! s) as [sess|] eqn:Hs; cbn; [|apply R_refl].
  destruct (sessionDescriptionHandler sess) as [sdh|] eqn:Hsdh; cbn; [|apply R_refl].
  destruct (peerConnection sdh) as [pc|] eqn:Hpc; cbn; [|apply R_refl].
  now apply (tol_toggle w s sess sdh pc).
Qed.

Lemma frames_toggleVideo s b : frames R (_toggleVideo s b).
Proof. apply frames_toggle. Qed.

Lemma frames_toggleAudio s b : frames R (_toggleAudio s b).
Proof.
  intros w. unfold _toggleAudio, deref, session_at, bind, gets, unwrap, store, modify,
    ret, throw.
  destruct (sessions w !! s) as [sess|] eqn:Hs; cbn; [|apply R_refl].
  destruct (sessionDescriptionHandler sess) as [sdh|] eqn:Hsdh; cbn; [|apply R_refl].
  destruct (peerConnection sdh) as [pc|] eqn:Hpc; cbn; [|apply R_refl].
  now apply (tol_toggle w s sess sdh pc).
Qed.

Lemma frames_hold s : frames R (hold s).
Proof.
  unfold hold, mute.
  apply frames_bind; [apply frames_toggleAudio | intros _].
  apply frames_bind; [apply frames_this | intros ve].
  apply frames_bind; [apply frames_getMediaConfiguration | intros c].
  apply frames_call.
Qed.

Lemma frames_unhold s : frames R (unhold s).
Proof.
  unfold unhold, unmute.
  apply frames_bind; [apply frames_toggleAudio | intros _].
  apply frames_bind; [apply frames_this | intros ve].
  apply frames_bind; [apply frames_getMediaConfiguration | intros c].
  apply frames_call.
Qed.

Lemma frames_getLocalStream pc : frames R (_getLocalStream pc).
Proof. unfold _getLocalStream. frames_auto. Qed.

Lemma frames_getRemoteStream pc : frames R (_getRemoteStream pc).
Proof. unfold _getRemoteStream. frames_auto. Qed.

Lemma frames_connect a b : frames R (connect a b).
Proof.
  unfold connect. apply frames_bind; [apply frames_call | intros _].
  apply frames_modify. intros w. apply tol_edges.
Qed.

Lemma frames_disconnect a b : frames R (disconnect a b).
Proof.
  unfold disconnect. apply frames_bind; [apply frames_call | intros _].
  apply frames_modify. intros w. apply tol_edges.
Qed.

Lemma frames_addAudioStream st : frames R (_addAudioStream st).
Proof.
  unfold _addAudioStream.
  apply frames_bind; [apply frames_this | intros [ctx|]]; [|apply frames_ret].
  destruct st as [st|]; [|apply frames_ret].
  apply frames_bind; [apply frames_new_id | intros n].
  apply frames_bind; [apply frames_call | intros _].
  apply frames_bind; [apply frames_this | intros d].
  apply frames_bind; [|intros _; apply frames_ret].
  destruct d; [apply frames_connect | apply frames_ret].
Qed.

Lemma frames_spawn t : is_retry t = false -> frames R (spawn t).
Proof.
  intros Ht w. unfold spawn, bind, new_id, modify, ret. cbn.
  now apply (tol_spawn w t).
Qed.

Lemma frames_bindStreams s st : frames R (bindStreams s st).
Proof.
  unfold bindStreams.
  apply frames_bind; [apply frames_deref | intros sess].
  apply frames_bind; [apply frames_unwrap | intros sdh].
  apply frames_bind; [apply frames_getLocalStream | intros l].
  apply frames_bind; [apply frames_addAudioStream | intros la].
  apply frames_bind; [apply frames_addAudioStream | intros ra].
  apply frames_bind; [apply frames_when, frames_call | intros _].
  apply frames_bind; [apply frames_call | intros _].
  apply frames_bind; [apply frames_this | intros d].
  apply frames_bind; [destruct d; [apply frames_call | apply frames_ret] | intros _].
  apply frames_bind; [apply frames_getRtcOptions | intros o].
  apply frames_bind; [apply frames_call | intros _].
  now apply frames_spawn.
Qed.

Lemma frames_addToMerge s : frames R (addToMerge s).
Proof.
  unfold addToMerge, _isWeb.
  apply frames_bind; [apply frames_this | intros n].
  apply frames_bind; [apply frames_checkMaxMergeSessions | intros _].
  apply frames_bind; [apply frames_gets | intros web].
  apply frames_bind; [apply frames_gets | intros ff].
  cbv zeta.
  apply frames_bind; [apply frames_deref | intros sess].
  apply frames_bind; [apply frames_unwrap | intros sdh].
  destruct (localHold sess && negb (web && ff)).
  - apply frames_bind; [apply frames_unhold | intros _].
    apply frames_bind; [apply frames_call | intros _].
    now apply frames_spawn.
  - apply frames_bind; [apply frames_getRemoteStream | intros r].
    apply frames_bindStreams.
Qed.

Lemma frames_assign_mergeDestination v : frames R (assign (set_mergeDestination v)).
Proof. apply frames_modify. intros w. apply tol_mergeDestination. Qed.

Lemma frames_merge ss : frames R (merge ss).
Proof.
  unfold merge.
  apply frames_bind; [apply frames_checkMaxMergeSessions | intros _].
  apply frames_bind; [apply frames_this | intros ctx].
  apply frames_bind.
  { destruct ctx; [|apply frames_ret].
    apply frames_bind; [apply frames_new_id | intros d].
    apply frames_bind; [apply frames_call | intros _].
    apply frames_assign_mergeDestination. }
  intros _. apply frames_bind.
  { destruct ctx; [apply frames_when, frames_call | apply frames_ret]. }
  intros _. apply frames_mapi_from. intros s _. apply frames_addToMerge.
Qed.

Lemma frames_rebuild_destination s pc l r : frames R (rebuild_destination s pc l r).
Proof.
  unfold rebuild_destination.
  apply frames_bind; [apply frames_new_id | intros nd].
  apply frames_bind; [apply frames_call | intros _].
  apply frames_bind; [apply frames_connect | intros _].
  apply frames_bind; [destruct r; [apply frames_connect | apply frames_ret] | intros _].
  apply frames_bind; [apply frames_unwrap | intros pc'].
  destruct (pc_closed pc'); [apply frames_ret|].
  apply frames_bind; [apply frames_this | intros d].
  apply frames_bind; [destruct d; [apply frames_call | apply frames_ret] | intros _].
  apply frames_bind; [apply frames_call | intros _; apply frames_ret].
Qed.

Lemma frames_removeFromMerge s b : frames R (removeFromMerge s b).
Proof.
  unfold removeFromMerge.
  apply frames_bind; [apply frames_deref | intros sess].
  apply frames_bind; [apply frames_unwrap | intros sdh]. cbv zeta.
  apply frames_bind; [apply frames_sessionId | intros key].
  apply frames_bind; [apply frames_this | intros oe].
  apply frames_bind; [apply frames_unwrap | intros e].
  apply frames_bind; [apply frames_this | intros d].
  apply frames_bind.
  { destruct (remoteAudioSource e); [apply frames_disconnect | apply frames_ret]. }
  intros _.
  apply frames_bind; [apply frames_unwrap | intros l].
  apply frames_bind; [apply frames_disconnect | intros _].
  apply frames_bind; [apply frames_this | intros ctx].
  apply frames_bind.
  { destruct ctx; [apply frames_rebuild_destination | apply frames_ret]. }
  intros go_on. destruct (negb go_on); [apply frames_ret|].
  apply frames_bind; [apply frames_sessionId | intros key'].
  apply frames_bind.
  { apply frames_modify. intros w. apply (tol_audioStreams w). }
  intros _.
  apply frames_bind; [apply frames_unwrap | intros pc].
  apply frames_bind; [apply frames_getRtcOptions | intros o].
  apply frames_bind; [apply frames_call | intros _].
  apply frames_bind; [now apply frames_spawn | intros p; apply frames_ret].
Qed.

Lemma frames_unmerge ss : frames R (unmerge ss).
Proof.
  unfold unmerge. cbv zeta.
  apply frames_bind; [|intros ps; now apply frames_spawn].
  apply frames_mapi_from. intros s i. apply frames_removeFromMerge.
Qed.

Lemma frames_cleanAudio key : frames R (cleanAudio key).
Proof.
  unfold cleanAudio.
  apply frames_bind; [apply frames_this | intros oe].
  apply frames_bind; [apply frames_unwrap | intros e].
  apply frames_bind; [apply frames_call | intros _].
  apply frames_bind; [apply frames_when, frames_call | intros _].
  apply frames_modify. intros w. apply (tol_audioElements w).
Qed.

Lemma frames_cleanupMedia s : frames R (_cleanupMedia s).
Proof.
  unfold _cleanupMedia, _hasAudio, _isWeb.
  apply frames_bind.
  { destruct s; [apply frames_session_at | apply frames_ret]. }
  intros sess. cbv zeta.
  apply frames_bind; [apply frames_this | intros vs].
  apply frames_bind.
  { apply frames_when, frames_modify. intros w. apply (tol_videoSessions w). }
  intros _.
  apply frames_bind; [apply frames_this | intros ha].
  apply frames_bind; [apply frames_gets | intros web].
  apply frames_when. destruct (is_some sess); [apply frames_cleanAudio|].
  apply frames_bind; [apply frames_this | intros keys].
  apply frames_forEach. intros k. apply frames_cleanAudio.
Qed.

Lemma frames_hangup_cancel s b : frames R (hangup_cancel s b).
Proof. unfold hangup_cancel. frames_auto. Qed.

Lemma frames_hangup_reject s : frames R (hangup_reject s).
Proof. unfold hangup_reject. frames_auto. Qed.

Lemma frames_hangup s : frames R (hangup s).
Proof.
  unfold hangup, hangup_body.
  apply frames_try_catch; [|intros e; frames_auto].
  apply frames_bind; [apply frames_cleanupMedia | intros _].
  apply frames_bind; [apply frames_sessionId | intros key].
  apply frames_bind; [apply frames_this | intros merged].
  apply frames_bind.
  { destruct merged; [|apply frames_ret].
    apply frames_bind; [apply frames_removeFromMerge | intros _; apply frames_ret]. }
  intros _.
  apply frames_bind; [apply frames_cleanupMedia | intros _].
  apply frames_bind; [apply frames_deref | intros sess]. cbv zeta.
  assert (Hcancel : forall b, frames R (hangup_cancel s b ;; ret (@None Effect))).
  { intros b. apply frames_bind; [apply frames_hangup_cancel | intros _; apply frames_ret]. }
  destruct (actions (status sess)); [apply Hcancel|].
  destruct (cancel_defined sess).
  - destruct (hasAnswer sess && bye_defined sess); [frames_auto|].
    destruct (negb (hasAnswer sess)); [apply Hcancel|].
    apply frames_bind; [apply frames_when, frames_call | intros _].
    apply frames_hangup_reject.
  - apply frames_bind; [apply frames_when, frames_call | intros _].
    apply frames_hangup_reject.
Qed.

Lemma frames_onInvite s : frames R (onInvite s).
Proof.
  unfold onInvite, _setupSession, _fixLocalDescription, sessionWantsToDoVideo.
  frames_auto.
Qed.

(** The continuations of the media methods. *)
Lemma frames_run_task i t payload :
  is_retry t = false -> frames R (run_task i t payload).
Proof.
  intros Ht. destruct t; try discriminate; simpl.
  - apply frames_bind; [apply frames_sessionId | intros key].
    apply frames_bind; [|intros _; apply frames_call].
    apply frames_modify. intros w. apply (tol_audioStreams w).
  - apply frames_bind; [apply frames_bindStreams | intros _; apply frames_ret].
  - apply frames_bind; [apply frames_call | intros _].
    apply frames_bind; [apply frames_when, frames_hold | intros _].
    apply frames_bind; [now apply frames_spawn | intros _; apply frames_ret].
  - apply frames_ret.
  - apply frames_assign_mergeDestination.
Qed.

End Frames.

Ltac frames_step :=
  match goal with
  | |- @frames ?R _ _ =>
    first
      [ apply (frames_ret R) | apply (frames_throw R) | apply (frames_gets R)
      | apply (frames_this R) | apply (frames_unwrap R) | apply (frames_call R)
      | apply (frames_record R) | apply (frames_new_id R) | apply (frames_deref R)
      | apply (frames_sessionId R) | apply (frames_session_at R)
      | apply (frames_invoke R) | apply (frames_checkMaxMergeSessions R)
      | apply (frames_getRtcOptions R) | apply (frames_getMediaConfiguration R)
      | apply (frames_when R)
      | apply (frames_forEach R); intros ?
      | apply (frames_mapi_from R); intros ? ?
      | apply (frames_try_catch R); [|intros ?]
      | apply (frames_bind R); [|intros ?]
      | match goal with
        | |- frames _ (match ?x with _ => _ end) => destruct x
        | |- frames _ (if ?b then _ else _) => destruct b
        | |- frames _ (let _ := _ in _) => cbv zeta
        end ]
  end.

Ltac frames_auto := repeat frames_step.

(** ** Camera toggles *)

Lemma deref_ok w s sess :
  sessions w !! s = Some sess -> deref s w = (Ok sess, w).
Proof. intros H. unfold deref, session_at, bind, gets. now rewrite H. Qed.

Lemma set_enabled_kind k v t : kind (set_enabled k v t) = kind t.
Proof. unfold set_enabled. now destruct (kind_eqb (kind t) k). Qed.

Lemma set_enabled_same k v t : kind t = k -> enabled (set_enabled k v t) = v.
Proof.
  intros <-. unfold set_enabled. now destruct (kind t).
Qed.

Lemma set_enabled_other k v t : kind t <> k -> set_enabled k v t = t.
Proof.
  intros H. unfold set_enabled. destruct (kind t), k; simpl; congruence.
Qed.

Lemma outgoing_tracks_toggle k v pc :
  outgoing_tracks (toggle_pc k v pc) = set_enabled k v <$> outgoing_tracks pc.
Proof.
  unfold outgoing_tracks, toggle_pc.
  destruct (senders pc) as [ss|]; simpl.
  - induction ss as [|[[t|]] ss IH]; cbn in *; [reflexivity| |]; now rewrite IH.
  - induction (localStreams pc) as [|st l IH]; cbn in *; [reflexivity|].
    rewrite fmap_app. now rewrite IH.
Qed.

Lemma _toggleVideo_spec w s sess sdh pc muteCamera :
  sessions w !! s = Some sess ->
  sessionDescriptionHandler sess = Some sdh ->
  peerConnection sdh = Some pc ->
  _toggleVideo s muteCamera w =
    (Ok tt, with_sessions
              (fun m => <[s := with_pc (toggle_pc VideoTrack (negb muteCamera) pc) sess]> m) w).
Proof.
  intros Hs Hsdh Hpc. unfold _toggleVideo.
  rewrite (bind_ok _ _ _ _ _ (deref_ok _ _ _ Hs)).
  rewrite Hsdh. cbn. rewrite Hpc. reflexivity.
Qed.

Lemma session_tracks_toggled w s sess pc' :
  session_tracks (with_sessions (fun m => <[s := with_pc pc' sess]> m) w) s
  = outgoing_tracks pc'.
Proof.
  unfold session_tracks, session_pc. cbn. now rewrite lookup_insert_eq.
Qed.

Lemma session_tracks_pc w s sess sdh pc :
  sessions w !! s = Some sess ->
  sessionDescriptionHandler sess = Some sdh ->
  peerConnection sdh = Some pc ->
  session_tracks w s = outgoing_tracks pc.
Proof.
  intros Hs Hsdh Hpc. unfold session_tracks, session_pc.
  rewrite Hs. cbn. rewrite Hsdh. cbn. now rewrite Hpc.
Qed.

Lemma toggled_video_tracks v l :
  Forall (fun t => kind t = VideoTrack -> enabled t = v) (set_enabled VideoTrack v <$> l).
Proof.
  induction l as [|t l IH]; csimpl; constructor; [|exact IH].
  rewrite set_enabled_kind. intros K. now apply set_enabled_same.
Qed.

Lemma toggled_kinds k v (l : list Track) :
  kind <$> (set_enabled k v <$> l) = kind <$> l.
Proof.
  induction l as [|t l IH]; csimpl; [reflexivity|].
  now rewrite set_enabled_kind, IH.
Qed.

(** The audio tracks are left as they were. *)
Lemma toggled_audio_tracks v (l : list Track) :
  audio_tracks (set_enabled VideoTrack v <$> l) = audio_tracks l.
Proof.
  unfold audio_tracks. induction l as [|t l IH]; csimpl; [reflexivity|].
  rewrite set_enabled_kind, IH.
  destruct (kind t) eqn:K; simpl; [|reflexivity].
  rewrite set_enabled_other; [reflexivity | congruence].
Qed.

(** C1, as the code has it: [toggleCameraOn] enables the outgoing video
    tracks of a session that has a peer connection and [toggleCameraOff]
    disables them; no track is added or dropped, the audio tracks keep
    their state, and neither method calls out (no renegotiation) or
    leaves anything pending. *)
Theorem toggleCamera_on_enables_off_disables w s sess sdh pc :
  sessions w !! s = Some sess ->
  sessionDescriptionHandler sess = Some sdh ->
  peerConnection sdh = Some pc ->
  (let r := toggleCameraOn s w in
   fst r = Ok tt /\
   video_tracks_enabled true (snd r) s /\
   kind <$> session_tracks (snd r) s = kind <$> session_tracks w s /\
   audio_tracks (session_tracks (snd r) s) = audio_tracks (session_tracks w s) /\
   trace (snd r) = trace w /\ tasks (snd r) = tasks w) /\
  (let r := toggleCameraOff s w in
   fst r = Ok tt /\
   video_tracks_enabled false (snd r) s /\
   kind <$> session_tracks (snd r) s = kind <$> session_tracks w s /\
   audio_tracks (session_tracks (snd r) s) = audio_tracks (session_tracks w s) /\
   trace (snd r) = trace w /\ tasks (snd r) = tasks w).
Proof.
  intros Hs Hsdh Hpc. unfold toggleCameraOn, toggleCameraOff, video_tracks_enabled.
  rewrite !(_toggleVideo_spec w s sess sdh pc _ Hs Hsdh Hpc).
  cbn [fst snd negb]. rewrite !session_tracks_toggled, !outgoing_tracks_toggle.
  rewrite (session_tracks_pc w s sess sdh pc Hs Hsdh Hpc), !toggled_kinds.
  rewrite !toggled_audio_tracks.
  repeat split; apply toggled_video_tracks.
Qed.

Lemma toggleCamera_on_enables_off_disables_witness :
  (let r := toggleCameraOn 0 camera_world in
   fst r = Ok tt /\
   video_tracks_enabled true (snd r) 0 /\
   kind <$> session_tracks (snd r) 0 = kind <$> session_tracks camera_world 0 /\
   audio_tracks (session_tracks (snd r) 0) = audio_tracks (session_tracks camera_world 0) /\
   trace (snd r) = trace camera_world /\ tasks (snd r) = tasks camera_world) /\
  (let r := toggleCameraOff 0 camera_world in
   fst r = Ok tt /\
   video_tracks_enabled false (snd r) 0 /\
   kind <$> session_tracks (snd r) 0 = kind <$> session_tracks camera_world 0 /\
   audio_tracks (session_tracks (snd r) 0) = audio_tracks (session_tracks camera_world 0) /\
   trace (snd r) = trace camera_world /\ tasks (snd r) = tasks camera_world).
Proof.
  apply (toggleCamera_on_enables_off_disables camera_world 0 camera_session
           (mkSdh (Some (open_pc [mkSender (Some (mkTrack AudioTrack true));
                                  mkSender (Some (mkTrack VideoTrack false))])))
           (open_pc [mkSender (Some (mkTrack AudioTrack true));
                     mkSender (Some (mkTrack VideoTrack false))]));
    reflexivity.
Defined.

(** C1 as the specification words it fails: after [toggleCameraOn] on a
    call whose camera was off, the video track is enabled, not disabled. *)
Lemma toggleCameraOn_does_not_disable :
  session_tracks (snd (toggleCameraOn 0 camera_world)) 0
    = [mkTrack AudioTrack true; mkTrack VideoTrack true] /\
  ~ video_tracks_enabled false (snd (toggleCameraOn 0 camera_world)) 0.
Proof.
  assert (E : session_tracks (snd (toggleCameraOn 0 camera_world)) 0
              = [mkTrack AudioTrack true; mkTrack VideoTrack true]) by reflexivity.
  split; [exact E|].
  unfold video_tracks_enabled. rewrite E. intros H.
  apply Forall_cons in H as [_ H]. apply Forall_cons in H as [H _].
  specialize (H eq_refl). discriminate.
Qed.

(** ** Incoming invites *)

Lemma call_ok w e :
  raises (platform w) e = false ->
  call e w = (Ok tt, with_trace (fun t => t ++ [e]) w).
Proof. intros H. unfold call. now rewrite H. Qed.

(** Symbolic execution of a computation on a world. *)
Ltac mcbn :=
  cbn -[lookup insert delete size map_to_list Nat.leb Nat.ltb Nat.mul Nat.add
        contains getSipSessionId Ice.getIceServers decimal String.append].

Ltac munfold :=
  unfold bind, ret, gets, modify, this, assign, throw, try_catch, call, record,
    new_id, spawn, deref, session_at, store, clearTimeout, sessionId, when, unwrap,
    _isWeb, _hasAudio, _hasVideo,
    with_trace, with_tasks, with_fresh, with_edges, with_sessions, with_client in *.

Ltac mrewrite :=
  repeat match goal with
    | H : calm _ |- _ => progress rewrite !H
    | H : ?l = _ |- context [?l] => progress rewrite !H
    end.

Ltac mrun := repeat (progress (munfold; mcbn; mrewrite)).

Lemma truthy_header_iff v :
  truthy_header v = true <-> exists x, v = Some x /\ x <> "".
Proof.
  unfold truthy_header, truthy. destruct v as [x|].
  - rewrite negb_true_iff. split.
    + intros H. exists x. split; [reflexivity|]. now apply String.eqb_neq.
    + intros (y & [= <-] & H). now apply String.eqb_neq.
  - split; [discriminate | intros (x & H & _); discriminate].
Qed.

(** C10, as the code has it: the listener emits 'invite' once, and the
    flag it passes last is true exactly when [getHeader('alert-info')]
    yields a non-empty value. *)
Theorem onInvite_shouldAutoAnswer w s sess req :
  sessions w !! s = Some sess ->
  request sess = Some req ->
  calm w ->
  exists hasVideo shouldAutoAnswer,
    onInvite s w =
      (Ok tt, with_trace (fun t => t ++ [SessionOn s "accepted"; SessionOn s "terminated";
                                         SessionOn s "SessionDescriptionHandler-created";
                                         SessionOn s "SessionDescriptionHandler-created";
                                         EmitInvite s hasVideo shouldAutoAnswer]) w) /\
    (shouldAutoAnswer = true <->
     exists v, getHeader req "alert-info" = Some v /\ v <> "").
Proof.
  intros Hs Hreq Hq.
  exists (contains (String "013" (String "010" "m=video ")) (body req)),
         (truthy_header (getHeader req "alert-info")).
  split; [|apply truthy_header_iff].
  unfold onInvite, _setupSession, _fixLocalDescription, sessionWantsToDoVideo.
  mrun. rewrite <- !app_assoc. reflexivity.
Qed.

Lemma onInvite_shouldAutoAnswer_witness :
  exists hasVideo shouldAutoAnswer,
    onInvite 0 auto_answer_world =
      (Ok tt, with_trace (fun t => t ++ [SessionOn 0 "accepted"; SessionOn 0 "terminated";
                                         SessionOn 0 "SessionDescriptionHandler-created";
                                         SessionOn 0 "SessionDescriptionHandler-created";
                                         EmitInvite 0 hasVideo shouldAutoAnswer])
                 auto_answer_world) /\
    (shouldAutoAnswer = true <->
     exists v, getHeader (mkRequest "call-3" "v=0" [("alert-info", "info=alert-autoanswer")])
                 "alert-info" = Some v /\ v <> "").
Proof.
  apply (onInvite_shouldAutoAnswer auto_answer_world 0 auto_answer_session
           (mkRequest "call-3" "v=0" [("alert-info", "info=alert-autoanswer")]));
    [reflexivity | reflexivity | intros e; reflexivity].
Defined.

(** C10 as worded fails: an invite whose Alert-Info header is there but
    empty is announced with [shouldAutoAnswer = false]. *)
Lemma invite_with_empty_alert_info :
  carries_header (mkRequest "call-2" "v=0" [("alert-info", "")]) "alert-info" /\
  trace (snd (onInvite 0 empty_alert_world))
  = [SessionOn 0 "accepted"; SessionOn 0 "terminated";
     SessionOn 0 "SessionDescriptionHandler-created";
     SessionOn 0 "SessionDescriptionHandler-created";
     EmitInvite 0 false false] /\
  ~ (forall hasVideo shouldAutoAnswer,
       In (EmitInvite 0 hasVideo shouldAutoAnswer) (trace (snd (onInvite 0 empty_alert_world))) ->
       (shouldAutoAnswer = true <->
        carries_header (mkRequest "call-2" "v=0" [("alert-info", "")]) "alert-info")).
Proof.
  assert (C : carries_header (mkRequest "call-2" "v=0" [("alert-info", "")]) "alert-info").
  { exists "". simpl. now left. }
  assert (T : trace (snd (onInvite 0 empty_alert_world))
              = [SessionOn 0 "accepted"; SessionOn 0 "terminated";
                 SessionOn 0 "SessionDescriptionHandler-created";
                 SessionOn 0 "SessionDescriptionHandler-created";
                 EmitInvite 0 false false]) by reflexivity.
  split; [exact C | split; [exact T|]].
  intros H. specialize (H false false). rewrite T in H.
  assert (I : In (EmitInvite 0 false false)
                [SessionOn 0 "accepted"; SessionOn 0 "terminated";
                 SessionOn 0 "SessionDescriptionHandler-created";
                 SessionOn 0 "SessionDescriptionHandler-created";
                 EmitInvite 0 false false]) by (simpl; tauto).
  apply H in I. apply I in C. discriminate.
Qed.

(** ** The merge limit *)

Lemma _checkMaxMergeSessions_spec n w :
  _checkMaxMergeSessions n w =
    (Ok tt, if Nat.ltb n MAX_MERGE_SESSIONS then w
            else with_trace (fun t => t ++ [ConsoleWarn merge_warning]) w).
Proof.
  unfold _checkMaxMergeSessions. now destruct (Nat.ltb n MAX_MERGE_SESSIONS).
Qed.

(** Below the limit nothing is logged. *)
Lemma _checkMaxMergeSessions_below n w :
  n < MAX_MERGE_SESSIONS -> _checkMaxMergeSessions n w = (Ok tt, w).
Proof.
  intros H. rewrite _checkMaxMergeSessions_spec.
  apply Nat.ltb_lt in H. now rewrite H.
Qed.

(** From the limit on the warning is logged, and the method returns. *)
Lemma _checkMaxMergeSessions_from_max n w :
  MAX_MERGE_SESSIONS <= n ->
  _checkMaxMergeSessions n w =
    (Ok tt, with_trace (fun t => t ++ [ConsoleWarn merge_warning]) w).
Proof.
  intros H. rewrite _checkMaxMergeSessions_spec.
  apply Nat.ltb_ge in H. now rewrite H.
Qed.

#[local] Instance trace_grows_tolerant : Tolerant trace_grows.
Proof.
  split; unfold trace_grows; try (intros; exists []; cbn; now rewrite app_nil_r).
  - intros w1 w2 w3 [r1 H1] [r2 H2]. exists (r1 ++ r2). now rewrite H2, H1, app_assoc.
  - intros e w. now exists [e].
Qed.

(** C9 at the input where code and claim part: merging exactly
    [MAX_MERGE_SESSIONS] sessions, which does not exceed the maximum,
    logs the warning first of all. *)
Theorem merge_at_the_maximum_warns w ss :
  length ss = MAX_MERGE_SESSIONS ->
  exists rest, trace (snd (merge ss w)) = trace w ++ ConsoleWarn merge_warning :: rest.
Proof.
  intros L. unfold merge. unfold bind at 1.
  rewrite _checkMaxMergeSessions_from_max by (rewrite L; apply Nat.le_refl).
  match goal with |- context [snd (?m ?w0)] =>
    assert (G : frames trace_grows m); [|destruct (G w0) as [rest E]] end.
  { apply (frames_bind trace_grows); [frames_auto | intros ctx].
    apply (frames_bind trace_grows).
    { destruct ctx; [|frames_auto].
      apply (frames_bind trace_grows); [frames_auto | intros d].
      apply (frames_bind trace_grows); [frames_auto | intros _].
      apply (frames_assign_mergeDestination trace_grows). }
    intros _. apply (frames_bind trace_grows); [frames_auto|].
    intros _. apply (frames_mapi_from trace_grows). intros s _.
    apply (frames_addToMerge trace_grows). }
  exists rest. rewrite E. cbn. now rewrite <- app_assoc.
Qed.

Lemma merge_at_the_maximum_warns_witness :
  exists rest,
    trace (snd (merge four_sessions four_calls_world))
    = trace four_calls_world ++ ConsoleWarn merge_warning :: rest.
Proof.
  apply (merge_at_the_maximum_warns four_calls_world four_sessions).
  reflexivity.
Defined.

(** ** Hanging up *)

(** [hangup] cannot raise: whatever goes wrong inside is caught. *)
Lemma hangup_never_raises s w : exists r, fst (hangup s w) = Ok r.
Proof.
  unfold hangup, try_catch.
  destruct (hangup_body s w) as [[r|e] w1]; [now exists r|].
  exists None. reflexivity.
Qed.

(** C2 at an input where code and claim part: on a platform without
    DOM, hanging up an outgoing call that is already terminated calls
    [session.bye()], and hanging up an incoming call that is already
    canceled calls [session.reject()]. *)
Theorem hangup_of_ended_session_still_terminates :
  status terminated_session = STATUS_TERMINATED /\
  hangup 0 terminated_world
    = (Ok (Some (SessionBye 0)), with_trace (fun _ => [SessionBye 0]) terminated_world) /\
  status canceled_session = STATUS_CANCELED /\
  hangup 0 canceled_world
    = (Ok (Some (SessionReject 0)), with_trace (fun _ => [SessionReject 0]) canceled_world).
Proof. repeat split. Qed.

(** ** The registration retry loop *)

Lemma calm_platform w w' : platform w' = platform w -> calm w -> calm w'.
Proof. unfold calm. now intros ->. Qed.

Lemma forEach_call_ok {A} (f : A -> Effect) l : forall w,
  calm w ->
  forEach l (fun x => call (f x)) w = (Ok tt, with_trace (fun t => t ++ (f <$> l)) w).
Proof.
  induction l as [|x l IH]; intros w Hq; cbn [forEach].
  - unfold ret, with_trace. rewrite app_nil_r. now destruct w.
  - erewrite bind_ok by (apply call_ok, Hq).
    rewrite IH by exact Hq. unfold with_trace. cbn.
    now rewrite <- app_assoc.
Qed.

Lemma _getVideoConstraints_ok w :
  _getVideoConstraints w =
    (Ok (if negb (videoEnabled (client w)) then MBool false
         else device_or_true (video (client w))), w).
Proof.
  unfold _getVideoConstraints. erewrite bind_ok by reflexivity.
  now destruct (negb (videoEnabled (client w))).
Qed.


Lemma _createWebRTCConfiguration_ok w cfg :
  config (client w) = Some cfg ->
  exists c, _createWebRTCConfiguration w = (Ok c, w) /\
            ua_iceServers c = Ice.getIceServers (host cfg).
Proof.
  intros Hc. unfold _createWebRTCConfiguration.
  erewrite bind_ok by reflexivity. rewrite Hc. cbn [unwrap].
  erewrite bind_ok by reflexivity.
  erewrite bind_ok by reflexivity.
  erewrite bind_ok by apply _getVideoConstraints_ok.
  eexists. split; reflexivity.
Qed.

Lemma callbacks_app t1 t2 : callbacks (t1 ++ t2) = callbacks t1 ++ callbacks t2.
Proof. unfold callbacks. apply omap_app. Qed.

Lemma callbacks_fmap_none {A} (f : A -> Effect) l :
  (forall x, callbacks [f x] = []) -> callbacks (f <$> l) = [].
Proof.
  intros H. induction l as [|x l IH]; [reflexivity|].
  change (f <$> x :: l) with ([f x] ++ (f <$> l)).
  now rewrite callbacks_app, H, IH.
Qed.

Lemma createUserAgent_ok w cfg :
  config (client w) = Some cfg ->
  calm w ->
  exists ua tr,
    createUserAgent w =
      (Ok ua, mkWorld (client w) (platform w) (sessions w) (edges w) (tasks w)
                (S (fresh w)) (trace w ++ tr)) /\
    uaId ua = fresh w /\ uaIsRegistered ua = false /\ callbacks tr = [] /\
    In (NewUA (uaId ua) (uaConfiguration ua)) tr /\
    ua_iceServers (uaConfiguration ua) = Ice.getIceServers (host cfg).
Proof.
  intros Hc Hq.
  destruct (_createWebRTCConfiguration_ok w cfg Hc) as (c & Ec & Hice).
  unfold createUserAgent, _bindRegistrationEvents.
  generalize (List.filter (fun e => negb (String.eqb e "invite") && negb (String.eqb e "new"))
                events), transportEvents.
  intros evs tevs.
  erewrite bind_ok by exact Ec.
  erewrite bind_ok by reflexivity.
  erewrite bind_ok by (apply call_ok, Hq).
  erewrite bind_ok by (apply forEach_call_ok, Hq).
  erewrite bind_ok by (apply call_ok, Hq).
  erewrite bind_ok by (apply forEach_call_ok, Hq).
  erewrite (bind_ok (bind _ _)).
  2:{ erewrite bind_ok by (apply call_ok, Hq).
      erewrite bind_ok by (apply call_ok, Hq).
      apply call_ok, Hq. }
  exists (mkUA (fresh w) c false),
    ([NewUA (fresh w) c] ++ (UaOn (fresh w) <$> evs) ++ [UaOn (fresh w) "invite"]
     ++ (UaTransportOn (fresh w) <$> tevs)
     ++ [UaOn (fresh w) "registered"; UaTransportOn (fresh w) "disconnected";
         UaOn (fresh w) "unregistered"]).
  split; [|split; [reflexivity|]; split; [reflexivity|]; split; [|split]].
  - unfold ret. f_equal. apply world_eq; wsimpl; try reflexivity.
    now rewrite <- !app_assoc.
  - rewrite !callbacks_app, !callbacks_fmap_none by reflexivity. reflexivity.
  - now left.
  - exact Hice.
Qed.

(** C8, as the code has it. Agent construction, for a client that has
    a configuration and on a platform where no call raises, makes the
    user agent with a configuration whose ICE server list is decided by
    the text of the configured host alone: the list is empty exactly
    when that text begins with "10.", with "127.", with "172." and two
    digits that read 16 to 31 and a dot, or with "192.168.", and it is
    the two public STUN servers exactly when it does not.  For a host
    given as an IPv4 address [a.b.c.d] in dotted decimal notation the
    list is so empty exactly when the address is on one of the private
    networks 10/8, 172.16/12 and 192.168/16 or on the loopback network
    127/8, and the STUN servers for every other address. *)
Theorem createUserAgent_iceServers w cfg :
  config (client w) = Some cfg ->
  calm w ->
  exists ua w',
    createUserAgent w = (Ok ua, w') /\
    In (NewUA (uaId ua) (uaConfiguration ua)) (trace w') /\
    (ua_iceServers (uaConfiguration ua) = Ice.stun_servers <->
       ~ Ice.private_host (host cfg)) /\
    (ua_iceServers (uaConfiguration ua) = [] <-> Ice.private_host (host cfg)) /\
    forall a b c d, host cfg = Ice.dotted a b c d ->
      (ua_iceServers (uaConfiguration ua) = [] <-> Ice.private_address a b = true) /\
      (ua_iceServers (uaConfiguration ua) = Ice.stun_servers <->
         Ice.private_address a b = false).
Proof.
  intros Hc Hq.
  destruct (createUserAgent_ok w cfg Hc Hq) as (ua & tr & E & _ & _ & _ & Hin & Hice).
  eexists ua, _. split; [exact E|]. split.
  - wsimpl. apply in_or_app. now right.
  - rewrite Hice.
    destruct (IceFacts.getIceServers_cases (host cfg)) as [Hs He].
    split; [exact Hs|]. split; [exact He|].
    intros a b c d Hh. rewrite Hs, He, Hh, IceFacts.private_host_dotted.
    split; [reflexivity|]. now rewrite not_true_iff_false.
Qed.

Lemma createUserAgent_iceServers_witness :
  exists ua w',
    createUserAgent (world_for "192.168.1.20") = (Ok ua, w') /\
    In (NewUA (uaId ua) (uaConfiguration ua)) (trace w') /\
    (ua_iceServers (uaConfiguration ua) = Ice.stun_servers <->
       ~ Ice.private_host "192.168.1.20") /\
    (ua_iceServers (uaConfiguration ua) = [] <-> Ice.private_host "192.168.1.20") /\
    forall a b c d, "192.168.1.20" = Ice.dotted a b c d ->
      (ua_iceServers (uaConfiguration ua) = [] <-> Ice.private_address a b = true) /\
      (ua_iceServers (uaConfiguration ua) = Ice.stun_servers <->
         Ice.private_address a b = false).
Proof.
  apply (createUserAgent_iceServers (world_for "192.168.1.20") (config_for "192.168.1.20")).
  - reflexivity.
  - intros e. reflexivity.
Defined.

(** C8 fails as stated. The test is made on the text of the host and
    knows four prefixes only.  The hosts "localhost" and "::1", which
    are the machine itself, and the link-local address 169.254.10.7 get
    the public STUN servers, though each is a host of an internal
    network; and the public name "10.example.com" gets no ICE server. *)
Lemma createUserAgent_iceServers_for_internal_hosts :
  (forall h, In h ["localhost"; "::1"; Ice.dotted 169 254 10 7] ->
     exists ua w',
       createUserAgent (world_for h) = (Ok ua, w') /\
       ua_iceServers (uaConfiguration ua) = Ice.stun_servers /\
       ua_iceServers (uaConfiguration ua) <> []) /\
  Ice.internal_address 169 254 = true /\
  Ice.dotted 169 254 10 7 = "169.254.10.7" /\
  exists ua w',
    createUserAgent (world_for "10.example.com") = (Ok ua, w') /\
    ua_iceServers (uaConfiguration ua) = [] /\
    forall a b c d, "10.example.com" <> Ice.dotted a b c d.
Proof.
  assert (Hua : forall h, exists ua w',
            createUserAgent (world_for h) = (Ok ua, w') /\
            ua_iceServers (uaConfiguration ua) = Ice.getIceServers h).
  { intros h.
    destruct (createUserAgent_ok (world_for h) (config_for h) eq_refl (fun _ => eq_refl))
      as (ua & tr & E & _ & _ & _ & _ & Hice).
    eexists ua, _. split; [exact E | exact Hice]. }
  split; [|split; [reflexivity|]; split; [reflexivity|]].
  - intros h Hin. destruct (Hua h) as (ua & w' & E & Hice).
    exists ua, w'. split; [exact E|]. rewrite Hice.
    cbn in Hin. destruct Hin as [<- | [<- | [<- | []]]]; split; vm_compute; (reflexivity || discriminate).
  - destruct (Hua "10.example.com") as (ua & w' & E & Hice).
    exists ua, w'. split; [exact E|]. split; [rewrite Hice; reflexivity|].
    intros a b c d Hh. symmetry in Hh.
    apply (IceFacts.dotted_prefix a b c d "10" _ eq_refl) in Hh as [_ R].
    symmetry in R.
    destruct (decimal b) as [|ch r] eqn:B.
    + discriminate R.
    + pose proof (IceFacts.decimal_digits b) as Db. rewrite B in Db.
      cbn in R. injection R as -> _. vm_compute in Db. discriminate Db.
Qed.


Lemma invoke_ok cb b w :
  raises (platform w) (InvokeCallback cb b) = false ->
  invoke cb b w = (Ok tt, with_trace (fun t => t ++ [InvokeCallback cb b]) w).
Proof.
  intros H. destruct cb; [reflexivity | now apply call_ok].
Qed.

(** While the loop goes on, [_tryToRegister] sets the next timer,
    [1500 * registerTries] milliseconds ahead. *)
Lemma _tryToRegister_schedules cb w :
  registered (client w) = false ->
  registerTries (client w) < MAX_REGISTER_TRY ->
  _tryToRegister cb w =
    (Ok tt, mkWorld (set_registerTimeout (Some (fresh w)) (client w)) (platform w)
              (sessions w) (edges w)
              (tasks w ++ [(fresh w, RetryRegister (1500 * registerTries (client w)) cb)])
              (S (fresh w)) (trace w)).
Proof.
  intros Hr Hn. unfold _tryToRegister.
  erewrite bind_ok by reflexivity. erewrite bind_ok by reflexivity.
  rewrite Hr. apply Nat.leb_gt in Hn. rewrite Hn. cbn [orb].
  erewrite bind_ok by reflexivity. reflexivity.
Qed.

(** Once registered or out of tries, [_tryToRegister] clears the timer,
    reports through the callback and leaves the registering state. *)
Lemma _tryToRegister_stops cb w :
  registered (client w) = true \/ MAX_REGISTER_TRY <= registerTries (client w) ->
  raises (platform w)
    (InvokeCallback cb (Nat.leb MAX_REGISTER_TRY (registerTries (client w)))) = false ->
  _tryToRegister cb w =
    (Ok tt, mkWorld (set_registering false (client w)) (platform w)
              (sessions w) (edges w)
              (match registerTimeout (client w) with
               | Some i => remove_task i (tasks w)
               | None => tasks w
               end)
              (fresh w)
              (trace w ++ [InvokeCallback cb
                             (Nat.leb MAX_REGISTER_TRY (registerTries (client w)))])).
Proof.
  intros Hc Hq. unfold _tryToRegister.
  erewrite bind_ok by reflexivity. erewrite bind_ok by reflexivity.
  assert (E : registered (client w) || Nat.leb MAX_REGISTER_TRY (registerTries (client w)) = true).
  { destruct Hc as [-> | H]; [reflexivity|]. apply Nat.leb_le in H. rewrite H. apply orb_true_r. }
  rewrite E.
  erewrite bind_ok by reflexivity.
  destruct (registerTimeout (client w)) as [i|].
  - erewrite bind_ok by reflexivity.
    erewrite bind_ok by (apply invoke_ok; exact Hq). reflexivity.
  - erewrite bind_ok by reflexivity.
    erewrite bind_ok by (apply invoke_ok; exact Hq). reflexivity.
Qed.

Lemma register_ok w ua :
  userAgent (client w) = Some ua ->
  uaIsRegistered ua = false ->
  calm w ->
  register w = (Ok tt, with_trace (fun t => t ++ [UaRegister (uaId ua)]) w).
Proof.
  intros Hu Hr Hq. unfold register, isRegistered.
  erewrite bind_ok by reflexivity.
  erewrite bind_ok by (erewrite bind_ok by reflexivity; reflexivity).
  rewrite Hu, Hr. now apply call_ok.
Qed.

(** One attempt, up to the point where it calls [_tryToRegister] again:
    a new agent replaces the old one, a REGISTER goes out, the counter is
    incremented; nothing else changes. *)
Lemma retry_attempt_spec cb w cfg :
  config (client w) = Some cfg ->
  calm w ->
  exists ua tr,
    callbacks tr = [] /\
    retry_attempt cb w =
      _tryToRegister cb
        (mkWorld (set_registerTries (S (registerTries (client w)))
                    (set_userAgent (Some ua) (client w)))
           (platform w) (sessions w) (edges w) (tasks w) (S (fresh w)) (trace w ++ tr)).
Proof.
  intros Hc Hq. unfold retry_attempt.
  erewrite bind_ok by reflexivity.
  set (tr0 := match userAgent (client w) with
              | Some u => [UaRemoveAllListeners (uaId u)]
              | None => []
              end).
  erewrite (bind_ok _ _ _ tt (with_trace (fun t => t ++ tr0) w)).
  2:{ subst tr0. destruct (userAgent (client w)) as [u|].
      - now apply call_ok.
      - unfold ret, with_trace. rewrite app_nil_r. now destruct w. }
  destruct (createUserAgent_ok (with_trace (fun t => t ++ tr0) w) cfg Hc Hq)
    as (ua & tr & E & Hid & Hreg & Hcb & _).
  erewrite bind_ok by exact E.
  erewrite bind_ok by reflexivity.
  erewrite bind_ok.
  2:{ apply (register_ok _ ua); [reflexivity | exact Hreg | exact Hq]. }
  erewrite bind_ok by reflexivity.
  exists ua, (tr0 ++ tr ++ [UaRegister (uaId ua)]). split.
  - rewrite !callbacks_app, Hcb. subst tr0.
    destruct (userAgent (client w)); reflexivity.
  - unfold with_trace, with_client. cbn [client platform sessions edges tasks fresh trace].
    rewrite <- !app_assoc. reflexivity.
Qed.

Lemma lookup_task_older i ts t :
  Forall (fun it => fst it <> i) ts ->
  lookup_task i (ts ++ [(i, t)]) = Some t.
Proof.
  intros H. unfold lookup_task. induction H as [|[j u] ts Hj _ IH]; cbn.
  - now rewrite Nat.eqb_refl.
  - cbn in Hj. apply Nat.eqb_neq in Hj. now rewrite Hj.
Qed.

Lemma lookup_task_absent i ts :
  Forall (fun it => fst it <> i) ts -> lookup_task i ts = None.
Proof.
  intros H. unfold lookup_task. induction H as [|[j u] ts Hj _ IH]; cbn; [reflexivity|].
  cbn in Hj. apply Nat.eqb_neq in Hj. now rewrite Hj.
Qed.

Lemma remove_task_absent i ts :
  Forall (fun it => fst it <> i) ts -> remove_task i ts = ts.
Proof.
  intros H. unfold remove_task. induction H as [|[j u] ts Hj _ IH]; cbn; [reflexivity|].
  cbn in Hj. apply Nat.eqb_neq in Hj. now rewrite Hj, IH.
Qed.

Lemma remove_task_last i ts t :
  Forall (fun it => fst it <> i) ts -> remove_task i (ts ++ [(i, t)]) = ts.
Proof.
  intros H. unfold remove_task. rewrite List.filter_app. cbn.
  rewrite Nat.eqb_refl. cbn. rewrite app_nil_r. now apply remove_task_absent.
Qed.

Lemma older_than w i :
  task_ids_fresh w -> fresh w <= i -> Forall (fun it => fst it <> i) (tasks w).
Proof.
  intros H Hi. eapply Forall_impl; [exact H|]. cbn. intros it Hlt. lia.
Qed.

(** [reinit] outside of a loop starts one: the first timer is set,
    with no delay. *)
Lemma reinit_starts cb w :
  registering (client w) = false ->
  reinit cb w =
    (Ok tt, mkWorld (set_registerTimeout (Some (fresh w))
                       (set_registered false
                          (set_registerTries 0 (set_registering true (client w)))))
              (platform w) (sessions w) (edges w)
              (tasks w ++ [(fresh w, RetryRegister 0 cb)]) (S (fresh w)) (trace w)).
Proof.
  intros H. unfold reinit.
  erewrite bind_ok by reflexivity. rewrite H.
  erewrite bind_ok by reflexivity.
  erewrite bind_ok by reflexivity.
  erewrite bind_ok by reflexivity.
  rewrite _tryToRegister_schedules; [reflexivity | reflexivity |].
  cbn. unfold MAX_REGISTER_TRY. lia.
Qed.

(** [reinit] inside a loop does nothing. *)
Lemma reinit_while_registering cb w :
  registering (client w) = true -> reinit cb w = (Ok tt, w).
Proof.
  intros H. unfold reinit. erewrite bind_ok by reflexivity. now rewrite H.
Qed.

Lemma reinit_looping cb w :
  registering (client w) = false -> looping cb w 0 (snd (reinit cb w)).
Proof.
  intros H. rewrite reinit_starts by exact H. cbn [snd].
  unfold looping. cbn. repeat split; try lia.
  exists (fresh w). repeat split. lia.
Qed.

(** One failed attempt takes the loop from [k] to [k + 1] tries; at the
    maximum it gives up instead of setting another timer. *)
Lemma attempt_step cb w0 cfg k w :
  task_ids_fresh w0 ->
  calm w0 ->
  config (client w0) = Some cfg ->
  looping cb w0 k w ->
  k < MAX_REGISTER_TRY ->
  exists w', attempt w = Some w' /\
             (S k < MAX_REGISTER_TRY -> looping cb w0 (S k) w') /\
             (S k = MAX_REGISTER_TRY -> gave_up cb w0 w').
Proof.
  intros Hids Hq Hcfg (Hing & Hed & Htries & Hc & Hp & Hf & Hcb & i & Hi & Hge & Hts) Hk.
  assert (Hold : Forall (fun it => fst it <> i) (tasks w0)) by now apply older_than.
  unfold attempt. rewrite Hi. unfold settle.
  rewrite Hts, lookup_task_older by exact Hold. cbn [ready run_task].
  set (w1 := with_tasks (remove_task i) w).
  assert (Hq1 : calm w1) by (apply (calm_platform w0); [exact Hp | exact Hq]).
  assert (Hc1 : config (client w1) = Some cfg) by (subst w1; wsimpl; congruence).
  destruct (retry_attempt_spec cb w1 cfg Hc1 Hq1) as (ua & tr & Htr & E).
  rewrite E. clear E.
  assert (T1 : tasks w1 = tasks w0).
  { subst w1. cbn. rewrite Hts. now apply remove_task_last. }
  subst w1. wsimpl. wsimpl in T1.
  destruct (Nat.eq_dec (S k) MAX_REGISTER_TRY) as [Hmax | Hlt].
  - rewrite _tryToRegister_stops.
    + eexists. split; [reflexivity|]. split; [lia|]. intros _.
      unfold gave_up. wsimpl. rewrite Hi, Htries, Hmax, T1.
      rewrite remove_task_absent by exact Hold.
      repeat split.
      * rewrite !callbacks_app, Htr, Hcb, app_nil_r. reflexivity.
      * exists i. split; [reflexivity | exact Hge].
    + right. wsimpl. lia.
    + wsimpl. rewrite Hp. apply Hq.
  - rewrite _tryToRegister_schedules.
    + eexists. split; [reflexivity|]. split; [|intros; lia]. intros _.
      unfold looping. wsimpl. rewrite Htries, T1.
      repeat split; try congruence; try lia.
      * rewrite callbacks_app, Htr, app_nil_r. exact Hcb.
      * exists (S (fresh w)). repeat split. lia.
    + wsimpl. exact Hed.
    + wsimpl. lia.
Qed.

Lemma attempts_succ k : forall w,
  attempts (S k) w = match attempts k w with
                     | Some w' => attempt w'
                     | None => None
                     end.
Proof.
  induction k as [|k IH]; intros w.
  - cbn. now destruct (attempt w).
  - change (attempts (S (S k)) w)
      with (match attempt w with Some w' => attempts (S k) w' | None => None end).
    cbn [attempts]. destruct (attempt w) as [w'|]; [apply IH | reflexivity].
Qed.

(** The loop invariant: after [k] failed attempts the loop waits for
    attempt [k + 1]. *)
Lemma attempts_looping cb w0 cfg :
  task_ids_fresh w0 ->
  calm w0 ->
  config (client w0) = Some cfg ->
  registering (client w0) = false ->
  forall k, k < MAX_REGISTER_TRY ->
  exists wk, attempts k (snd (reinit cb w0)) = Some wk /\ looping cb w0 k wk.
Proof.
  intros Hids Hq Hcfg Hreg. induction k as [|k IH]; intros Hk.
  - eexists. split; [reflexivity | now apply reinit_looping].
  - destruct IH as (wk & Ek & Lk); [lia|].
    destruct (attempt_step cb w0 cfg k wk Hids Hq Hcfg Lk) as (w' & E' & Hloop & _); [lia|].
    exists w'. split; [|now apply Hloop].
    now rewrite attempts_succ, Ek.
Qed.

Lemma retry_timers_app w0 w l :
  tasks w = tasks w0 ++ l ->
  retry_timers w = retry_timers w0 ++ List.filter (fun it => is_retry (snd it)) l.
Proof. unfold retry_timers. intros ->. apply List.filter_app. Qed.

(** C4: in the loop [reinit] starts, the timer pending after [k] failed
    attempts, the one that triggers attempt [k + 1], was set with a delay
    of [1500 * k] milliseconds; the first attempt ([k = 0]) is not
    delayed. *)
Theorem retry_delay_is_linear cb w cfg k :
  task_ids_fresh w ->
  calm w ->
  config (client w) = Some cfg ->
  registering (client w) = false ->
  retry_timers w = [] ->
  k < MAX_REGISTER_TRY ->
  exists wk i,
    attempts k (snd (reinit cb w)) = Some wk /\
    registerTries (client wk) = k /\
    registerTimeout (client wk) = Some i /\
    retry_timers wk = [(i, RetryRegister (1500 * k) cb)].
Proof.
  intros Hids Hq Hcfg Hreg Hnone Hk.
  destruct (attempts_looping cb w cfg Hids Hq Hcfg Hreg k Hk)
    as (wk & E & _ & _ & Htries & _ & _ & _ & _ & i & Hi & _ & Hts).
  exists wk, i. repeat split; try assumption.
  rewrite (retry_timers_app w wk _ Hts), Hnone. reflexivity.
Qed.

Lemma retry_delay_is_linear_witness :
  exists wk i,
    attempts 3 (snd (reinit (UserCb 1) (sample_world browser []))) = Some wk /\
    registerTries (client wk) = 3 /\
    registerTimeout (client wk) = Some i /\
    retry_timers wk = [(i, RetryRegister (1500 * 3) (UserCb 1))].
Proof.
  apply (retry_delay_is_linear (UserCb 1) (sample_world browser []) sample_config 3).
  - constructor.
  - intros e. reflexivity.
  - reflexivity.
  - reflexivity.
  - reflexivity.
  - unfold MAX_REGISTER_TRY. lia.
Defined.

(** C3: the loop [reinit] starts raises the registering flag, and for
    as long as the tries are below [MAX_REGISTER_TRY] the flag stays
    raised, one timer is pending for the next attempt and the callback
    has not been called.  When the tries reach [MAX_REGISTER_TRY], the
    loop sets no further timer, has called its callback once, with
    [true], and has cleared the registering flag; no further attempt is
    made. *)
Theorem retry_loop_gives_up_at_the_maximum cb w cfg :
  task_ids_fresh w ->
  calm w ->
  config (client w) = Some cfg ->
  registering (client w) = false ->
  retry_timers w = [] ->
  (forall k, k < MAX_REGISTER_TRY ->
     exists wk i,
       attempts k (snd (reinit cb w)) = Some wk /\
       registering (client wk) = true /\
       registerTries (client wk) = k /\
       retry_timers wk = [(i, RetryRegister (1500 * k) cb)] /\
       callbacks (trace wk) = callbacks (trace w)) /\
  exists wk,
    attempts MAX_REGISTER_TRY (snd (reinit cb w)) = Some wk /\
    registerTries (client wk) = MAX_REGISTER_TRY /\
    retry_timers wk = [] /\
    callbacks (trace wk) = callbacks (trace w) ++ [(cb, true)] /\
    registering (client wk) = false /\
    attempt wk = None.
Proof.
  intros Hids Hq Hcfg Hreg Hnone. split.
  - intros k Hk.
    destruct (attempts_looping cb w cfg Hids Hq Hcfg Hreg k Hk)
      as (wk & E & Hing & _ & Htries & _ & _ & _ & Hcb & i & _ & _ & Hts).
    exists wk, i. repeat split; try assumption.
    rewrite (retry_timers_app w wk _ Hts), Hnone. reflexivity.
  - destruct (attempts_looping cb w cfg Hids Hq Hcfg Hreg 199) as (wk & Ek & Lk).
    { unfold MAX_REGISTER_TRY. lia. }
    destruct (attempt_step cb w cfg 199 wk Hids Hq Hcfg Lk) as (w' & E' & _ & Hup).
    { unfold MAX_REGISTER_TRY. lia. }
    destruct (Hup eq_refl) as (Hing & Htries & Hts & Hcb & i & Hi & Hge).
    exists w'. repeat split; try assumption.
    + change MAX_REGISTER_TRY with (S 199). now rewrite attempts_succ, Ek.
    + unfold retry_timers. rewrite Hts. exact Hnone.
    + unfold attempt, settle. rewrite Hi, Hts, lookup_task_absent; [reflexivity|].
      now apply older_than.
Qed.

Lemma retry_loop_gives_up_at_the_maximum_witness :
  let w := sample_world browser [] in
  (forall k, k < MAX_REGISTER_TRY ->
     exists wk i,
       attempts k (snd (reinit (UserCb 1) w)) = Some wk /\
       registering (client wk) = true /\
       registerTries (client wk) = k /\
       retry_timers wk = [(i, RetryRegister (1500 * k) (UserCb 1))] /\
       callbacks (trace wk) = callbacks (trace w)) /\
  exists wk,
    attempts MAX_REGISTER_TRY (snd (reinit (UserCb 1) w)) = Some wk /\
    registerTries (client wk) = MAX_REGISTER_TRY /\
    retry_timers wk = [] /\
    callbacks (trace wk) = callbacks (trace w) ++ [(UserCb 1, true)] /\
    registering (client wk) = false /\
    attempt wk = None.
Proof.
  apply (retry_loop_gives_up_at_the_maximum (UserCb 1) (sample_world browser []) sample_config).
  - constructor.
  - intros e. reflexivity.
  - reflexivity.
  - reflexivity.
  - reflexivity.
Defined.

(** ** One retry loop at a time *)

Lemma retry_timers_add w i t :
  is_retry t = false ->
  retry_timers (with_tasks (fun ts => ts ++ [(i, t)]) w) = retry_timers w.
Proof.
  intros H. unfold retry_timers. cbn. rewrite List.filter_app. cbn.
  rewrite H. apply app_nil_r.
Qed.

#[local] Instance same_registration_tolerant : Tolerant same_registration.
Proof.
  split; unfold same_registration; try (intros; split; reflexivity).
  - intros w1 w2 w3 [H1 H2] [H3 H4]. split; congruence.
  - intros w t H. split; [reflexivity|].
    apply (retry_timers_add (with_fresh S w) (fresh w) t H).
Qed.

Lemma frames_assign_registration f :
  (forall c, registering (f c) = registering c) ->
  frames same_registration (assign f).
Proof. intros H w. split; [apply H | reflexivity]. Qed.

Lemma frames_createWebRTCConfiguration R `{!Tolerant R} :
  frames R _createWebRTCConfiguration.
Proof.
  unfold _createWebRTCConfiguration, _getAudioConstraints, _getVideoConstraints, _isWeb.
  frames_auto.
Qed.

Lemma frames_createUserAgent R `{!Tolerant R} : frames R createUserAgent.
Proof.
  unfold createUserAgent, _bindRegistrationEvents.
  apply (frames_bind R); [apply (frames_createWebRTCConfiguration R) | intros c].
  frames_auto.
Qed.

Lemma frames_register R `{!Tolerant R} : frames R register.
Proof. unfold register, isRegistered. frames_auto. Qed.

Lemma frames_unregister : frames same_registration unregister.
Proof.
  unfold unregister.
  apply (frames_bind same_registration); [frames_auto | intros [u|]]; [|frames_auto].
  apply (frames_bind same_registration); [frames_auto | intros _].
  now apply frames_assign_registration.
Qed.

Lemma frames_replace_agent (m : M unit) :
  frames same_registration m ->
  frames same_registration (m ;; u <- createUserAgent ;; assign (set_userAgent (Some u))).
Proof.
  intros Hm. apply (frames_bind same_registration); [exact Hm | intros _].
  apply (frames_bind same_registration);
    [apply (frames_createUserAgent same_registration) | intros u].
  now apply frames_assign_registration.
Qed.

Lemma frames_changeAudioInputDevice dev :
  frames same_registration (changeAudioInputDevice dev).
Proof.
  unfold changeAudioInputDevice.
  apply (frames_bind same_registration); [now apply frames_assign_registration | intros _].
  apply (frames_bind same_registration); [frames_auto | intros ua].
  apply frames_replace_agent. frames_auto.
Qed.

Lemma frames_changeVideoInputDevice dev :
  frames same_registration (changeVideoInputDevice dev).
Proof.
  unfold changeVideoInputDevice.
  apply (frames_bind same_registration); [now apply frames_assign_registration | intros _].
  apply (frames_bind same_registration); [frames_auto | intros ua].
  apply frames_replace_agent. frames_auto.
Qed.

Lemma frames_onConfig cfg : frames same_registration (onConfig cfg).
Proof.
  unfold onConfig. apply frames_replace_agent.
  now apply frames_assign_registration.
Qed.

Lemma single_loop_same w w' :
  same_registration w w' -> single_loop w -> single_loop w'.
Proof. intros [Hr Ht] [H1 H2]. unfold single_loop. rewrite Hr, Ht. now split. Qed.

Lemma single_loop_idle w :
  retry_timers w = [] -> single_loop w.
Proof. intros H. unfold single_loop. rewrite H. split; [cbn; lia | reflexivity]. Qed.

Lemma filter_filter_comm {A} (p q : A -> bool) l :
  List.filter p (List.filter q l) = List.filter q (List.filter p l).
Proof.
  induction l as [|x l IH]; cbn; [reflexivity|].
  destruct (q x) eqn:Q, (p x) eqn:P; cbn; rewrite ?Q, ?P, IH; reflexivity.
Qed.

Lemma retry_timers_remove i w :
  retry_timers (with_tasks (remove_task i) w)
  = List.filter (fun it => negb (Nat.eqb (fst it) i)) (retry_timers w).
Proof. unfold retry_timers, remove_task. cbn. apply filter_filter_comm. Qed.

Lemma filter_length_le {A} (p : A -> bool) l : length (List.filter p l) <= length l.
Proof.
  induction l as [|x l IH]; cbn; [lia|]. destruct (p x); cbn; lia.
Qed.

(** Dropping timers keeps the invariant. *)
Lemma single_loop_filter w w' p :
  registering (client w') = registering (client w) ->
  retry_timers w' = List.filter p (retry_timers w) ->
  single_loop w -> single_loop w'.
Proof.
  intros Hr Ht [H1 H2]. unfold single_loop. rewrite Hr, Ht. split.
  - pose proof (filter_length_le p (retry_timers w)). lia.
  - intros H. now rewrite (H2 H).
Qed.

Lemma single_loop_remove i w :
  single_loop w -> single_loop (with_tasks (remove_task i) w).
Proof.
  apply single_loop_filter with (p := fun it => negb (Nat.eqb (fst it) i));
    [reflexivity | apply retry_timers_remove].
Qed.

Lemma lookup_task_in i ts t : lookup_task i ts = Some t -> In (i, t) ts.
Proof.
  unfold lookup_task. destruct (List.find _ ts) as [[j u]|] eqn:F; [|discriminate].
  intros [= <-]. apply List.find_some in F as [Hin Heq].
  cbn in Heq. apply Nat.eqb_eq in Heq. now subst j.
Qed.

(** The timer that fires was the only one. *)
Lemma fired_timer_was_alone i d cb w :
  single_loop w ->
  lookup_task i (tasks w) = Some (RetryRegister d cb) ->
  registering (client w) = true /\
  retry_timers (with_tasks (remove_task i) w) = [].
Proof.
  intros [H1 H2] L. apply lookup_task_in in L.
  assert (Hin : In (i, RetryRegister d cb) (retry_timers w)).
  { unfold retry_timers. apply List.filter_In. now split. }
  split.
  - destruct (registering (client w)); [reflexivity|].
    rewrite H2 in Hin by reflexivity. destruct Hin.
  - rewrite retry_timers_remove.
    destruct (retry_timers w) as [|x [|y l]]; cbn in *; [reflexivity| |lia].
    destruct Hin as [-> | []]. cbn. now rewrite Nat.eqb_refl.
Qed.

(** [running]: the loop is between the expiry of its timer and the next
    [_tryToRegister]. *)
Lemma running_same w w' :
  same_registration w w' ->
  retry_timers w = [] /\ registering (client w) = true ->
  retry_timers w' = [] /\ registering (client w') = true.
Proof. intros [Hr Ht] [H1 H2]. now rewrite Hr, Ht. Qed.

Lemma post_bind {A B} (I Q : World -> Prop) (m : M A) (f : A -> M B) :
  frames same_registration m ->
  (forall w w', same_registration w w' -> I w -> I w') ->
  (forall w, I w -> Q w) ->
  (forall a w, I w -> Q (snd (f a w))) ->
  forall w, I w -> Q (snd (bind m f w)).
Proof.
  intros Hm HI HQ Hf w Hw. unfold bind. specialize (Hm w).
  destruct (m w) as [[a|e] w1]; cbn in *.
  - apply Hf. now apply (HI w).
  - apply HQ. now apply (HI w).
Qed.

Lemma invoke_tasks cb b w : tasks (snd (invoke cb b w)) = tasks w.
Proof.
  destruct cb; cbn; [reflexivity|].
  unfold call. now destruct (raises (platform w) _).
Qed.

Lemma _tryToRegister_single_loop cb w :
  retry_timers w = [] ->
  registering (client w) = true ->
  single_loop (snd (_tryToRegister cb w)).
Proof.
  intros Ht Hr. unfold _tryToRegister.
  erewrite bind_ok by reflexivity. erewrite bind_ok by reflexivity.
  destruct (registered (client w) || Nat.leb MAX_REGISTER_TRY (registerTries (client w))).
  - erewrite bind_ok by reflexivity.
    set (w1 := match registerTimeout (client w) with
               | Some i => with_tasks (remove_task i) w
               | None => w
               end).
    assert (T1 : retry_timers w1 = []).
    { subst w1. destruct (registerTimeout (client w)); [|exact Ht].
      now rewrite retry_timers_remove, Ht. }
    erewrite (bind_ok _ _ _ tt w1)
      by (subst w1; now destruct (registerTimeout (client w))).
    apply single_loop_idle. unfold bind.
    pose proof (invoke_tasks cb (Nat.leb MAX_REGISTER_TRY (registerTries (client w))) w1) as T2.
    destruct (invoke cb _ w1) as [[[]|e] w2]; cbn in T2 |- *;
      unfold retry_timers in *; cbn; congruence.
  - cbn. split.
    + unfold retry_timers in *. cbn. rewrite List.filter_app, Ht. cbn. lia.
    + cbn. congruence.
Qed.

Lemma retry_attempt_single_loop cb w :
  retry_timers w = [] ->
  registering (client w) = true ->
  single_loop (snd (retry_attempt cb w)).
Proof.
  intros Ht Hr. unfold retry_attempt.
  pose (I := fun w => retry_timers w = [] /\ registering (client w) = true).
  assert (HQ : forall w, I w -> single_loop w).
  { intros w0 [H _]. now apply single_loop_idle. }
  assert (HI : forall w w', same_registration w w' -> I w -> I w')
    by exact running_same.
  revert w Ht Hr. cut (forall w, I w -> single_loop (snd (retry_attempt cb w))).
  { intros H w Ht Hr. apply H. now split. }
  unfold retry_attempt.
  apply post_bind; [frames_auto | exact HI | exact HQ | intros ua].
  apply post_bind; [frames_auto | exact HI | exact HQ | intros _].
  apply post_bind;
    [apply (frames_createUserAgent same_registration) | exact HI | exact HQ | intros u].
  apply post_bind;
    [now apply frames_assign_registration | exact HI | exact HQ | intros _].
  apply post_bind;
    [apply (frames_register same_registration) | exact HI | exact HQ | intros _].
  apply post_bind;
    [now apply frames_assign_registration | exact HI | exact HQ | intros _].
  intros w [Ht Hr]. now apply _tryToRegister_single_loop.
Qed.

Lemma reinit_single_loop cb w : single_loop w -> single_loop (snd (reinit cb w)).
Proof.
  intros H. destruct (registering (client w)) eqn:Hr.
  - now rewrite reinit_while_registering.
  - rewrite reinit_starts by exact Hr. cbn [snd].
    destruct H as [_ H]. specialize (H Hr). split.
    + unfold retry_timers in *. cbn. rewrite List.filter_app, H. cbn. lia.
    + cbn. discriminate.
Qed.

Lemma onDisconnected_single_loop w :
  single_loop w -> single_loop (snd (onDisconnected w)).
Proof.
  intros H. unfold onDisconnected. erewrite bind_ok by reflexivity.
  apply reinit_single_loop. exact H.
Qed.

Lemma retry_timers_fulfil p ts :
  List.filter (fun it => is_retry (snd it)) (fulfil p ts)
  = List.filter (fun it => is_retry (snd it)) ts.
Proof.
  unfold fulfil. induction ts as [|[j t] ts IH]; [reflexivity|].
  rewrite fmap_cons. cbn [List.filter]. rewrite IH.
  now destruct t.
Qed.

Lemma retry_timers_reject p ts :
  List.filter (fun it => is_retry (snd it)) (reject p ts)
  = List.filter (fun it => is_retry (snd it)) ts.
Proof.
  unfold reject. induction ts as [|[j t] ts IH]; [reflexivity|].
  destruct t; cbn; rewrite ?IH; try reflexivity.
  destruct (negb (existsb (Nat.eqb p) awaiting)); cbn; now rewrite ?IH.
Qed.

Lemma same_registration_single_loop {A} (m : M A) w :
  frames same_registration m -> single_loop w -> single_loop (snd (m w)).
Proof. intros F. apply single_loop_same, F. Qed.

Lemma settle_single_loop i payload w w' :
  single_loop w -> settle i payload w = Some w' -> single_loop w'.
Proof.
  intros H. unfold settle.
  destruct (lookup_task i (tasks w)) as [t|] eqn:L; [|discriminate].
  destruct (ready t); [|discriminate].
  destruct (is_retry t) eqn:Ht.
  - destruct t as [d cb| | | | |]; try discriminate.
    destruct (fired_timer_was_alone i d cb w H L) as [Hr T].
    pose proof (retry_attempt_single_loop cb _ T Hr) as G.
    cbn [run_task settles_promise].
    destruct (retry_attempt cb _) as [[[]|e] w1]; intros [= <-]; exact G.
  - pose proof (same_registration_single_loop (run_task i t payload)
                  (with_tasks (remove_task i) w)
                  (frames_run_task same_registration i t payload Ht)
                  (single_loop_remove i w H)) as G.
    destruct (run_task i t payload _) as [[[]|e] w1]; cbn [snd] in G; intros [= <-].
    + destruct t; try exact G.
      eapply single_loop_same; [|exact G].
      split; [reflexivity|]. unfold retry_timers. cbn. apply retry_timers_fulfil.
    + destruct (settles_promise i t); [|exact G].
      eapply single_loop_same; [|exact G].
      split; [reflexivity|]. unfold retry_timers. cbn. apply retry_timers_reject.
Qed.

Lemma fail_single_loop i w w' :
  single_loop w -> fail i w = Some w' -> single_loop w'.
Proof.
  intros H. unfold fail.
  destruct (lookup_task i (tasks w)) as [[]|]; try discriminate; intros [= <-].
  - now apply single_loop_remove.
  - apply (single_loop_same (with_tasks (remove_task i) w)); [|now apply single_loop_remove].
    split; [reflexivity|]. unfold retry_timers. cbn. apply retry_timers_reject.
  - apply (single_loop_same (with_tasks (remove_task i) w)); [|now apply single_loop_remove].
    split; [reflexivity|]. unfold retry_timers. cbn. apply retry_timers_reject.
Qed.

Lemma perform_single_loop a w w' :
  single_loop w -> perform a w = Some w' -> single_loop w'.
Proof.
  intros H.
  assert (F : forall A (m : M A), frames same_registration m ->
                after m w = Some w' -> single_loop w').
  { intros A m Hm [= <-]. now apply same_registration_single_loop. }
  destruct a; cbn [perform].
  - intros [= <-]. now apply reinit_single_loop.
  - apply F, (frames_register same_registration).
  - apply F, frames_unregister.
  - apply F, frames_changeAudioInputDevice.
  - apply F, frames_changeVideoInputDevice.
  - apply F, (frames_hangup same_registration).
  - apply F, (frames_toggleAudio same_registration).
  - apply F, (frames_toggleAudio same_registration).
  - apply F, (frames_toggleVideo same_registration).
  - apply F, (frames_toggleVideo same_registration).
  - apply F, (frames_hold same_registration).
  - apply F, (frames_unhold same_registration).
  - apply F, (frames_merge same_registration).
  - apply F, (frames_addToMerge same_registration).
  - apply F, (frames_removeFromMerge same_registration).
  - apply F, (frames_unmerge same_registration).
  - apply F, frames_onConfig.
  - intros [= <-]. exact H.
  - intros [= <-]. now apply onDisconnected_single_loop.
  - intros [= <-]. now apply onDisconnected_single_loop.
  - apply F, (frames_onInvite same_registration).
  - now apply settle_single_loop.
  - now apply fail_single_loop.
  - intros [= <-]. exact H.
  - intros [= <-]. exact H.
Qed.

Lemma initial_single_loop w : initial w -> single_loop w.
Proof.
  intros (_ & Ht & _). apply single_loop_idle. unfold retry_timers. now rewrite Ht.
Qed.

Lemma reachable_single_loop w : reachable w -> single_loop w.
Proof.
  induction 1 as [w Hi | w a w' _ IH Hp].
  - now apply initial_single_loop.
  - now apply (perform_single_loop a w).
Qed.

(** C5: in every world the client can get into at most one retry timer
    is pending; [reinit] while registering changes nothing; [reinit]
    otherwise sets [registerTries] to 0, [registered] to false,
    [registering] to true and starts the one loop, whose first timer has
    no delay. *)
Theorem reinit_runs_a_single_loop :
  (forall w, reachable w -> length (retry_timers w) <= 1) /\
  (forall w cb, registering (client w) = true -> reinit cb w = (Ok tt, w)) /\
  (forall w cb,
     reachable w ->
     registering (client w) = false ->
     let w' := snd (reinit cb w) in
     fst (reinit cb w) = Ok tt /\
     registerTries (client w') = 0 /\
     registered (client w') = false /\
     registering (client w') = true /\
     exists i, registerTimeout (client w') = Some i /\
               tasks w' = tasks w ++ [(i, RetryRegister 0 cb)] /\
               retry_timers w' = [(i, RetryRegister 0 cb)]).
Proof.
  split; [|split].
  - intros w H. now apply reachable_single_loop.
  - intros w cb H. now apply reinit_while_registering.
  - intros w cb Hw Hr. cbv zeta. rewrite reinit_starts by exact Hr.
    repeat split. exists (fresh w). repeat split.
    apply reachable_single_loop in Hw as [_ Hn].
    unfold retry_timers in *. cbn. rewrite List.filter_app, (Hn Hr). reflexivity.
Qed.

Lemma reinit_runs_a_single_loop_witness :
  length (retry_timers (snd (reinit (UserCb 1) (new_world browser)))) <= 1 /\
  reinit (UserCb 2) (snd (reinit (UserCb 1) (new_world browser)))
    = (Ok tt, snd (reinit (UserCb 1) (new_world browser))) /\
  (let w' := snd (reinit (UserCb 1) (new_world browser)) in
   fst (reinit (UserCb 1) (new_world browser)) = Ok tt /\
   registerTries (client w') = 0 /\
   registered (client w') = false /\
   registering (client w') = true /\
   exists i, registerTimeout (client w') = Some i /\
             tasks w' = tasks (new_world browser) ++ [(i, RetryRegister 0 (UserCb 1))] /\
             retry_timers w' = [(i, RetryRegister 0 (UserCb 1))]).
Proof.
  destruct reinit_runs_a_single_loop as (H1 & H2 & H3).
  assert (R0 : reachable (new_world browser)).
  { apply reachable_initial. unfold initial, new_world. cbn.
    split; [|repeat split].
    exists sample_media, (Some (mkAudioContext true)). split; reflexivity. }
  split; [|split].
  - apply H1. apply (reachable_perform (new_world browser) (CallReinit (UserCb 1))).
    + exact R0.
    + reflexivity.
  - apply H2. reflexivity.
  - apply H3; [exact R0 | reflexivity].
Defined.

(** ** Computations that return normally *)


Lemma runs_bind {A B} (m : M A) (f : A -> M B) w Q :
  runs m w (fun a w1 => runs (f a) w1 Q) -> runs (bind m f) w Q.
Proof.
  intros (a & w1 & E & b & w2 & E2 & H). exists b, w2. split; [|exact H].
  unfold bind. now rewrite E.
Qed.




Lemma runs_modify f w Q : Q tt (f w) -> runs (modify f) w Q.
Proof. intros H. now exists tt, (f w). Qed.




Lemma runs_call e w Q :
  calm w -> Q tt (with_trace (fun t => t ++ [e]) w) -> runs (call e) w Q.
Proof.
  intros Hq H. exists tt, (with_trace (fun t => t ++ [e]) w).
  split; [now apply call_ok | exact H].
Qed.



Lemma runs_sessionId s w Q :
  Q (getSipSessionId (sessions w !! s)) w -> runs (sessionId s) w Q.
Proof. intros H. eexists _, _. split; [reflexivity | exact H]. Qed.



(** *** Quiet steps *)

Lemma trace_grows_refl w : trace_grows w w.
Proof. apply (tol_refl (R := trace_grows)). Qed.

Lemma trace_grows_trans w1 w2 w3 :
  trace_grows w1 w2 -> trace_grows w2 w3 -> trace_grows w1 w3.
Proof. apply (tol_trans (R := trace_grows)). Qed.


Lemma quiet_step_trans w1 w2 w3 :
  quiet_step w1 w2 -> quiet_step w2 w3 -> quiet_step w1 w3.
Proof.
  intros (C1 & P1 & T1 & F1 & M1 & G1) (C2 & P2 & T2 & F2 & M2 & G2).
  unfold quiet_step. repeat split; try congruence; [lia | auto |].
  now apply (trace_grows_trans w1 w2).
Qed.


Lemma quiet_trace w e : quiet_step w (with_trace (fun t => t ++ [e]) w).
Proof. unfold quiet_step. repeat split; auto. now exists [e]. Qed.


Lemma quiet_edges w f : quiet_step w (with_edges f w).
Proof. unfold quiet_step. repeat split; auto. apply (trace_grows_refl w). Qed.



Lemma disconnect_quiet a d w :
  calm w -> runs (disconnect a d) w (fun _ w' =>
    quiet_step w w' /\ edges w' = drop_edges a d (edges w)).
Proof.
  intros Hq. unfold disconnect. apply runs_bind, runs_call; [exact Hq|].
  apply runs_modify. split; [|reflexivity].
  eapply quiet_step_trans; [apply quiet_trace | apply quiet_edges].
Qed.




(** *** Sessions keep their shape under the toggles *)










(** *** Adding to the merge *)





(** *** Removing from the merge *)








Lemma is_destination_grows w w' n :
  trace_grows w w' -> is_destination w n -> is_destination w' n.
Proof.
  intros [rest E] H. unfold is_destination in *. rewrite E. apply in_or_app. now left.
Qed.


Lemma mergeable_own w s key : mergeable w s key -> key <> "__proto__".
Proof. intros (sess & _ & [_ Hk] & _). exact Hk. Qed.

Lemma delete_audioStream_own key m :
  key <> "__proto__" -> delete_audioStream key m = delete key m.
Proof.
  intros H. unfold delete_audioStream.
  destruct (String.eqb key "__proto__") eqn:E; [|reflexivity].
  apply String.eqb_eq in E. contradiction.
Qed.

Lemma quiet_mergeable w w' s key :
  quiet_step w w' -> mergeable w s key -> mergeable w' s key.
Proof. intros (_ & _ & _ & _ & M & _). apply M. Qed.

Lemma quiet_client w w' : quiet_step w w' -> client w' = client w.
Proof. now intros (C & _). Qed.

Lemma quiet_grows w w' : quiet_step w w' -> trace_grows w w'.
Proof. now intros (_ & _ & _ & _ & _ & G). Qed.

Lemma quiet_fresh_le w w' : quiet_step w w' -> fresh w <= fresh w'.
Proof. now intros (_ & _ & _ & F & _). Qed.


Lemma connect_ok a b w :
  calm w ->
  connect a b w =
    (Ok tt, with_edges (add_edge a b) (with_trace (fun t => t ++ [NodeConnect a b]) w)).
Proof. intros Hq. unfold connect. now erewrite bind_ok by (apply call_ok, Hq). Qed.

Lemma disconnect_ok a d w :
  calm w ->
  disconnect a d w =
    (Ok tt, with_edges (drop_edges a d) (with_trace (fun t => t ++ [NodeDisconnect a d]) w)).
Proof. intros Hq. unfold disconnect. now erewrite bind_ok by (apply call_ok, Hq). Qed.

Lemma bind_assoc {A B C} (m : M A) (f : A -> M B) (g : B -> M C) w :
  bind (bind m f) g w = bind m (fun x => bind (f x) g) w.
Proof. unfold bind. now destruct (m w) as [[a|e] w1]. Qed.

Ltac mstep Hq :=
  first
    [ rewrite bind_assoc
    | erewrite bind_ok
        by first [ reflexivity | apply call_ok, Hq | apply connect_ok, Hq
                 | apply disconnect_ok, Hq ] ].

Lemma removeFromMerge_eq s key shouldHold w e l :
  calm w ->
  is_some (audioContext (client w)) = true ->
  mergeable w s key ->
  audioStreams (client w) !! key = Some e ->
  localAudioSource e = Some l ->
  exists tr,
    In (CreateMediaStreamDestination (fresh w)) tr /\
    removeFromMerge s shouldHold w =
      (Ok (Some (S (fresh w))),
       mkWorld (set_audioStreams (delete key (audioStreams (client w))) (client w))
         (platform w) (sessions w)
         (rewire l (remoteAudioSource e) (mergeDestination (client w)) (fresh w) (edges w))
         (tasks w ++ [(S (fresh w), RemoveFromMergeOffer s shouldHold)])
         (S (S (fresh w))) (trace w ++ tr)).
Proof.
  intros Hq Hctx (sess & Hs & [Hkey Hown] & sdh & pc & Hsdh & Hpc & Hclosed & Hlocal) He Hl.
  unfold removeFromMerge, rebuild_destination, _getRtcOptions,
    _hasAudio, sessionId, session_at.
  erewrite bind_ok by (apply deref_ok; exact Hs).
  rewrite Hsdh. cbv zeta.
  destruct (audioContext (client w)) as [ctx|] eqn:Hc; [|discriminate].
  destruct (remoteAudioSource e) as [r|] eqn:Hr,
           (mergeDestination (client w)) as [d|] eqn:Hd;
    repeat (mstep Hq; wsimpl;
            rewrite ?Hc, ?Hclosed, ?Hs, ?Hkey, ?He, ?Hl, ?Hr, ?Hd, ?Hpc,
              ?(delete_audioStream_own key _ Hown);
            cbn [negb]);
    unfold ret, rewire, add_edge_opt, drop_edges_opt;
    (eexists; split; [|f_equal; apply world_eq; wsimpl;
                       rewrite ?(delete_audioStream_own key _ Hown); try reflexivity;
                       rewrite <- ?app_assoc; reflexivity]);
    cbn; tauto.
Qed.

(** *** Pending continuations and their identities *)


Lemma ids_ok_quiet w w' :
  tasks w' = tasks w -> fresh w <= fresh w' -> ids_ok w -> ids_ok w'.
Proof.
  intros T F [N I]. unfold ids_ok, task_ids_fresh in *. rewrite T. split; [exact N|].
  eapply Forall_impl; [exact I|]. cbn. intros. lia.
Qed.




(** *** Merging: the invariant *)














(** *** Unmerging: the invariants *)

Lemma mergeable_sessions w w' s key :
  sessions w' = sessions w -> mergeable w s key -> mergeable w' s key.
Proof. unfold mergeable. now intros ->. Qed.














Lemma omap_Some_fmap {A} (l : list A) : omap (fun p => p) (Some <$> l) = l.
Proof. induction l as [|x l IH]; cbn; [reflexivity | now rewrite IH]. Qed.

Lemma unmerge_loop_eq w0 n : forall rest k w,
  calm w ->
  is_some (audioContext (client w)) = true ->
  NoDup (key_in w0 <$> rest) ->
  (forall s, In s rest ->
     mergeable w s (key_in w0 s) /\
     exists e, audioStreams (client w) !! key_in w0 s = Some e /\
               is_some (localAudioSource e) = true) ->
  exists w',
    mapi_from k rest (fun s i => removeFromMerge s (Nat.ltb i (n - 1))) w
      = (Ok (Some <$> (fst <$> removal_offers k n (fresh w) rest)), w') /\
    tasks w' = tasks w ++ removal_offers k n (fresh w) rest /\
    fresh w' = fresh w + 2 * length rest /\
    calm w' /\
    mergeDestination (client w') = mergeDestination (client w) /\
    (forall key, audioStreams (client w) !! key = None ->
                 audioStreams (client w') !! key = None) /\
    (forall s, In s rest -> audioStreams (client w') !! key_in w0 s = None).
Proof.
  induction rest as [|s rest IH]; intros k w Hq Hctx Hnd Hin; cbn [mapi_from].
  - exists w. cbn. rewrite app_nil_r, Nat.add_0_r. repeat split; tauto.
  - rewrite fmap_cons in Hnd. apply NoDup_cons in Hnd as [Hnew Hnd].
    destruct (Hin s (or_introl eq_refl)) as (Hm & e & He & Hl).
    destruct (localAudioSource e) as [l|] eqn:El; [|discriminate].
    destruct (removeFromMerge_eq s (key_in w0 s) (Nat.ltb k (n - 1)) w e l Hq Hctx Hm He El)
      as (tr & _ & E).
    erewrite bind_ok by exact E.
    match type of E with _ = (_, ?w1') => set (w1 := w1') in * end.
    destruct (IH (S k) w1) as (w' & E' & T' & F' & Hq' & D' & M' & N').
    + exact Hq.
    + exact Hctx.
    + exact Hnd.
    + intros s' Hs'. destruct (Hin s' (or_intror Hs')) as (Hm' & e' & He' & Hl').
      split; [exact Hm'|]. exists e'. split; [|exact Hl'].
      subst w1. wsimpl. rewrite lookup_delete_ne; [exact He'|].
      intros K. apply Hnew. rewrite K. apply list_elem_of_In, in_map. exact Hs'.
    + erewrite bind_ok by exact E'. exists w'. cbn [removal_offers length].
      split; [reflexivity|]. split.
      { rewrite T'. subst w1. wsimpl. now rewrite <- app_assoc. }
      split; [rewrite F'; subst w1; wsimpl; lia|].
      split; [exact Hq'|]. split; [exact D'|]. split.
      * intros key Hk. apply M'. subst w1. wsimpl.
        destruct (decide (key_in w0 s = key)) as [<- | Hne];
          [apply lookup_delete_eq | now rewrite lookup_delete_ne].
      * intros s' [<- | Hs']; [|now apply N'].
        apply M'. subst w1. wsimpl. apply lookup_delete_eq.
Qed.

(** *** Unmerging: what [Promise.all] awaits *)













(** *** Where the sources of a removed session end up *)





(** ** Merging and unmerging: add, then remove *)

(** *** One session: [addToMerge], then [removeFromMerge] *)

















(** * Further properties of the code *)

(** ** The static helpers *)

(** X1. [isAPrivateIp] answers the opposite of what its name says: it
    is true exactly for the hosts that are not on a private network
    (10/8, 127/8, 172.16/12, 192.168/16, read off the dotted text), and
    false exactly for those that are. *)
Theorem isAPrivateIp_is_true_off_private_networks ip :
  (Ice.isAPrivateIp ip = true <-> ~ Ice.private_host ip) /\
  (Ice.isAPrivateIp ip = false <-> Ice.private_host ip).
Proof.
  pose proof (IceFacts.isAPrivateIp_spec ip) as H.
  split; [|exact H].
  destruct (Ice.isAPrivateIp ip).
  - split; [|reflexivity]. intros _ P. apply H in P. discriminate.
  - split; [discriminate|]. intros N. exfalso. now apply N, H.
Qed.

(** ** [sessionWantsToDoVideo] *)

Lemma prefixb_spec p : forall s,
  prefixb p s = true <-> exists post, s = (p ++ post)%string.
Proof.
  induction p as [|a p IH]; intros s; cbn [prefixb].
  - split; [intros _; now exists s | trivial].
  - destruct s as [|b s].
    + split; [discriminate | intros [post [=]]].
    + rewrite andb_true_iff, IH. split.
      * intros [E [post ->]]. apply Ascii.eqb_eq in E as ->. now exists post.
      * intros [post [= -> ->]]. split; [apply Ascii.eqb_refl | now exists post].
Qed.

Lemma contains_spec needle : forall hay,
  contains needle hay = true <->
  exists pre post, hay = (pre ++ needle ++ post)%string.
Proof.
  induction hay as [|c hay IH]; cbn [contains]; rewrite orb_true_iff, prefixb_spec.
  - split.
    + intros [[post E] | [=]]. now exists EmptyString, post.
    + intros (pre & post & E). left. destruct pre as [|a pre]; [now exists post | discriminate].
  - rewrite IH. split.
    + intros [[post E] | (pre & post & ->)].
      * now exists EmptyString, post.
      * now exists (String c pre), post.
    + intros (pre & post & E). destruct pre as [|a pre].
      * left. now exists post.
      * right. injection E as -> ->. now exists pre, post.
Qed.

(** X2. [sessionWantsToDoVideo] reads the SDP of the session's request
    and changes nothing: it answers true exactly when the text holds a
    CR LF followed by "m=video " somewhere (so not for a video line that
    is the first line), and raises a TypeError when the session has no
    request. *)
Theorem sessionWantsToDoVideo_looks_for_a_video_line s w sess :
  sessions w !! s = Some sess ->
  (request sess = None -> sessionWantsToDoVideo s w = (Throw TypeError, w)) /\
  (forall req, request sess = Some req ->
     exists b, sessionWantsToDoVideo s w = (Ok b, w) /\
       (b = true <->
        exists pre post,
          body req = (pre ++ String "013" (String "010" "m=video ") ++ post)%string)).
Proof.
  intros Hs. unfold sessionWantsToDoVideo.
  rewrite (bind_ok _ _ _ _ _ (deref_ok _ _ _ Hs)). split.
  - intros ->. reflexivity.
  - intros req ->. eexists. split; [reflexivity|]. apply contains_spec.
Qed.

Lemma sessionWantsToDoVideo_looks_for_a_video_line_witness :
  let w := sample_world mobile [(0, invited_session video_offer);
                                (1, invited_session "m=video 9 RTP/AVP 96")] in
  fst (sessionWantsToDoVideo 0 w) = Ok true /\
  fst (sessionWantsToDoVideo 1 w) = Ok false /\
  (exists pre post,
     video_offer = (pre ++ String "013" (String "010" "m=video ") ++ post)%string).
Proof.
  cbv zeta.
  destruct (sessionWantsToDoVideo_looks_for_a_video_line 0
              (sample_world mobile [(0, invited_session video_offer);
                                    (1, invited_session "m=video 9 RTP/AVP 96")])
              (invited_session video_offer) eq_refl) as [_ H].
  destruct (H _ eq_refl) as (b & E & Hb).
  split; [reflexivity|]. split; [reflexivity|].
  apply Hb. vm_compute in E. now injection E as <-.
Defined.

(** ** Muting, holding *)

Lemma _toggleAudio_none w s sess muteAudio :
  sessions w !! s = Some sess ->
  session_pc w s = None ->
  _toggleAudio s muteAudio w = (Ok tt, w).
Proof.
  intros Hs. unfold session_pc, _toggleAudio. rewrite Hs. cbn.
  rewrite (bind_ok _ _ _ _ _ (deref_ok _ _ _ Hs)).
  destruct (sessionDescriptionHandler sess) as [[[pc|]]|]; cbn; [discriminate | reflexivity..].
Qed.

Lemma _toggleAudio_some w s sess pc muteAudio :
  sessions w !! s = Some sess ->
  session_pc w s = Some pc ->
  _toggleAudio s muteAudio w =
    (Ok tt, with_sessions
              (fun m => <[s := with_pc (toggle_pc AudioTrack (negb muteAudio) pc) sess]> m) w).
Proof.
  intros Hs. unfold session_pc, _toggleAudio. rewrite Hs. cbn.
  rewrite (bind_ok _ _ _ _ _ (deref_ok _ _ _ Hs)).
  destruct (sessionDescriptionHandler sess) as [[[pc'|]]|]; cbn; [|discriminate..].
  now intros [= ->].
Qed.

Lemma session_pc_tracks w s pc :
  session_pc w s = Some pc -> session_tracks w s = outgoing_tracks pc.
Proof. unfold session_tracks. now intros ->. Qed.

Lemma toggled_tracks k v l :
  Forall (fun t => kind t = k -> enabled t = v) (set_enabled k v <$> l).
Proof.
  induction l as [|t l IH]; csimpl; constructor; [|exact IH].
  rewrite set_enabled_kind. intros K. now apply set_enabled_same.
Qed.

(** The video tracks are left as they were. *)
Lemma toggled_video_tracks_kept v (l : list Track) :
  video_tracks (set_enabled AudioTrack v <$> l) = video_tracks l.
Proof.
  unfold video_tracks. induction l as [|t l IH]; csimpl; [reflexivity|].
  rewrite set_enabled_kind, IH.
  destruct (kind t) eqn:K; simpl; [reflexivity|].
  rewrite set_enabled_other; [reflexivity | congruence].
Qed.

Lemma toggleAudio_tracks w s sess pc muteAudio :
  sessions w !! s = Some sess ->
  session_pc w s = Some pc ->
  let r := _toggleAudio s muteAudio w in
  fst r = Ok tt /\
  audio_tracks_enabled (negb muteAudio) (snd r) s /\
  kind <$> session_tracks (snd r) s = kind <$> session_tracks w s /\
  video_tracks (session_tracks (snd r) s) = video_tracks (session_tracks w s) /\
  trace (snd r) = trace w /\ tasks (snd r) = tasks w /\ client (snd r) = client w.
Proof.
  intros Hs Hpc. cbv zeta. unfold audio_tracks_enabled.
  rewrite (_toggleAudio_some w s sess pc muteAudio Hs Hpc). cbn [fst snd].
  rewrite session_tracks_toggled, outgoing_tracks_toggle.
  rewrite (session_pc_tracks w s pc Hpc), toggled_kinds, toggled_video_tracks_kept.
  repeat split. apply toggled_tracks.
Qed.

(** X3. [mute] disables every outgoing audio track of the session and
    [unmute] enables them; the video tracks keep their state, no track
    is added or dropped, nothing is called and the client's fields are
    untouched.  On a session without session description handler or
    without peer connection both return without doing anything. *)
Theorem mute_disables_the_audio_tracks w s sess :
  sessions w !! s = Some sess ->
  (session_pc w s = None -> mute s w = (Ok tt, w) /\ unmute s w = (Ok tt, w)) /\
  (forall pc, session_pc w s = Some pc ->
     (let r := mute s w in
      fst r = Ok tt /\
      audio_tracks_enabled false (snd r) s /\
      kind <$> session_tracks (snd r) s = kind <$> session_tracks w s /\
      video_tracks (session_tracks (snd r) s) = video_tracks (session_tracks w s) /\
      trace (snd r) = trace w /\ tasks (snd r) = tasks w /\ client (snd r) = client w) /\
     (let r := unmute s w in
      fst r = Ok tt /\
      audio_tracks_enabled true (snd r) s /\
      kind <$> session_tracks (snd r) s = kind <$> session_tracks w s /\
      video_tracks (session_tracks (snd r) s) = video_tracks (session_tracks w s) /\
      trace (snd r) = trace w /\ tasks (snd r) = tasks w /\ client (snd r) = client w)).
Proof.
  intros Hs. split.
  - intros Hpc. split; now apply (_toggleAudio_none w s sess).
  - intros pc Hpc. split.
    + apply (toggleAudio_tracks w s sess pc true Hs Hpc).
    + apply (toggleAudio_tracks w s sess pc false Hs Hpc).
Qed.

Lemma mute_disables_the_audio_tracks_witness :
  let r := mute 0 camera_world in
  fst r = Ok tt /\
  audio_tracks_enabled false (snd r) 0 /\
  session_tracks (snd r) 0 = [mkTrack AudioTrack false; mkTrack VideoTrack false] /\
  trace (snd r) = trace camera_world.
Proof.
  cbv zeta.
  destruct (mute_disables_the_audio_tracks camera_world 0 camera_session eq_refl) as [_ H].
  destruct (H _ eq_refl) as [(H1 & H2 & _ & _ & H5 & _) _].
  split; [exact H1|]. split; [exact H2|]. split; [reflexivity | exact H5].
Defined.

Lemma set_enabled_twice k a b t : set_enabled k b (set_enabled k a t) = set_enabled k b t.
Proof. unfold set_enabled. destruct t as [[] e], k; reflexivity. Qed.

Lemma toggle_pc_twice k a b pc : toggle_pc k b (toggle_pc k a pc) = toggle_pc k b pc.
Proof.
  unfold toggle_pc. destruct (senders pc) as [ss|]; cbn; f_equal.
  - f_equal. rewrite <- list_fmap_compose. apply list_fmap_ext. intros _ [t] _.
    unfold compose, toggle_sender. cbn. f_equal.
    destruct t as [t|]; cbn; [|reflexivity]. now rewrite set_enabled_twice.
  - rewrite <- list_fmap_compose. apply list_fmap_ext. intros _ [i ts] _.
    unfold compose, toggle_stream. cbn. f_equal.
    rewrite <- list_fmap_compose. apply list_fmap_ext. intros _ t _.
    apply set_enabled_twice.
Qed.

Lemma toggleAudio_twice s a b w :
  _toggleAudio s b (snd (_toggleAudio s a w)) = _toggleAudio s b w.
Proof.
  destruct (sessions w !! s) as [sess|] eqn:Hs.
  - destruct (session_pc w s) as [pc|] eqn:Hpc.
    + rewrite (_toggleAudio_some w s sess pc a Hs Hpc). cbn [snd].
      erewrite (_toggleAudio_some _ s _ _ b);
        [| cbn; apply lookup_insert_eq
         | unfold session_pc; cbn; rewrite lookup_insert_eq; reflexivity].
      rewrite (_toggleAudio_some w s sess pc b Hs Hpc).
      f_equal. apply world_eq; cbn; try reflexivity.
      rewrite insert_insert_eq, toggle_pc_twice. reflexivity.
    + rewrite (_toggleAudio_none w s sess a Hs Hpc). reflexivity.
  - assert (E : forall c, _toggleAudio s c w = (Throw TypeError, w)).
    { intros c. unfold _toggleAudio, deref, session_at, bind, gets. now rewrite Hs. }
    now rewrite !E.
Qed.

(** X4. Of two calls of [mute] and [unmute] on a session the last one
    decides: [unmute] after [mute] is [unmute], [mute] after [unmute] is
    [mute], and either of them twice is the same as once.  This holds for
    every session reference and world, also where the call raises. *)
Theorem mute_unmute_last_call_wins s w :
  unmute s (snd (mute s w)) = unmute s w /\
  mute s (snd (unmute s w)) = mute s w /\
  mute s (snd (mute s w)) = mute s w /\
  unmute s (snd (unmute s w)) = unmute s w.
Proof. unfold mute, unmute. repeat split; apply toggleAudio_twice. Qed.

Lemma session_pc_inv w s sess pc :
  sessions w !! s = Some sess ->
  session_pc w s = Some pc ->
  exists sdh, sessionDescriptionHandler sess = Some sdh /\ peerConnection sdh = Some pc.
Proof.
  intros Hs. unfold session_pc. rewrite Hs. cbn.
  destruct (sessionDescriptionHandler sess) as [sdh|]; cbn; [|discriminate].
  intros H. now exists sdh.
Qed.

Lemma sessionHasAudio_senders w s sess pc ss :
  sessions w !! s = Some sess ->
  session_pc w s = Some pc ->
  senders pc = Some ss ->
  sessionHasAudio s w =
    (Ok (existsb (fun sender =>
                    match senderTrack sender with
                    | Some t => kind_eqb (kind t) AudioTrack && enabled t
                    | None => false
                    end) ss), w).
Proof.
  intros Hs Hpc Hss. destruct (session_pc_inv w s sess pc Hs Hpc) as (sdh & Hsdh & Hp).
  unfold sessionHasAudio.
  rewrite (bind_ok _ _ _ _ _ (deref_ok _ _ _ Hs)).
  rewrite Hsdh. cbn. rewrite Hp. cbn. now rewrite Hss.
Qed.

Lemma muted_senders_have_no_audio ss :
  existsb (fun sender =>
             match senderTrack sender with
             | Some t => kind_eqb (kind t) AudioTrack && enabled t
             | None => false
             end) (toggle_sender AudioTrack false <$> ss) = false.
Proof.
  induction ss as [|[[[[] e]|]] ss IH]; csimpl; try exact IH. reflexivity.
Qed.

Lemma unmuted_senders_have_audio ss :
  existsb (fun sender =>
             match senderTrack sender with
             | Some t => kind_eqb (kind t) AudioTrack && enabled t
             | None => false
             end) (toggle_sender AudioTrack true <$> ss)
  = existsb (fun t => kind_eqb (kind t) AudioTrack) (omap senderTrack ss).
Proof.
  induction ss as [|[[[[] e]|]] ss IH]; csimpl; try exact IH; reflexivity.
Qed.

(** X5. [sessionHasAudio] on a connection with [getSenders] tells
    whether some sender has an enabled audio track and changes nothing;
    so it is false right after [mute], and right after [unmute] it is
    true exactly when the session sends an audio track at all.  On a
    connection without [getSenders] it raises a TypeError. *)
Theorem sessionHasAudio_follows_mute w s sess pc :
  sessions w !! s = Some sess ->
  session_pc w s = Some pc ->
  (senders pc = None -> sessionHasAudio s w = (Throw TypeError, w)) /\
  (forall ss, senders pc = Some ss ->
     sessionHasAudio s w
       = (Ok (existsb (fun t => kind_eqb (kind t) AudioTrack && enabled t)
                      (session_tracks w s)), w) /\
     fst (sessionHasAudio s (snd (mute s w))) = Ok false /\
     fst (sessionHasAudio s (snd (unmute s w)))
       = Ok (existsb (fun t => kind_eqb (kind t) AudioTrack) (session_tracks w s))).
Proof.
  intros Hs Hpc. split.
  - intros Hno. destruct (session_pc_inv w s sess pc Hs Hpc) as (sdh & Hsdh & Hp).
    unfold sessionHasAudio, _getLocalStream.
    rewrite (bind_ok _ _ _ _ _ (deref_ok _ _ _ Hs)).
    rewrite Hsdh. cbn. rewrite Hp. cbn. rewrite Hno.
    unfold bind, ret. now rewrite Hno.
  - intros ss Hss.
    rewrite (session_pc_tracks w s pc Hpc). unfold outgoing_tracks. rewrite Hss.
    split; [|split].
    + rewrite (sessionHasAudio_senders w s sess pc ss Hs Hpc Hss). do 2 f_equal.
      clear. induction ss as [|[[t|]] ss IH]; cbn; [reflexivity | now rewrite IH | exact IH].
    + unfold mute. rewrite (_toggleAudio_some w s sess pc true Hs Hpc). cbn [snd negb].
      erewrite sessionHasAudio_senders;
        [| cbn; apply lookup_insert_eq
         | unfold session_pc; cbn; rewrite lookup_insert_eq; reflexivity
         | unfold toggle_pc; rewrite Hss; reflexivity].
      cbn [fst]. f_equal. apply muted_senders_have_no_audio.
    + unfold unmute. rewrite (_toggleAudio_some w s sess pc false Hs Hpc). cbn [snd negb].
      erewrite sessionHasAudio_senders;
        [| cbn; apply lookup_insert_eq
         | unfold session_pc; cbn; rewrite lookup_insert_eq; reflexivity
         | unfold toggle_pc; rewrite Hss; reflexivity].
      cbn [fst]. f_equal. apply unmuted_senders_have_audio.
Qed.

Lemma sessionHasAudio_follows_mute_witness :
  sessionHasAudio 0 camera_world = (Ok true, camera_world) /\
  fst (sessionHasAudio 0 (snd (mute 0 camera_world))) = Ok false /\
  fst (sessionHasAudio 0 (snd (unmute 0 camera_world))) = Ok true.
Proof.
  destruct (sessionHasAudio_follows_mute camera_world 0 camera_session
              (open_pc [mkSender (Some (mkTrack AudioTrack true));
                        mkSender (Some (mkTrack VideoTrack false))])
              eq_refl eq_refl) as [_ H].
  exact (H _ eq_refl).
Defined.

Lemma mute_ok w s sess b :
  sessions w !! s = Some sess ->
  _toggleAudio s b w = (Ok tt, snd (_toggleAudio s b w)) /\
  client (snd (_toggleAudio s b w)) = client w /\
  platform (snd (_toggleAudio s b w)) = platform w /\
  trace (snd (_toggleAudio s b w)) = trace w.
Proof.
  intros Hs. destruct (session_pc w s) as [pc|] eqn:Hpc.
  - rewrite (_toggleAudio_some w s sess pc b Hs Hpc). repeat split.
  - rewrite (_toggleAudio_none w s sess b Hs Hpc). repeat split.
Qed.

Lemma getMediaConfiguration_eq b w :
  _getMediaConfiguration b w =
    (Ok (mkMediaConfiguration
           (device_or_true (audio (client w)))
           (if negb (videoEnabled (client w)) then MBool false
            else device_or_true (video (client w)))
           (negb b) (mkRtcOptions (hasAudio (client w)) b)), w).
Proof.
  unfold _getMediaConfiguration.
  erewrite bind_ok by reflexivity.
  erewrite bind_ok by apply _getVideoConstraints_ok.
  reflexivity.
Qed.

Lemma hold_eq w s sess :
  sessions w !! s = Some sess ->
  forall c, fst (_getMediaConfiguration (videoEnabled (client w)) w) = Ok c ->
  hold s w = call (SessionHold s c) (snd (mute s w)) /\
  unhold s w = call (SessionUnhold s c) (snd (unmute s w)).
Proof.
  intros Hs c. rewrite getMediaConfiguration_eq. cbn [fst]. intros [= <-].
  unfold hold, unhold, mute, unmute. split.
  - destruct (mute_ok w s sess true Hs) as (E & C & _).
    erewrite bind_ok by exact E. erewrite bind_ok by reflexivity.
    erewrite bind_ok by apply getMediaConfiguration_eq. now rewrite C.
  - destruct (mute_ok w s sess false Hs) as (E & C & _).
    erewrite bind_ok by exact E. erewrite bind_ok by reflexivity.
    erewrite bind_ok by apply getMediaConfiguration_eq. now rewrite C.
Qed.

Lemma muted_tracks w s b : audio_tracks_enabled (negb b) (snd (_toggleAudio s b w)) s.
Proof.
  unfold audio_tracks_enabled.
  destruct (sessions w !! s) as [sess|] eqn:Hs.
  - destruct (session_pc w s) as [pc|] eqn:Hpc.
    + rewrite (_toggleAudio_some w s sess pc b Hs Hpc). cbn [snd].
      rewrite session_tracks_toggled, outgoing_tracks_toggle. apply toggled_tracks.
    + rewrite (_toggleAudio_none w s sess b Hs Hpc). cbn [snd].
      unfold session_tracks. rewrite Hpc. constructor.
  - unfold _toggleAudio, deref, session_at, bind, gets. rewrite Hs. cbn.
    unfold session_tracks, session_pc. rewrite Hs. constructor.
Qed.

(** X6. [hold] first mutes the session, then calls [session.hold] once,
    with the media configuration of the current [videoEnabled] (video
    disabled exactly when [videoEnabled] is off).  When [session.hold]
    raises, [hold] raises too, and the session stays muted. *)
Theorem hold_mutes_then_calls_hold w s sess :
  sessions w !! s = Some sess ->
  exists c,
    fst (_getMediaConfiguration (videoEnabled (client w)) w) = Ok c /\
    disableVideo c = negb (videoEnabled (client w)) /\
    snd (hold s w) = with_trace (fun t => t ++ [SessionHold s c]) (snd (mute s w)) /\
    trace (snd (hold s w)) = trace w ++ [SessionHold s c] /\
    audio_tracks_enabled false (snd (hold s w)) s /\
    fst (hold s w) = (if raises (platform w) (SessionHold s c)
                      then Throw ExternalError else Ok tt).
Proof.
  intros Hs. eexists. split; [rewrite getMediaConfiguration_eq; reflexivity|].
  split; [reflexivity|].
  destruct (hold_eq w s sess Hs _ (f_equal fst (getMediaConfiguration_eq _ w))) as [E _].
  destruct (mute_ok w s sess true Hs) as (_ & _ & P & T).
  rewrite E. unfold call, mute in *. rewrite P.
  assert (A : audio_tracks_enabled false
                (with_trace (fun t => t ++ [SessionHold s
                   (mkMediaConfiguration (device_or_true (audio (client w)))
                      (if negb (videoEnabled (client w)) then MBool false
                       else device_or_true (video (client w)))
                      (negb (videoEnabled (client w)))
                      (mkRtcOptions (hasAudio (client w)) (videoEnabled (client w))))])
                   (snd (_toggleAudio s true w))) s) by apply (muted_tracks w s true).
  destruct (raises (platform w) _); cbn [fst snd]; wsimpl; rewrite T; repeat split; exact A.
Qed.

Lemma hold_mutes_then_calls_hold_witness :
  exists c,
    fst (_getMediaConfiguration (videoEnabled (client camera_world)) camera_world) = Ok c /\
    disableVideo c = negb (videoEnabled (client camera_world)) /\
    snd (hold 0 camera_world)
      = with_trace (fun t => t ++ [SessionHold 0 c]) (snd (mute 0 camera_world)) /\
    trace (snd (hold 0 camera_world)) = trace camera_world ++ [SessionHold 0 c] /\
    audio_tracks_enabled false (snd (hold 0 camera_world)) 0 /\
    fst (hold 0 camera_world) = (if raises (platform camera_world) (SessionHold 0 c)
                                 then Throw ExternalError else Ok tt).
Proof. apply (hold_mutes_then_calls_hold camera_world 0 camera_session). reflexivity. Defined.

Lemma call_snd e w : snd (call e w) = with_trace (fun t => t ++ [e]) w.
Proof. unfold call. now destruct (raises (platform w) e). Qed.

Lemma toggleAudio_with_trace s b f w :
  snd (_toggleAudio s b (with_trace f w)) = with_trace f (snd (_toggleAudio s b w)).
Proof.
  destruct (sessions w !! s) as [sess|] eqn:Hs.
  - destruct (session_pc w s) as [pc|] eqn:Hpc.
    + rewrite (_toggleAudio_some w s sess pc b Hs Hpc).
      now rewrite (_toggleAudio_some (with_trace f w) s sess pc b Hs Hpc).
    + rewrite (_toggleAudio_none w s sess b Hs Hpc).
      now rewrite (_toggleAudio_none (with_trace f w) s sess b Hs Hpc).
  - unfold _toggleAudio, deref, session_at, bind, gets. cbn. now rewrite Hs.
Qed.

Lemma toggleAudio_keeps_session w s sess b :
  sessions w !! s = Some sess ->
  exists sess', sessions (snd (_toggleAudio s b w)) !! s = Some sess'.
Proof.
  intros Hs. destruct (session_pc w s) as [pc|] eqn:Hpc.
  - rewrite (_toggleAudio_some w s sess pc b Hs Hpc). cbn.
    rewrite lookup_insert_eq. now eexists.
  - rewrite (_toggleAudio_none w s sess b Hs Hpc). now exists sess.
Qed.

(** X7. [unhold] after [hold] leaves the session as [unmute] alone
    would (every outgoing audio track enabled, whatever it was before
    the hold), having called [session.hold] and then [session.unhold]
    with the same media configuration. *)
Theorem hold_then_unhold_unmutes w s sess :
  sessions w !! s = Some sess ->
  exists c,
    fst (_getMediaConfiguration (videoEnabled (client w)) w) = Ok c /\
    snd (unhold s (snd (hold s w)))
      = with_trace (fun t => t ++ [SessionHold s c; SessionUnhold s c]) (snd (unmute s w)) /\
    audio_tracks_enabled true (snd (unhold s (snd (hold s w)))) s.
Proof.
  intros Hs. eexists. split; [rewrite getMediaConfiguration_eq; reflexivity|].
  destruct (hold_eq w s sess Hs _ (f_equal fst (getMediaConfiguration_eq _ w))) as [E _].
  destruct (mute_ok w s sess true Hs) as (_ & C & _).
  destruct (toggleAudio_keeps_session w s sess true Hs) as (sess1 & Hs1).
  rewrite E, call_snd.
  match goal with |- context [unhold s ?w1] =>
    destruct (hold_eq w1 s sess1 Hs1 _ (f_equal fst (getMediaConfiguration_eq _ w1)))
      as [_ E1]
  end.
  rewrite E1, call_snd. unfold mute, unmute in *. wsimpl. rewrite C.
  rewrite toggleAudio_with_trace, toggleAudio_twice.
  assert (W : forall (w0 : World) e1 e2,
             with_trace (fun t => t ++ [e2]) (with_trace (fun t => t ++ [e1]) w0)
             = with_trace (fun t => t ++ [e1; e2]) w0).
  { intros w0 e1 e2. apply world_eq; cbn; try reflexivity. now rewrite <- app_assoc. }
  rewrite W. split; [reflexivity|]. apply (muted_tracks w s false).
Qed.

Lemma hold_then_unhold_unmutes_witness :
  exists c,
    fst (_getMediaConfiguration (videoEnabled (client camera_world)) camera_world) = Ok c /\
    snd (unhold 0 (snd (hold 0 camera_world)))
      = with_trace (fun t => t ++ [SessionHold 0 c; SessionUnhold 0 c])
          (snd (unmute 0 camera_world)) /\
    audio_tracks_enabled true (snd (unhold 0 (snd (hold 0 camera_world)))) 0.
Proof. apply (hold_then_unhold_unmutes camera_world 0 camera_session). reflexivity. Defined.

(** ** Hanging up in a browser *)

Lemma spares_refl w : spares w w.
Proof.
  repeat split. exists []. split; [now rewrite app_nil_r | constructor].
Qed.




Lemma keeps_elements_call e w :
  ends_session e = false -> keeps_elements w (with_trace (fun t => t ++ [e]) w).
Proof.
  intros He. repeat split. exists [e]. split; [reflexivity | now constructor].
Qed.

(** What [frames] needs of a relation, short of [Tolerant]. *)
Section Kept.
Context (R : World -> World -> Prop).
Hypothesis R_refl : forall w, R w w.
Hypothesis R_trans : forall w1 w2 w3, R w1 w2 -> R w2 w3 -> R w1 w3.







Lemma kept_modify f : (forall w, R w (f w)) -> frames R (modify f).
Proof. intros H w. apply H. Qed.




End Kept.




Lemma spares_client f w :
  hasAudio (f (client w)) = hasAudio (client w) -> spares w (with_client f w).
Proof.
  intros H. repeat split; [exact H|].
  exists []. split; [now rewrite app_nil_r | constructor].
Qed.

Lemma spares_call e w :
  ends_session e = false -> spares w (snd (call e w)).
Proof. intros He. rewrite call_snd. now apply keeps_elements_call. Qed.

Lemma call_cases e w :
  call e w = (Throw ExternalError, with_trace (fun t => t ++ [e]) w) \/
  call e w = (Ok tt, with_trace (fun t => t ++ [e]) w).
Proof. unfold call. destruct (raises (platform w) e); [now left | now right]. Qed.

Lemma bind_throws {A B} (m : M A) (f : A -> M B) w e w1 :
  m w = (Throw e, w1) -> bind m f w = (Throw e, w1).
Proof. unfold bind. now intros ->. Qed.

Lemma element_at_delete_eq key d : element_at key (delete_element key d) = None.
Proof.
  unfold element_at, delete_element. induction d as [|[k e] d IH]; cbn; [reflexivity|].
  destruct (String.eqb k key) eqn:E; cbn; [exact IH|]. now rewrite E.
Qed.

Lemma element_at_delete_ne key key' d :
  key <> key' -> element_at key' (delete_element key d) = element_at key' d.
Proof.
  intros Hne. unfold element_at, delete_element.
  induction d as [|[k e] d IH]; cbn; [reflexivity|].
  destruct (String.eqb k key) eqn:E; cbn.
  - apply String.eqb_eq in E as ->.
    destruct (String.eqb key key') eqn:E'; [|exact IH].
    apply String.eqb_eq in E'. contradiction.
  - destruct (String.eqb k key'); [reflexivity | exact IH].
Qed.

Lemma delete_element_id key d : element_at key d = None -> delete_element key d = d.
Proof.
  unfold element_at, delete_element. induction d as [|[k e] d IH]; cbn; [reflexivity|].
  destruct (String.eqb k key); cbn; [discriminate|]. intros H. now rewrite IH.
Qed.


(** [_cleanupMedia(session)] for a session that is there, in a browser
    with audio: the video session goes, then [cleanAudio] runs. *)
Lemma cleanupMedia_in_browser s sess w :
  sessions w !! s = Some sess ->
  isWeb (platform w) = true ->
  hasAudio (client w) = true ->
  exists w0,
    _cleanupMedia (Some s) w = cleanAudio (getSipSessionId (Some sess)) w0 /\
    spares w w0 /\
    audioElements (client w0) = audioElements (client w) /\
    videoSessions (client w0) = delete (getSipSessionId (Some sess)) (videoSessions (client w)) /\
    trace w0 = trace w /\
    userAgent (client w0) = userAgent (client w).
Proof.
  intros Hs Hweb Ha. unfold _cleanupMedia, session_at, _hasAudio, _isWeb.
  erewrite bind_ok by reflexivity. rewrite Hs. cbv zeta.
  erewrite bind_ok by reflexivity. cbn [is_some andb].
  destruct (is_some (videoSessions (client w) !! getSipSessionId (Some sess))
            || inherited (getSipSessionId (Some sess))) eqn:V; cbn [when].
  - erewrite bind_ok by reflexivity. erewrite bind_ok by reflexivity.
    erewrite bind_ok by reflexivity. wsimpl. rewrite Ha, Hweb. cbn [andb when].
    eexists. split; [reflexivity|]. split; [now apply spares_client|]. repeat split.
  - erewrite bind_ok by reflexivity. erewrite bind_ok by reflexivity.
    erewrite bind_ok by reflexivity. rewrite Ha, Hweb. cbn [andb when].
    exists w. split; [reflexivity|]. split; [apply spares_refl|]. split; [reflexivity|].
    split; [|split; reflexivity]. symmetry. apply delete_id.
    apply orb_false_iff in V as [V _].
    now destruct (videoSessions (client w) !! getSipSessionId (Some sess)).
Qed.




(** ** Hanging up where there is no audio element to clean *)

Lemma cleanupMedia_without_elements s sess w :
  sessions w !! s = Some sess ->
  hasAudio (client w) && isWeb (platform w) = false ->
  _cleanupMedia (Some s) w =
    (Ok tt, with_client (fun c => set_videoSessions
                           (delete (getSipSessionId (Some sess)) (videoSessions c)) c) w).
Proof.
  intros Hs Hno. unfold _cleanupMedia, session_at, _hasAudio, _isWeb.
  erewrite bind_ok by reflexivity. rewrite Hs. cbv zeta.
  erewrite bind_ok by reflexivity. cbn [is_some andb].
  destruct (is_some (videoSessions (client w) !! getSipSessionId (Some sess))
            || inherited (getSipSessionId (Some sess))) eqn:V; cbn [when].
  - erewrite bind_ok by reflexivity. erewrite bind_ok by reflexivity.
    erewrite bind_ok by reflexivity. wsimpl. rewrite Hno. reflexivity.
  - assert (N : videoSessions (client w) !! getSipSessionId (Some sess) = None).
    { apply orb_false_iff in V as [V _].
      now destruct (videoSessions (client w) !! getSipSessionId (Some sess)). }
    erewrite bind_ok by reflexivity. erewrite bind_ok by reflexivity.
    erewrite bind_ok by reflexivity. rewrite Hno. cbn [when]. unfold ret. f_equal.
    apply world_eq; try reflexivity. cbn. rewrite delete_id by exact N.
    now destruct (client w).
Qed.

Lemma hangup_body_without_elements s sess w :
  sessions w !! s = Some sess ->
  hasAudio (client w) && isWeb (platform w) = false ->
  in_audioStreams (getSipSessionId (Some sess)) (audioStreams (client w)) = false ->
  hangup_body s w =
    (let isISC := cancel_defined sess in
     let stop_and_reject :=
       (when (stop_defined sess) (call (SessionStop s)) ;;
        hangup_reject s)%js in
     if actions (status sess) then (hangup_cancel s isISC ;; ret None)%js
     else if isISC then
       if hasAnswer sess && bye_defined sess then
         (call (SessionBye s) ;; ret (Some (SessionBye s)))%js
       else if negb (hasAnswer sess) then (hangup_cancel s isISC ;; ret None)%js
       else stop_and_reject
     else stop_and_reject)
      (with_client (fun c => set_videoSessions
                      (delete (getSipSessionId (Some sess)) (videoSessions c)) c) w).
Proof.
  intros Hs Hno He. unfold hangup_body.
  erewrite bind_ok by (apply (cleanupMedia_without_elements s sess); assumption).
  set (w0 := with_client _ w).
  assert (Hs0 : sessions w0 !! s = Some sess) by exact Hs.
  assert (Hno0 : hasAudio (client w0) && isWeb (platform w0) = false) by exact Hno.
  assert (He0 : in_audioStreams (getSipSessionId (Some sess)) (audioStreams (client w0)) = false)
    by exact He.
  assert (D : with_client (fun c => set_videoSessions
                 (delete (getSipSessionId (Some sess)) (videoSessions c)) c) w0 = w0).
  { apply world_eq; try reflexivity. cbn. now rewrite delete_delete_eq. }
  clearbody w0.
  unfold sessionId, session_at.
  erewrite bind_ok by reflexivity. erewrite bind_ok by reflexivity. rewrite Hs0.
  rewrite He0.
  erewrite bind_ok by reflexivity.
  erewrite bind_ok by (apply (cleanupMedia_without_elements s sess); assumption).
  rewrite D. erewrite bind_ok by (apply deref_ok; exact Hs0). reflexivity.
Qed.

(** X9. Where there is no audio element to clean (no DOM, or audio
    off), the session has no MergeEntry and no platform call raises,
    [hangup] forgets the session's video streams, and then it depends
    on [id in this.audioStreams].  Where that is false, [hangup] ends
    the session with exactly one call: [bye], whose value it returns,
    for an answered call that has [cancel] and [bye] and is in neither
    ringing status; [cancel] for a call that has [cancel], has no answer
    and is not canceled yet; [reject] for a session without [cancel]
    that is ringing and not yet canceled; in the last two cases it
    returns undefined.  Where it is true, as for an id that objects
    inherit ("toString"), [hangup] ends nothing: [removeFromMerge]
    raises, and [hangup] returns null after logging the warning, having
    made no call. *)
Theorem hangup_ends_the_session s sess w :
  sessions w !! s = Some sess ->
  hasAudio (client w) && isWeb (platform w) = false ->
  audioStreams (client w) !! getSipSessionId (Some sess) = None ->
  calm w ->
  let w0 := with_client (fun c => set_videoSessions
                (delete (getSipSessionId (Some sess)) (videoSessions c)) c) w in
  (in_audioStreams (getSipSessionId (Some sess)) (audioStreams (client w)) = true ->
   hangup s w = (Ok None,
                 with_trace (fun t => t ++ [ConsoleWarn "WebRtcClient.hangup error"]) w0)) /\
  (in_audioStreams (getSipSessionId (Some sess)) (audioStreams (client w)) = false ->
   (cancel_defined sess = true -> hasAnswer sess = true -> bye_defined sess = true ->
    status sess <> STATUS_1XX_RECEIVED -> status sess <> STATUS_WAITING_FOR_ANSWER ->
    hangup s w = (Ok (Some (SessionBye s)), with_trace (fun t => t ++ [SessionBye s]) w0)) /\
   (cancel_defined sess = true -> hasAnswer sess = false -> isCanceled sess = false ->
    hangup s w = (Ok None, with_trace (fun t => t ++ [SessionCancel s]) w0)) /\
   (cancel_defined sess = false -> reject_defined sess = true -> _canceled sess = false ->
    status sess = STATUS_1XX_RECEIVED \/ status sess = STATUS_WAITING_FOR_ANSWER ->
    hangup s w = (Ok None, with_trace (fun t => t ++ [SessionReject s]) w0))).
Proof.
  intros Hs Hno Hnone Hq. cbv zeta. split.
  { intros Hin. unfold hangup, try_catch, hangup_body.
    erewrite bind_ok by (apply (cleanupMedia_without_elements s sess); assumption).
    set (w0 := with_client _ w).
    assert (Hs0 : sessions w0 !! s = Some sess) by exact Hs.
    assert (Hn0 : audioStreams (client w0) !! getSipSessionId (Some sess) = None) by exact Hnone.
    assert (T0 : trace w0 = trace w) by reflexivity.
    unfold sessionId, session_at.
    erewrite bind_ok by reflexivity. erewrite bind_ok by reflexivity. rewrite Hs0.
    assert (Hin0 : in_audioStreams (getSipSessionId (Some sess)) (audioStreams (client w0)) = true)
      by exact Hin.
    rewrite Hin0.
    assert (R : removeFromMerge s true w0 = (Throw TypeError, w0)).
    { unfold removeFromMerge, sessionId, session_at.
      erewrite bind_ok by (apply deref_ok; exact Hs0).
      destruct (sessionDescriptionHandler sess) as [sdh|]; [|reflexivity].
      cbn [unwrap]. erewrite bind_ok by reflexivity. cbv zeta.
      erewrite bind_ok by reflexivity. erewrite bind_ok by reflexivity.
      rewrite Hs0, Hn0. reflexivity. }
    unfold bind at 1. unfold bind at 1. unfold bind at 1. rewrite R. reflexivity. }
  intros He. unfold hangup, try_catch.
  rewrite (hangup_body_without_elements s sess w Hs Hno He). cbv zeta.
  set (w0 := with_client _ w).
  assert (Hs0 : sessions w0 !! s = Some sess) by exact Hs.
  assert (Hq0 : calm w0) by exact Hq.
  clearbody w0.
  split; [|split].
  - intros Hc Ha Hb N1 N2. rewrite Hc, Ha, Hb. cbn [andb].
    assert (A : actions (status sess) = false)
      by (destruct (status sess) eqn:St; try reflexivity; congruence).
    rewrite A. erewrite bind_ok by (apply call_ok, Hq0). reflexivity.
  - intros Hc Ha Hi. rewrite Hc, Ha. cbn [andb negb].
    assert (E : hangup_cancel s true w0
                = (Ok tt, with_trace (fun t => t ++ [SessionCancel s]) w0)).
    { unfold hangup_cancel.
      erewrite bind_ok by (apply deref_ok; exact Hs0). rewrite Hi. cbn [andb negb].
      now apply call_ok. }
    destruct (actions (status sess)); erewrite bind_ok by exact E; reflexivity.
  - intros Hc Hr Hcd Hst. rewrite Hc.
    assert (A : actions (status sess) = true) by (destruct Hst as [-> | ->]; reflexivity).
    rewrite A.
    assert (E : hangup_cancel s false w0
                = (Ok tt, with_trace (fun t => t ++ [SessionReject s]) w0)).
    { unfold hangup_cancel. erewrite bind_ok by (apply deref_ok; exact Hs0).
      rewrite Hcd, Hr. cbn [andb negb].
      erewrite bind_ok by reflexivity. now apply call_ok. }
    erewrite bind_ok by exact E. reflexivity.
Qed.

Lemma hangup_ends_the_session_witness :
  hangup 0 phone_world
    = (Ok (Some (SessionBye 0)), with_trace (fun t => t ++ [SessionBye 0]) phone_world) /\
  hangup 1 phone_world
    = (Ok None, with_trace (fun t => t ++ [SessionCancel 1]) phone_world) /\
  hangup 2 phone_world
    = (Ok None, with_trace (fun t => t ++ [SessionReject 2]) phone_world).
Proof.
  assert (Hq : calm phone_world) by (intros e; reflexivity).
  assert (W : with_client (fun c => set_videoSessions (delete "call-a" (videoSessions c)) c)
                phone_world = phone_world) by (vm_compute; reflexivity).
  assert (W1 : with_client (fun c => set_videoSessions (delete "call-7" (videoSessions c)) c)
                 phone_world = phone_world) by (vm_compute; reflexivity).
  assert (W2 : with_client (fun c => set_videoSessions (delete "call-6" (videoSessions c)) c)
                 phone_world = phone_world) by (vm_compute; reflexivity).
  destruct (hangup_ends_the_session 0 (call_session "call-a") phone_world
              eq_refl eq_refl eq_refl Hq) as (_ & H0).
  destruct (hangup_ends_the_session 1 dialing_session phone_world
              eq_refl eq_refl eq_refl Hq) as (_ & H1).
  destruct (hangup_ends_the_session 2 (invited_session video_offer) phone_world
              eq_refl eq_refl eq_refl Hq) as (_ & H2).
  destruct (H0 eq_refl) as (B & _ & _).
  destruct (H1 eq_refl) as (_ & C & _).
  destruct (H2 eq_refl) as (_ & _ & R).
  cbn [getSipSessionId call_session dialing_session invited_session request callId truthy
       String.eqb negb] in B, C, R.
  split; [|split].
  - rewrite <- W at 2. apply B; try reflexivity; discriminate.
  - rewrite <- W1 at 2. apply C; reflexivity.
  - rewrite <- W2 at 2. apply R; try reflexivity. now right.
Defined.

(** ** Cleaning up media *)

Lemma cleanAudio_calm key el w :
  calm w ->
  element_at key (audioElements (client w)) = Some el ->
  cleanAudio key w =
    (Ok tt,
     with_client (fun c => set_audioElements (delete_element key (audioElements c)) c)
       (with_trace (fun t => t ++ ElementPause key ::
                          (if parentNode el then [ElementRemoveChild key] else [])) w)).
Proof.
  intros Hq E. unfold cleanAudio. erewrite bind_ok by reflexivity. rewrite E. cbn [unwrap].
  erewrite bind_ok by reflexivity. erewrite bind_ok by (apply call_ok, Hq).
  destruct (parentNode el); cbn [when].
  - erewrite bind_ok by (apply call_ok, Hq). unfold assign, modify. f_equal.
    apply world_eq; cbn; try reflexivity. now rewrite <- app_assoc.
  - erewrite bind_ok by reflexivity. reflexivity.
Qed.



(** ** Video sessions *)

Lemma initializeVideoSession_eq id w :
  _initializeVideoSession id w =
    (Ok tt,
     if is_some (videoSessions (client w) !! id) || inherited id then w
     else with_client (fun c => set_videoSessions
                         (<[id := mkVideoSession None []]> (videoSessions c)) c) w).
Proof.
  unfold _initializeVideoSession. erewrite bind_ok by reflexivity.
  now destruct (is_some (videoSessions (client w) !! id) || inherited id).
Qed.

Lemma addLocalToVideoSession_eq id st w :
  inherited id = false ->
  _addLocalToVideoSession id st w =
    (Ok tt,
     with_client (fun c => set_videoSessions
        (<[id := mkVideoSession st
                   (match videoSessions (client w) !! id with
                    | Some v => vsRemotes v
                    | None => []
                    end)]> (videoSessions c)) c) w).
Proof.
  intros Hown. unfold _addLocalToVideoSession.
  erewrite bind_ok by apply initializeVideoSession_eq.
  rewrite Hown, orb_false_r.
  erewrite bind_ok by reflexivity.
  destruct (videoSessions (client w) !! id) as [v|] eqn:V; cbn [is_some].
  - rewrite V. reflexivity.
  - wsimpl. rewrite lookup_insert_eq. unfold assign, modify. f_equal.
    apply world_eq; try reflexivity. cbn. now rewrite insert_insert_eq.
Qed.

Lemma addRemoteToVideoSession_eq id r w :
  inherited id = false ->
  _addRemoteToVideoSession id r w =
    (Ok tt,
     with_client (fun c => set_videoSessions
        (<[id := match videoSessions (client w) !! id with
                 | Some v => mkVideoSession (vsLocal v) (vsRemotes v ++ [r])
                 | None => mkVideoSession None [r]
                 end]> (videoSessions c)) c) w).
Proof.
  intros Hown. unfold _addRemoteToVideoSession.
  erewrite bind_ok by apply initializeVideoSession_eq.
  rewrite Hown, orb_false_r.
  erewrite bind_ok by reflexivity.
  destruct (videoSessions (client w) !! id) as [v|] eqn:V; cbn [is_some].
  - rewrite V. reflexivity.
  - wsimpl. rewrite lookup_insert_eq. cbn [unwrap].
    erewrite bind_ok by reflexivity. unfold assign, modify. f_equal.
    apply world_eq; try reflexivity. cbn. now rewrite insert_insert_eq.
Qed.

Lemma some_has_video_pure l w : snd (some_has_video l w) = w.
Proof.
  induction l as [|[st|] l IH]; cbn [some_has_video]; try reflexivity.
  destruct (has_video_track st); [reflexivity | exact IH].
Qed.

Lemma some_has_video_fst l (w1 w2 : World) :
  fst (some_has_video l w1) = fst (some_has_video l w2).
Proof.
  induction l as [|[x|] l IH]; cbn [some_has_video]; try reflexivity.
  destruct (has_video_track x); [reflexivity | exact IH].
Qed.

(** One more remote stream: the answer changes only where the search
    gets to it. *)
Lemma some_has_video_snoc l r w :
  fst (some_has_video (l ++ [r]) w) =
    match fst (some_has_video l w) with
    | Ok true => Ok true
    | Ok false => match r with
                  | Some st => Ok (has_video_track st)
                  | None => Throw TypeError
                  end
    | Throw e => Throw e
    end.
Proof.
  induction l as [|[st|] l IH]; cbn [some_has_video app].
  - destruct r as [st|]; cbn; [|reflexivity]. now destruct (has_video_track st).
  - destruct (has_video_track st); [reflexivity | exact IH].
  - reflexivity.
Qed.

(** X11. The video sessions are kept per session id, for an id that is
    not a name objects inherit.  [_addLocalToVideoSession(id, stream)]
    returns without any call, and afterwards [sessionHasLocalVideo(id)]
    tells whether that stream has a video track (false for an undefined
    stream), while the remote streams of [id] and the entries of other
    ids are as before.  [_addRemoteToVideoSession(id, stream)] appends
    what it is given, a stream or undefined, to the remote streams of
    [id]; [sessionHasRemoteVideo(id)] then answers as before where it
    was true or raised, and otherwise tells whether the new stream has a
    video track, raising a TypeError where that is undefined; the local
    stream of [id] and the other entries are as before.  For an id that
    objects inherit ("constructor") no entry is made:
    [_addLocalToVideoSession] assigns to the member of
    [Object.prototype] of that name, and [_addRemoteToVideoSession]
    raises a TypeError. *)
Theorem video_sessions_are_kept_per_id id w :
  (inherited id = false ->
   (forall st,
      let w1 := snd (_addLocalToVideoSession id st w) in
      fst (_addLocalToVideoSession id st w) = Ok tt /\
      trace w1 = trace w /\
      fst (sessionHasLocalVideo id w1)
        = Ok (match st with Some x => has_video_track x | None => false end) /\
      fst (getRemoteVideoStreamsForSession id w1) = fst (getRemoteVideoStreamsForSession id w) /\
      fst (sessionHasRemoteVideo id w1) = fst (sessionHasRemoteVideo id w) /\
      forall id', id' <> id ->
        videoSessions (client w1) !! id' = videoSessions (client w) !! id') /\
   (forall r,
      let w1 := snd (_addRemoteToVideoSession id r w) in
      fst (_addRemoteToVideoSession id r w) = Ok tt /\
      (exists old,
         fst (getRemoteVideoStreamsForSession id w) = Ok old /\
         fst (getRemoteVideoStreamsForSession id w1) = Ok (old ++ [r])) /\
      fst (sessionHasRemoteVideo id w1)
        = match fst (sessionHasRemoteVideo id w) with
          | Ok true => Ok true
          | Ok false => match r with
                        | Some st => Ok (has_video_track st)
                        | None => Throw TypeError
                        end
          | Throw e => Throw e
          end /\
      fst (sessionHasLocalVideo id w1) = fst (sessionHasLocalVideo id w) /\
      forall id', id' <> id ->
        videoSessions (client w1) !! id' = videoSessions (client w) !! id')) /\
  (inherited id = true -> videoSessions (client w) !! id = None ->
   (forall st, _addLocalToVideoSession id st w
               = (Ok tt, with_trace (fun t => t ++ [MemberAssign id st]) w)) /\
   (forall r, _addRemoteToVideoSession id r w = (Throw TypeError, w))).
Proof.
  split.
  - intros Hown. split.
    + intros st. cbv zeta. rewrite addLocalToVideoSession_eq by exact Hown. cbn [fst snd].
      unfold sessionHasLocalVideo, getRemoteVideoStreamsForSession, sessionHasRemoteVideo.
      split; [reflexivity|]. split; [reflexivity|].
      repeat (erewrite bind_ok by reflexivity). wsimpl. rewrite lookup_insert_eq. cbn.
      split; [reflexivity|].
      split; [now destruct (videoSessions (client w) !! id)|].
      split.
      * destruct (videoSessions (client w) !! id) as [v|]; cbn; [|reflexivity].
        apply some_has_video_fst.
      * intros id' Hne. now rewrite lookup_insert_ne.
    + intros r. cbv zeta. rewrite addRemoteToVideoSession_eq by exact Hown. cbn [fst snd].
      unfold sessionHasLocalVideo, getRemoteVideoStreamsForSession, sessionHasRemoteVideo.
      split; [reflexivity|].
      repeat (erewrite bind_ok by reflexivity). wsimpl. rewrite lookup_insert_eq.
      split; [|split; [|split]].
      * destruct (videoSessions (client w) !! id) as [v|]; cbn.
        -- now exists (vsRemotes v).
        -- now exists [].
      * destruct (videoSessions (client w) !! id) as [v|]; cbn [vsRemotes].
        -- rewrite some_has_video_snoc. now rewrite (some_has_video_fst _ _ w).
        -- destruct r as [x|]; cbn; [|reflexivity]. now destruct (has_video_track x).
      * now destruct (videoSessions (client w) !! id).
      * intros id' Hne. now rewrite lookup_insert_ne.
  - intros Hin Hnone. split.
    + intros st. unfold _addLocalToVideoSession.
      erewrite bind_ok by apply initializeVideoSession_eq.
      rewrite Hin, orb_true_r.
      erewrite bind_ok by reflexivity. rewrite Hnone. reflexivity.
    + intros r. unfold _addRemoteToVideoSession.
      erewrite bind_ok by apply initializeVideoSession_eq.
      rewrite Hin, orb_true_r.
      erewrite bind_ok by reflexivity. rewrite Hnone. reflexivity.
Qed.

Lemma video_sessions_are_kept_per_id_witness :
  fst (sessionHasRemoteVideo "call-a" video_world) = Ok false /\
  fst (sessionHasRemoteVideo "call-a"
         (snd (_addRemoteToVideoSession "call-a" None video_world))) = Throw TypeError /\
  fst (sessionHasRemoteVideo "call-a"
         (snd (_addRemoteToVideoSession "call-a"
                 (Some (mkStream 3 [mkTrack VideoTrack true])) video_world))) = Ok true /\
  _addRemoteToVideoSession "constructor" None video_world = (Throw TypeError, video_world) /\
  _addLocalToVideoSession "constructor" None video_world
    = (Ok tt, with_trace (fun t => t ++ [MemberAssign "constructor" None]) video_world).
Proof.
  destruct (video_sessions_are_kept_per_id "call-a" video_world) as [[_ H] _]; [reflexivity|].
  destruct (video_sessions_are_kept_per_id "constructor" video_world) as [_ [L R]];
    [reflexivity | reflexivity |].
  split; [reflexivity|]. split; [|split; [|split]].
  - destruct (H None) as (_ & _ & E & _). exact E.
  - destruct (H (Some (mkStream 3 [mkTrack VideoTrack true]))) as (_ & _ & E & _). exact E.
  - apply R.
  - apply L.
Defined.




(** ** The user agent *)

(** What [_createWebRTCConfiguration] depends on is the client and the
    platform; its media constraints are those of the client. *)
Lemma createWebRTCConfiguration_eq w cfg :
  config (client w) = Some cfg ->
  exists c,
    (forall w', client w' = client w -> platform w' = platform w ->
       _createWebRTCConfiguration w' = (Ok c, w')) /\
    ua_constraintsAudio c = device_or_true (audio (client w)) /\
    ua_constraintsVideo c = (if negb (videoEnabled (client w)) then MBool false
                             else device_or_true (video (client w))) /\
    ua_iceServers c = Ice.getIceServers (host cfg) /\
    ua_mobile c = negb (isWeb (platform w)).
Proof.
  intros Hc. eexists. split.
  - intros w' C P. unfold _createWebRTCConfiguration.
    erewrite bind_ok by reflexivity. rewrite C, Hc. cbn [unwrap].
    erewrite bind_ok by reflexivity.
    erewrite bind_ok by reflexivity.
    erewrite bind_ok by apply _getVideoConstraints_ok.
    unfold _getRtcOptions, _hasAudio, _isWeb, this, gets, bind, ret. rewrite C, P.
    reflexivity.
  - repeat split.
Qed.

Lemma createUserAgent_eq w c :
  _createWebRTCConfiguration w = (Ok c, w) ->
  calm w ->
  createUserAgent w =
    (Ok (mkUA (fresh w) c false),
     mkWorld (client w) (platform w) (sessions w) (edges w) (tasks w)
       (S (fresh w)) (trace w ++ agent_calls (fresh w) c)).
Proof.
  intros Ec Hq. unfold createUserAgent, _bindRegistrationEvents, agent_calls.
  generalize (List.filter (fun e => negb (String.eqb e "invite") && negb (String.eqb e "new"))
                events), transportEvents.
  intros evs tevs.
  erewrite bind_ok by exact Ec.
  erewrite bind_ok by reflexivity.
  erewrite bind_ok by (apply call_ok, Hq).
  erewrite bind_ok by (apply forEach_call_ok, Hq).
  erewrite bind_ok by (apply call_ok, Hq).
  erewrite bind_ok by (apply forEach_call_ok, Hq).
  erewrite (bind_ok (bind _ _)).
  2:{ erewrite bind_ok by (apply call_ok, Hq).
      erewrite bind_ok by (apply call_ok, Hq).
      apply call_ok, Hq. }
  unfold ret. f_equal. apply world_eq; wsimpl; try reflexivity.
  rewrite <- !app_assoc. reflexivity.
Qed.

Lemma no_register_in_agent_calls ua c :
  Forall (fun e => forall i, e <> UaRegister i) (agent_calls ua c).
Proof.
  unfold agent_calls.
  generalize (List.filter (fun e => negb (String.eqb e "invite") && negb (String.eqb e "new"))
                events), transportEvents.
  intros evs tevs. apply List.Forall_forall. intros e Hin i ->.
  repeat match goal with
         | H : In _ (_ ++ _) |- _ => apply in_app_or in H as [H | H]
         | H : In _ (_ :: _) |- _ => destruct H as [H | H]; [discriminate H|]
         | H : In _ [] |- _ => destruct H
         | H : In _ (_ <$> _) |- _ => apply in_map_iff in H as (? & [=] & _)
         end.
Qed.

(** X13. [changeAudioInputDevice(id)] and [changeVideoInputDevice(id)]
    replace the user agent: the old one, if any, is disconnected,
    stopped and stripped of its listeners (in that order for audio;
    disconnected, stripped, stopped for video), and a new one is made
    whose audio (video) constraint is the device, or true for an empty
    id; the video constraint stays false while video is not enabled.
    The new agent is not registered and [register] is not called, while
    the client's [registered] flag keeps its old value. *)
Theorem changing_the_input_device_replaces_the_agent dev w cfg :
  config (client w) = Some cfg ->
  calm w ->
  let old_calls order :=
    match userAgent (client w) with
    | Some u => order (uaId u)
    | None => []
    end in
  (exists ua w',
     changeAudioInputDevice dev w = (Ok tt, w') /\
     userAgent (client w') = Some ua /\
     uaId ua = fresh w /\
     uaIsRegistered ua = false /\
     ua_constraintsAudio (uaConfiguration ua) = device_constraint dev /\
     registered (client w') = registered (client w) /\
     trace w' = trace w
                ++ old_calls (fun u => [UaTransportDisconnect u; UaStop u; UaRemoveAllListeners u])
                ++ agent_calls (uaId ua) (uaConfiguration ua)) /\
  (exists ua w',
     changeVideoInputDevice dev w = (Ok tt, w') /\
     userAgent (client w') = Some ua /\
     uaId ua = fresh w /\
     uaIsRegistered ua = false /\
     ua_constraintsVideo (uaConfiguration ua)
       = (if videoEnabled (client w) then device_constraint dev else MBool false) /\
     registered (client w') = registered (client w) /\
     trace w' = trace w
                ++ old_calls (fun u => [UaTransportDisconnect u; UaRemoveAllListeners u; UaStop u])
                ++ agent_calls (uaId ua) (uaConfiguration ua)) /\
  (forall ua c i, ~ In (UaRegister i) (agent_calls ua c)).
Proof.
  intros Hc Hq. cbv zeta.
  assert (D : device_or_true (device_constraint dev) = device_constraint dev).
  { unfold device_constraint. destruct (truthy dev) eqn:T; cbn; [now rewrite T | reflexivity]. }
  split; [|split].
  3:{ intros ua c i Hin. pose proof (no_register_in_agent_calls ua c) as F.
      rewrite List.Forall_forall in F. now apply (F _ Hin i). }
  - unfold changeAudioInputDevice.
    erewrite bind_ok by reflexivity. erewrite bind_ok by reflexivity.
    set (w1 := with_client (set_audio (if truthy dev then MDevice dev else MBool true)) w).
    destruct (createWebRTCConfiguration_eq w1 cfg Hc) as (c & Ec & Ca & _).
    set (tr0 := match userAgent (client w) with
                | Some u => [UaTransportDisconnect (uaId u); UaStop (uaId u);
                             UaRemoveAllListeners (uaId u)]
                | None => []
                end).
    erewrite (bind_ok _ _ _ tt (with_trace (fun t => t ++ tr0) w1)).
    2:{ subst tr0. cbn [userAgent client w1 with_client set_audio].
        destruct (userAgent (client w)) as [u|].
        - erewrite bind_ok by (apply call_ok, Hq).
          erewrite bind_ok by (apply call_ok, Hq).
          rewrite call_ok by apply Hq. f_equal.
          apply world_eq; cbn; try reflexivity. now rewrite <- !app_assoc.
        - unfold ret. f_equal. apply world_eq; cbn; try reflexivity. now rewrite app_nil_r. }
    erewrite bind_ok.
    2:{ apply (createUserAgent_eq _ c); [now apply Ec | exact Hq]. }
    eexists _, _. split; [reflexivity|]. cbn.
    split; [reflexivity|]. split; [reflexivity|]. split; [reflexivity|].
    cbn [uaConfiguration uaId].
    split; [rewrite Ca; exact D|]. split; [reflexivity|].
    now rewrite <- app_assoc.
  - unfold changeVideoInputDevice.
    erewrite bind_ok by reflexivity. erewrite bind_ok by reflexivity.
    set (w1 := with_client (set_video (if truthy dev then MDevice dev else MBool true)) w).
    destruct (createWebRTCConfiguration_eq w1 cfg Hc) as (c & Ec & _ & Cv & _).
    set (tr0 := match userAgent (client w) with
                | Some u => [UaTransportDisconnect (uaId u); UaRemoveAllListeners (uaId u);
                             UaStop (uaId u)]
                | None => []
                end).
    erewrite (bind_ok _ _ _ tt (with_trace (fun t => t ++ tr0) w1)).
    2:{ subst tr0. cbn [userAgent client w1 with_client set_video].
        destruct (userAgent (client w)) as [u|].
        - erewrite bind_ok by (apply call_ok, Hq).
          erewrite bind_ok by (apply call_ok, Hq).
          rewrite call_ok by apply Hq. f_equal.
          apply world_eq; cbn; try reflexivity. now rewrite <- !app_assoc.
        - unfold ret. f_equal. apply world_eq; cbn; try reflexivity. now rewrite app_nil_r. }
    erewrite bind_ok.
    2:{ apply (createUserAgent_eq _ c); [now apply Ec | exact Hq]. }
    eexists _, _. split; [reflexivity|]. cbn.
    split; [reflexivity|]. split; [reflexivity|]. split; [reflexivity|].
    cbn [uaConfiguration uaId].
    split.
    { rewrite Cv. cbn. destruct (videoEnabled (client w)); cbn; [exact D | reflexivity]. }
    split; [reflexivity|]. now rewrite <- app_assoc.
Qed.

Lemma changing_the_input_device_replaces_the_agent_witness :
  exists ua w',
    changeAudioInputDevice "mic-2" registered_world = (Ok tt, w') /\
    userAgent (client w') = Some ua /\
    uaIsRegistered ua = false /\
    ua_constraintsAudio (uaConfiguration ua) = MDevice "mic-2" /\
    registered (client w') = true /\
    trace w' = [UaTransportDisconnect 7; UaStop 7; UaRemoveAllListeners 7]
               ++ agent_calls (uaId ua) (uaConfiguration ua).
Proof.
  destruct (changing_the_input_device_replaces_the_agent "mic-2" registered_world sample_config)
    as [(ua & w' & E & U & _ & R & C & G & T) _].
  - reflexivity.
  - intros e. reflexivity.
  - exists ua, w'. repeat split; assumption.
Defined.

(** ** Registration events *)

(** X14. The listener of the transport's 'disconnected' and of the
    agent's 'unregistered' marks the client as not registered and, unless
    a retry loop is running, starts one: tries 0, one timer of delay 0
    with the default callback, nothing called.  While a loop is running
    only the [registered] flag changes; the tries are not reset. *)
Theorem disconnect_restarts_registration w :
  (registering (client w) = true ->
   onDisconnected w = (Ok tt, with_client (set_registered false) w)) /\
  (registering (client w) = false ->
   let w' := snd (onDisconnected w) in
   fst (onDisconnected w) = Ok tt /\
   registered (client w') = false /\
   registering (client w') = true /\
   registerTries (client w') = 0 /\
   registerTimeout (client w') = Some (fresh w) /\
   tasks w' = tasks w ++ [(fresh w, RetryRegister 0 DefaultCb)] /\
   trace w' = trace w).
Proof.
  unfold onDisconnected. split; intros Hr.
  - erewrite bind_ok by reflexivity. now rewrite reinit_while_registering.
  - cbv zeta. erewrite bind_ok by reflexivity.
    rewrite reinit_starts by exact Hr. repeat split.
Qed.

(** The timer of the retry loop expires in a client that has a
    configuration: the agent is replaced and registered, the tries go
    up by one, and [_tryToRegister] takes over. *)
Lemma retry_attempt_eq cb w cfg :
  config (client w) = Some cfg ->
  calm w ->
  exists c,
    fst (_createWebRTCConfiguration w) = Ok c /\
    retry_attempt cb w =
      _tryToRegister cb
        (mkWorld (set_registerTries (S (registerTries (client w)))
                    (set_userAgent (Some (mkUA (fresh w) c false)) (client w)))
           (platform w) (sessions w) (edges w) (tasks w) (S (fresh w))
           (trace w ++ match userAgent (client w) with
                       | Some u => [UaRemoveAllListeners (uaId u)]
                       | None => []
                       end ++ agent_calls (fresh w) c ++ [UaRegister (fresh w)])).
Proof.
  intros Hc Hq. destruct (createWebRTCConfiguration_eq w cfg Hc) as (c & Ec & _).
  exists c. split; [now rewrite (Ec w)|].
  unfold retry_attempt.
  erewrite bind_ok by reflexivity.
  set (tr0 := match userAgent (client w) with
              | Some u => [UaRemoveAllListeners (uaId u)]
              | None => []
              end).
  erewrite (bind_ok _ _ _ tt (with_trace (fun t => t ++ tr0) w)).
  2:{ subst tr0. destruct (userAgent (client w)) as [u|].
      - now apply call_ok.
      - unfold ret, with_trace. rewrite app_nil_r. now destruct w. }
  erewrite bind_ok.
  2:{ apply (createUserAgent_eq _ c); [now apply Ec | exact Hq]. }
  erewrite bind_ok by reflexivity.
  erewrite bind_ok.
  2:{ apply (register_ok _ (mkUA (fresh w) c false)); [reflexivity | reflexivity | exact Hq]. }
  erewrite bind_ok by reflexivity.
  f_equal. apply world_eq; wsimpl; try reflexivity.
  rewrite <- !app_assoc. reflexivity.
Qed.

Lemma remove_task_twice i ts : remove_task i (remove_task i ts) = remove_task i ts.
Proof.
  unfold remove_task. induction ts as [|[j t] ts IH]; cbn; [reflexivity|].
  destruct (Nat.eqb j i) eqn:E; cbn; [exact IH|]. rewrite E. cbn. now rewrite IH.
Qed.

(** X15. When the client is registered and the timer of the retry loop
    expires, the loop ends there: the callback is called once, with
    false unless the tries have reached [MAX_REGISTER_TRY] with this
    attempt, [registering] is cleared and the timer is gone.  The attempt
    itself is still made: the agent is replaced by a new one, on which
    [register] is called, and the tries go up by one. *)
Theorem registered_ends_the_retry_loop cb w cfg i delay :
  config (client w) = Some cfg ->
  calm w ->
  registered (client w) = true ->
  registerTimeout (client w) = Some i ->
  lookup_task i (tasks w) = Some (RetryRegister delay cb) ->
  exists w' c,
    settle i None w = Some w' /\
    registering (client w') = false /\
    tasks w' = remove_task i (tasks w) /\
    registerTries (client w') = S (registerTries (client w)) /\
    userAgent (client w') = Some (mkUA (fresh w) c false) /\
    trace w' = trace w
               ++ match userAgent (client w) with
                  | Some u => [UaRemoveAllListeners (uaId u)]
                  | None => []
                  end
               ++ agent_calls (fresh w) c
               ++ [UaRegister (fresh w);
                   InvokeCallback cb (Nat.leb MAX_REGISTER_TRY (S (registerTries (client w))))].
Proof.
  intros Hc Hq Hreg Ht Hl. unfold settle. rewrite Hl. cbn [ready run_task].
  destruct (retry_attempt_eq cb (with_tasks (remove_task i) w) cfg Hc Hq) as (c & _ & E).
  rewrite E. rewrite _tryToRegister_stops; [|left; exact Hreg | apply Hq].
  eexists _, c. split; [reflexivity|]. wsimpl. rewrite Ht, remove_task_twice.
  repeat split. rewrite <- !app_assoc. reflexivity.
Qed.

Lemma registered_ends_the_retry_loop_witness :
  let w := snd (reinit (UserCb 1) registered_world) in
  let w1 := with_client (set_registered true) w in
  exists w',
    settle 100 None w1 = Some w' /\
    registering (client w') = false /\
    tasks w' = [] /\
    callbacks (trace w') = [(UserCb 1, false)].
Proof.
  cbv zeta.
  destruct (registered_ends_the_retry_loop (UserCb 1)
              (with_client (set_registered true) (snd (reinit (UserCb 1) registered_world)))
              sample_config 100 0) as (w' & c & E & R & T & _ & _ & Tr).
  - reflexivity.
  - intros e. reflexivity.
  - reflexivity.
  - reflexivity.
  - reflexivity.
  - exists w'. split; [exact E|]. split; [exact R|]. split; [exact T|].
    rewrite Tr, !callbacks_app. reflexivity.
Defined.

(** ** Removing a session from the merge: the edges *)

(** X16. When the session's peer connection is closed,
    [removeFromMerge] returns null after moving the sources to a new
    destination node: the MergeEntry is not removed, no stream is taken
    from or added to the connection, no offer is created and nothing is
    left pending. *)
Theorem removeFromMerge_on_a_closed_connection s shouldHold w sess sdh pc e l :
  calm w ->
  is_some (audioContext (client w)) = true ->
  sessions w !! s = Some sess ->
  sessionDescriptionHandler sess = Some sdh ->
  peerConnection sdh = Some pc ->
  pc_closed pc = true ->
  audioStreams (client w) !! getSipSessionId (Some sess) = Some e ->
  localAudioSource e = Some l ->
  let d := mergeDestination (client w) in
  let nd := fresh w in
  exists w',
    removeFromMerge s shouldHold w = (Ok None, w') /\
    client w' = client w /\
    tasks w' = tasks w /\
    sessions w' = sessions w /\
    edges w' = rewire l (remoteAudioSource e) d nd (edges w) /\
    trace w' = trace w
               ++ match remoteAudioSource e with
                  | Some r => [NodeDisconnect r d]
                  | None => []
                  end
               ++ [NodeDisconnect l d; CreateMediaStreamDestination nd; NodeConnect l nd]
               ++ match remoteAudioSource e with
                  | Some r => [NodeConnect r nd]
                  | None => []
                  end.
Proof.
  intros Hq Hctx Hs Hsdh Hpc Hclosed He Hl. cbv zeta.
  unfold removeFromMerge, rebuild_destination, sessionId, session_at.
  erewrite bind_ok by (apply deref_ok; exact Hs).
  rewrite Hsdh. cbv zeta.
  destruct (audioContext (client w)) as [ctx|] eqn:Hc; [|discriminate].
  destruct (remoteAudioSource e) as [r|] eqn:Hr;
    repeat (mstep Hq; wsimpl;
            rewrite ?Hc, ?Hclosed, ?Hs, ?He, ?Hl, ?Hr, ?Hpc;
            cbn [negb unwrap]);
    unfold ret, rewire, add_edge_opt, drop_edges_opt;
    (eexists; split; [reflexivity|]; wsimpl; repeat split;
     rewrite <- ?app_assoc; reflexivity).
Qed.

Lemma removeFromMerge_on_a_closed_connection_witness :
  exists w',
    removeFromMerge 0 true closed_world = (Ok None, w') /\
    audioStreams (client w') !! "call-z" = Some (mkMergeEntry (Some 3) (Some 4)) /\
    tasks w' = [] /\
    edges w' = [(3, 100); (4, 100)] /\
    trace w' = [NodeDisconnect 4 (Some 2); NodeDisconnect 3 (Some 2);
                CreateMediaStreamDestination 100; NodeConnect 3 100; NodeConnect 4 100].
Proof.
  destruct (removeFromMerge_on_a_closed_connection 0 true closed_world
              (closed_session "call-z") (mkSdh (Some closed_pc)) closed_pc
              (mkMergeEntry (Some 3) (Some 4)) 3)
    as (w' & E & C & T & _ & G & Tr); try reflexivity.
  - intros e. reflexivity.
  - exists w'. split; [exact E|]. rewrite C, T, G, Tr. repeat split.
Defined.

(** ** Merging without an audio context *)

Lemma addToMerge_without_context s w sess sdh pc :
  calm w ->
  audioContext (client w) = None ->
  sessions w !! s = Some sess ->
  sessionDescriptionHandler sess = Some sdh ->
  peerConnection sdh = Some pc ->
  localHold sess = false ->
  exists i n tr,
    addToMerge s w =
      (Ok i, mkWorld (client w) (platform w) (sessions w) (edges w)
               (tasks w ++ [(i, AddToMergeOffer s (mkMergeEntry None None))])
               n (trace w ++ tr)) /\
    fresh w <= i < n.
Proof.
  intros Hq Hctx Hs Hsdh Hpc Hhold.
  unfold addToMerge, bindStreams, _checkMaxMergeSessions, _isWeb, _getRemoteStream,
    _getLocalStream, _addAudioStream, _getRtcOptions, _hasAudio, spawn.
  erewrite bind_ok by reflexivity.
  destruct (Nat.ltb _ MAX_MERGE_SESSIONS);
    destruct (receivers pc) as [rs|] eqn:Hrs, (senders pc) as [ss|] eqn:Hss,
             (mergeDestination (client w)) as [d|] eqn:Hd;
    try destruct (head (remoteStreams pc)) as [rst|] eqn:Hrst;
    try destruct (head (localStreams pc)) as [lst|] eqn:Hlst;
    repeat (first [ rewrite bind_assoc
                  | erewrite bind_ok
                      by first [ reflexivity | apply call_ok, Hq
                               | apply deref_ok; exact Hs ] ];
            wsimpl;
            rewrite ?Hctx, ?Hs, ?Hsdh, ?Hpc, ?Hhold, ?Hrs, ?Hss, ?Hd, ?Hrst, ?Hlst;
            cbn [negb unwrap andb is_some when]);
    unfold ret;
    (eexists _, _, _; split;
     [f_equal; apply world_eq; wsimpl; try reflexivity; rewrite <- ?app_assoc; reflexivity
     | cbn; lia]).
Qed.

Lemma removeFromMerge_null_source s shouldHold w sess sdh e :
  sessions w !! s = Some sess ->
  sessionDescriptionHandler sess = Some sdh ->
  audioStreams (client w) !! getSipSessionId (Some sess) = Some e ->
  remoteAudioSource e = None ->
  localAudioSource e = None ->
  removeFromMerge s shouldHold w = (Throw TypeError, w).
Proof.
  intros Hs Hsdh He Hr Hl. unfold removeFromMerge, sessionId, session_at.
  erewrite bind_ok by (apply deref_ok; exact Hs). rewrite Hsdh. cbv zeta.
  repeat (first [ rewrite bind_assoc | erewrite bind_ok by reflexivity ];
          cbn beta; rewrite ?Hs, ?He, ?Hr, ?Hl; cbn [unwrap]).
  reflexivity.
Qed.

(** X17. Without an audio context (off the web) a merged session
    cannot be taken out again.  [addToMerge] of a session that is not on
    hold returns, and when its offer arrives the entry recorded for the
    session has null for both sources; from then on [removeFromMerge]
    raises a TypeError at the local source and changes nothing, so the
    entry stays. *)
Theorem no_audio_context_no_removal s w sess sdh pc :
  calm w ->
  audioContext (client w) = None ->
  quiescent w ->
  sessions w !! s = Some sess ->
  sessionDescriptionHandler sess = Some sdh ->
  peerConnection sdh = Some pc ->
  localHold sess = false ->
  exists i w1 w2,
    addToMerge s w = (Ok i, w1) /\
    settle i None w1 = Some w2 /\
    quiescent w2 /\
    audioStreams (client w2) !! getSipSessionId (Some sess) = Some (mkMergeEntry None None) /\
    forall shouldHold, removeFromMerge s shouldHold w2 = (Throw TypeError, w2).
Proof.
  intros Hq Hctx Hquiet Hs Hsdh Hpc Hhold.
  destruct (addToMerge_without_context s w sess sdh pc Hq Hctx Hs Hsdh Hpc Hhold)
    as (i & n & tr & E & Hi).
  unfold quiescent in Hquiet. rewrite Hquiet in E. cbn [app] in E.
  eexists i, _, _. split; [exact E|].
  unfold settle, lookup_task. cbn. rewrite Nat.eqb_refl. cbn.
  rewrite call_ok by apply Hq. rewrite Hs.
  split; [reflexivity|].
  split; [unfold quiescent; cbn; now rewrite Nat.eqb_refl|]. wsimpl.
  split; [apply lookup_insert_eq|].
  intros shouldHold.
  apply (removeFromMerge_null_source s shouldHold _ sess sdh (mkMergeEntry None None));
    try reflexivity; [exact Hs | exact Hsdh | cbn; apply lookup_insert_eq].
Qed.

Lemma no_audio_context_no_removal_witness :
  exists i w1 w2,
    addToMerge 0 phone_world = (Ok i, w1) /\
    settle i None w1 = Some w2 /\
    quiescent w2 /\
    audioStreams (client w2) !! "call-a" = Some (mkMergeEntry None None) /\
    forall shouldHold, removeFromMerge 0 shouldHold w2 = (Throw TypeError, w2).
Proof.
  apply (no_audio_context_no_removal 0 phone_world (call_session "call-a")
           (mkSdh (Some (open_pc [mkSender (Some (mkTrack AudioTrack true))])))
           (open_pc [mkSender (Some (mkTrack AudioTrack true))]));
    try reflexivity.
  intros e. reflexivity.
Defined.

(** ** Unmerging: who is put on hold *)

Lemma run_remove_offer_trace i s shouldHold payload w sess :
  calm w ->
  sessions w !! s = Some sess ->
  exists c,
    fst (_getMediaConfiguration (videoEnabled (client w)) w) = Ok c /\
    fst (run_task i (RemoveFromMergeOffer s shouldHold) payload w) = Ok tt /\
    trace (snd (run_task i (RemoveFromMergeOffer s shouldHold) payload w))
    = trace w ++ PcSetLocalDescription s :: (if shouldHold then [SessionHold s c] else []).
Proof.
  intros Hq Hs. eexists. split; [rewrite getMediaConfiguration_eq; reflexivity|].
  cbn [run_task]. erewrite bind_ok by (apply call_ok, Hq).
  set (w1 := with_trace _ w).
  destruct shouldHold; cbn [when].
  - destruct (hold_eq w1 s sess Hs _ (f_equal fst (getMediaConfiguration_eq _ w1))) as [E _].
    destruct (mute_ok w1 s sess true Hs) as (_ & C & P & T).
    assert (Hq1 : calm (snd (mute s w1))) by (unfold mute; now apply (calm_platform w)).
    erewrite bind_ok.
    2:{ rewrite E. apply call_ok, Hq1. }
    unfold spawn, new_id, modify, bind, ret. cbn. unfold mute. rewrite T.
    subst w1. cbn. now rewrite <- app_assoc.
  - erewrite bind_ok by reflexivity.
    unfold spawn, new_id, modify, bind, ret. cbn. split; reflexivity.
Qed.

(** X18. [unmerge(sessions)], for sessions with distinct ids, none of
    them "__proto__", that are all merged (each has its entry with a
    local source, a session description handler and an open peer
    connection), with an audio context and no platform call raising: it returns, removes every
    entry, and leaves one continuation per session, in order, followed
    by the one of [Promise.all], which awaits exactly their promises.
    Every session but the last is to be held: when its offer arrives the
    continuation sets the local description and calls [hold], for the
    last one it only sets the local description. *)
Theorem unmerge_holds_all_but_the_last ss w :
  calm w ->
  is_some (audioContext (client w)) = true ->
  NoDup (key_in w <$> ss) ->
  (forall s, In s ss ->
     mergeable w s (key_in w s) /\
     exists e, audioStreams (client w) !! key_in w s = Some e /\
               is_some (localAudioSource e) = true) ->
  let offers := removal_offers 0 (length ss) (fresh w) ss in
  let p := fresh w + 2 * length ss in
  let w' := snd (unmerge ss w) in
  fst (unmerge ss w) = Ok p /\
  tasks w' = tasks w ++ offers ++ [(p, UnmergeAll (fst <$> offers))] /\
  (forall s, In s ss -> audioStreams (client w') !! key_in w s = None) /\
  mergeDestination (client w') = mergeDestination (client w) /\
  (forall i s shouldHold payload w0 sess,
     calm w0 -> sessions w0 !! s = Some sess ->
     exists c,
       fst (_getMediaConfiguration (videoEnabled (client w0)) w0) = Ok c /\
       fst (run_task i (RemoveFromMergeOffer s shouldHold) payload w0) = Ok tt /\
       trace (snd (run_task i (RemoveFromMergeOffer s shouldHold) payload w0))
       = trace w0 ++ PcSetLocalDescription s ::
                     (if shouldHold then [SessionHold s c] else [])).
Proof.
  intros Hq Hctx Hnd Hin. cbv zeta.
  destruct (unmerge_loop_eq w (length ss) ss 0 w Hq Hctx Hnd Hin)
    as (w' & E & T & F & _ & D & _ & N).
  unfold unmerge. cbv zeta. erewrite bind_ok by exact E.
  unfold spawn, new_id, modify, bind, ret. cbn. rewrite omap_Some_fmap, F, T.
  split; [reflexivity|]. split; [now rewrite <- app_assoc|].
  split; [exact N|]. split; [exact D|].
  intros i s shouldHold payload w0 sess Hq0 Hs0.
  apply (run_remove_offer_trace i s shouldHold payload w0 sess Hq0 Hs0).
Qed.

Lemma unmerge_holds_all_but_the_last_witness :
  fst (unmerge conference merged_world) = Ok 115 /\
  tasks (snd (unmerge conference merged_world))
  = [(112, RemoveFromMergeOffer 0 true); (114, RemoveFromMergeOffer 1 false);
     (115, UnmergeAll [112; 114])].
Proof.
  destruct (unmerge_holds_all_but_the_last conference merged_world) as (H1 & H2 & _).
  - intros e. reflexivity.
  - reflexivity.
  - refine (bool_decide_unpack _ _). vm_compute. exact I.
  - intros s [<- | [<- | []]].
    + split.
      * eexists. split; [vm_compute; reflexivity|].
        split; [split; [reflexivity | discriminate]|].
        eexists _, _. repeat split.
      * eexists. split; [vm_compute; reflexivity | reflexivity].
    + split.
      * eexists. split; [vm_compute; reflexivity|].
        split; [split; [reflexivity | discriminate]|].
        eexists _, _. repeat split.
      * eexists. split; [vm_compute; reflexivity | reflexivity].
  - split.
    + etransitivity; [exact H1 | vm_compute; reflexivity].
    + etransitivity; [exact H2 | vm_compute; reflexivity].
Defined.


(** ** One turn of the retry loop *)

Lemma settle_failed_attempt cb w cfg i delay :
  config (client w) = Some cfg ->
  calm w ->
  registered (client w) = false ->
  S (registerTries (client w)) < MAX_REGISTER_TRY ->
  registerTimeout (client w) = Some i ->
  lookup_task i (tasks w) = Some (RetryRegister delay cb) ->
  exists w' c,
    settle i None w = Some w' /\
    userAgent (client w') = Some (mkUA (fresh w) c false) /\
    registerTries (client w') = S (registerTries (client w)) /\
    registering (client w') = registering (client w) /\
    registerTimeout (client w') = Some (S (fresh w)) /\
    tasks w' = remove_task i (tasks w)
               ++ [(S (fresh w), RetryRegister (1500 * S (registerTries (client w))) cb)] /\
    trace w' = trace w
               ++ match userAgent (client w) with
                  | Some u => [UaRemoveAllListeners (uaId u)]
                  | None => []
                  end
               ++ agent_calls (fresh w) c ++ [UaRegister (fresh w)].
Proof.
  intros Hc Hq Hreg Hn Ht Hl. unfold settle. rewrite Hl. cbn [ready run_task].
  destruct (retry_attempt_eq cb (with_tasks (remove_task i) w) cfg Hc Hq) as (c & _ & E).
  rewrite E. rewrite _tryToRegister_schedules; [|exact Hreg | exact Hn].
  eexists _, c. split; [reflexivity|]. wsimpl. repeat split.
Qed.

(** X19. When the timer of the retry loop expires and the client is
    not registered and has tries left, the attempt replaces the user
    agent by a new one and calls [register] on it; the agent it replaces
    only loses its listeners, it is neither stopped nor disconnected.
    The tries go up by one and the next timer is set, with a delay of
    1500 ms times the new number of tries. *)
Theorem failed_attempt_replaces_the_agent cb w cfg i delay :
  config (client w) = Some cfg ->
  calm w ->
  registered (client w) = false ->
  S (registerTries (client w)) < MAX_REGISTER_TRY ->
  registerTimeout (client w) = Some i ->
  lookup_task i (tasks w) = Some (RetryRegister delay cb) ->
  exists w' c,
    settle i None w = Some w' /\
    userAgent (client w') = Some (mkUA (fresh w) c false) /\
    registerTries (client w') = S (registerTries (client w)) /\
    registering (client w') = registering (client w) /\
    registerTimeout (client w') = Some (S (fresh w)) /\
    tasks w' = remove_task i (tasks w)
               ++ [(S (fresh w), RetryRegister (1500 * S (registerTries (client w))) cb)] /\
    trace w' = trace w
               ++ match userAgent (client w) with
                  | Some u => [UaRemoveAllListeners (uaId u)]
                  | None => []
                  end
               ++ agent_calls (fresh w) c ++ [UaRegister (fresh w)].
Proof. apply settle_failed_attempt. Qed.

Lemma failed_attempt_replaces_the_agent_witness :
  let w := snd (reinit (UserCb 1) registered_world) in
  exists w' c,
    settle 100 None w = Some w' /\
    userAgent (client w') = Some (mkUA 101 c false) /\
    registerTries (client w') = 1 /\
    tasks w' = [(102, RetryRegister 1500 (UserCb 1))] /\
    trace w' = UaRemoveAllListeners 7 :: agent_calls 101 c ++ [UaRegister 101].
Proof.
  cbv zeta.
  destruct (failed_attempt_replaces_the_agent (UserCb 1)
              (snd (reinit (UserCb 1) registered_world)) sample_config 100 0)
    as (w' & c & E & U & N & _ & _ & T & Tr).
  - reflexivity.
  - intros e. reflexivity.
  - reflexivity.
  - unfold MAX_REGISTER_TRY. cbn. lia.
  - reflexivity.
  - reflexivity.
  - exists w', c. repeat split; assumption.
Defined.

(** ** Merging a session that is on hold *)

(** X20. [addToMerge] of a session that is on hold, outside Firefox and
    with no platform call raising, does not touch the audio graph yet:
    it takes the session off hold ([unmute], then [session.unhold]),
    waits once for the handler's 'addTrack', and returns; no audio source
    is created, no stream is moved, no offer is made and no entry is
    recorded before the track arrives. *)
Theorem addToMerge_of_a_held_session_waits_for_the_track s w sess sdh :
  calm w ->
  sessions w !! s = Some sess ->
  sessionDescriptionHandler sess = Some sdh ->
  localHold sess = true ->
  isWeb (platform w) && isFirefox (platform w) = false ->
  exists c,
    fst (_getMediaConfiguration (videoEnabled (client w)) w) = Ok c /\
    let w' := snd (addToMerge s w) in
    (exists r, fst (addToMerge s w) = Ok r) /\
    tasks w' = tasks w ++ [(fresh w, AddTrackOnce s)] /\
    trace w' = trace w
               ++ (if Nat.ltb (count_audioStreams (audioStreams (client w)) + 1) MAX_MERGE_SESSIONS
                   then [] else [ConsoleWarn merge_warning])
               ++ [SessionUnhold s c; SdhOnce s "addTrack"] /\
    audio_tracks_enabled true w' s /\
    client w' = client w /\
    edges w' = edges w.
Proof.
  intros Hq Hs Hsdh Hhold Hff.
  eexists. split; [rewrite getMediaConfiguration_eq; reflexivity|]. cbv zeta.
  unfold addToMerge, _checkMaxMergeSessions, _isWeb.
  erewrite bind_ok by reflexivity.
  set (warn := if Nat.ltb (count_audioStreams (audioStreams (client w)) + 1) MAX_MERGE_SESSIONS
               then [] else [ConsoleWarn merge_warning]).
  erewrite (bind_ok _ _ _ tt (with_trace (fun t => t ++ warn) w)).
  2:{ subst warn. destruct (Nat.ltb _ MAX_MERGE_SESSIONS); [|reflexivity].
      unfold ret. f_equal. apply world_eq; cbn; try reflexivity. now rewrite app_nil_r. }
  set (w1 := with_trace (fun t => t ++ warn) w).
  assert (Hs1 : sessions w1 !! s = Some sess) by exact Hs.
  assert (Hq1 : calm w1) by exact Hq.
  erewrite bind_ok by reflexivity. erewrite bind_ok by reflexivity.
  cbv zeta. erewrite bind_ok by (apply deref_ok; exact Hs1).
  rewrite Hsdh. cbn [unwrap]. erewrite bind_ok by reflexivity.
  cbn [platform w1 with_trace]. rewrite Hhold, Hff. cbn [andb negb].
  destruct (hold_eq w1 s sess Hs1 _ (f_equal fst (getMediaConfiguration_eq _ w1))) as [_ E].
  destruct (mute_ok w1 s sess false Hs1) as (_ & C & P & T).
  assert (Hq2 : calm (snd (unmute s w1))) by (unfold unmute; now apply (calm_platform w1)).
  erewrite bind_ok.
  2:{ rewrite E. apply call_ok, Hq2. }
  erewrite bind_ok.
  2:{ apply call_ok. apply Hq2. }
  unfold spawn, new_id, modify, bind, ret. cbn. unfold unmute in *.
  rewrite T, C.
  assert (F : fresh (snd (_toggleAudio s false w1)) = fresh w
              /\ tasks (snd (_toggleAudio s false w1)) = tasks w
              /\ edges (snd (_toggleAudio s false w1)) = edges w).
  { destruct (session_pc w1 s) as [pc|] eqn:Hpc.
    - rewrite (_toggleAudio_some w1 s sess pc false Hs1 Hpc). repeat split.
    - rewrite (_toggleAudio_none w1 s sess false Hs1 Hpc). repeat split. }
  destruct F as (F1 & F2 & F3). rewrite F1, F2, F3.
  split; [now eexists|]. split; [reflexivity|].
  split; [subst w1; cbn; now rewrite <- !app_assoc|].
  split; [apply (muted_tracks w1 s false)|]. split; reflexivity.
Qed.

Lemma addToMerge_of_a_held_session_waits_for_the_track_witness :
  exists c,
    let w' := snd (addToMerge 0 held_world) in
    (exists r, fst (addToMerge 0 held_world) = Ok r) /\
    tasks w' = [(100, AddTrackOnce 0)] /\
    trace w' = [SessionUnhold 0 c; SdhOnce 0 "addTrack"] /\
    session_tracks w' 0 = [mkTrack AudioTrack true] /\
    edges w' = [].
Proof.
  destruct (addToMerge_of_a_held_session_waits_for_the_track 0 held_world
              (held_session "call-h")
              (mkSdh (Some (open_pc [mkSender (Some (mkTrack AudioTrack false))]))))
    as (c & _ & H1 & H2 & H3 & _ & _ & H6); try reflexivity.
  - intros e. reflexivity.
  - exists c. cbv zeta. split; [exact H1|]. split; [exact H2|]. split; [exact H3|].
    split; [reflexivity | exact H6].
Defined.

(** ** Closing the client *)

(** *** The order of [Object.keys] *)

Lemma insert_index_perm k l : insert_index k l ≡ₚ k :: l.
Proof.
  induction l as [|x l IH]; cbn [insert_index]; [reflexivity|].
  destruct (N.ltb (fst k) (fst x)); [reflexivity|].
  rewrite IH. apply Permutation_swap.
Qed.

Lemma sort_index_perm l : foldr insert_index [] l ≡ₚ l.
Proof.
  induction l as [|x l IH]; cbn [foldr]; [reflexivity|].
  now rewrite insert_index_perm, IH.
Qed.

(** [Object.keys] lists every own property once. *)
Lemma Object_keys_perm d : Object_keys d ≡ₚ fst <$> d.
Proof.
  unfold Object_keys. cbv zeta. generalize (fst <$> d). intros names.
  rewrite sort_index_perm.
  induction names as [|n names IH]; [reflexivity|].
  cbn [omap list_omap List.filter].
  destruct (array_index n) as [i|]; cbn [fmap option_fmap option_map is_some negb].
  - rewrite fmap_cons. cbn [snd app]. now rewrite IH.
  - rewrite <- Permutation_middle. now rewrite IH.
Qed.

(** With no array index among the names the order is that of creation. *)
Lemma Object_keys_creation d :
  Forall (fun name => array_index name = None) (fst <$> d) ->
  Object_keys d = fst <$> d.
Proof.
  unfold Object_keys. cbv zeta. generalize (fst <$> d). intros names H.
  assert (E1 : omap (fun name => (fun i => (i, name)) <$> array_index name) names = []).
  { induction H as [|n names Hn _ IH]; [reflexivity|].
    cbn [omap list_omap]. rewrite Hn. exact IH. }
  assert (E2 : List.filter (fun name => negb (is_some (array_index name))) names = names).
  { clear E1. induction H as [|n names Hn _ IH]; [reflexivity|].
    cbn [List.filter]. rewrite Hn. cbn [is_some negb]. now rewrite IH. }
  now rewrite E1, E2.
Qed.

Lemma element_at_name k (d : Elements) : In k (fst <$> d) <-> is_Some (element_at k d).
Proof.
  unfold element_at. induction d as [|[k' e] d IH]; cbn.
  - split; [intros [] | intros [x [=]]].
  - destruct (String.eqb k' k) eqn:E.
    + apply String.eqb_eq in E as ->. split; [now eexists | now left].
    + apply String.eqb_neq in E. rewrite <- IH. split; [intros [? | ?]; [contradiction | assumption] | now right].
Qed.

Lemma no_element_at (d : Elements) : (forall k, element_at k d = None) -> d = [].
Proof.
  destruct d as [|[k e] d]; [reflexivity|]. intros H. specialize (H k).
  unfold element_at in H. cbn in H. rewrite String.eqb_refl in H. discriminate.
Qed.

(** *** Closing *)

(** [cleanAudio] on names that are all there, each once: every element
    is paused, taken out of the page if it is in it, and forgotten, in
    the order of the names. *)
Lemma clean_all d l : forall w,
  calm w ->
  NoDup l ->
  (forall k, In k l -> is_Some (element_at k d) /\
                       element_at k (audioElements (client w)) = element_at k d) ->
  exists w',
    forEach l cleanAudio w = (Ok tt, w') /\
    platform w' = platform w /\ sessions w' = sessions w /\
    hasAudio (client w') = hasAudio (client w) /\
    userAgent (client w') = userAgent (client w) /\
    (forall k, In k l -> element_at k (audioElements (client w')) = None) /\
    (forall k, element_at k (audioElements (client w)) = None ->
               element_at k (audioElements (client w')) = None) /\
    trace w' = trace w ++ concat (cleaning_calls d <$> l).
Proof.
  induction l as [|k l IH]; intros w Hq Hnd Hin; cbn [forEach].
  - exists w. cbn. rewrite app_nil_r. repeat split; auto. intros k [].
  - apply NoDup_cons in Hnd as [Hk Hnd].
    destruct (Hin k (or_introl eq_refl)) as [[el Hel] Hsame].
    rewrite Hel in Hsame.
    erewrite bind_ok by (apply (cleanAudio_calm k el w Hq Hsame)).
    match goal with |- context [forEach l cleanAudio ?w0] => set (w1 := w0) end.
    destruct (IH w1) as (w' & E & P & S1 & A & U & N & M & T).
    + exact Hq.
    + exact Hnd.
    + intros k' Hk'. destruct (Hin k' (or_intror Hk')) as [Hd Hs]. split; [exact Hd|].
      subst w1. wsimpl. rewrite element_at_delete_ne; [exact Hs|].
      intros ->. apply Hk. now apply list_elem_of_In.
    + exists w'.
      split; [exact E|]. split; [exact P|]. split; [exact S1|]. split; [exact A|].
      split; [exact U|]. split; [|split].
      * intros k' [<- | Hk']; [|now apply N].
        apply M. subst w1. wsimpl. apply element_at_delete_eq.
      * intros k' Hk'. apply M. subst w1. wsimpl.
        destruct (String.eqb k k') eqn:K.
        -- apply String.eqb_eq in K as <-. apply element_at_delete_eq.
        -- apply String.eqb_neq in K. now rewrite element_at_delete_ne.
      * rewrite T. subst w1. wsimpl. rewrite <- app_assoc. f_equal.
        rewrite fmap_cons. cbn [concat]. f_equal.
        unfold cleaning_calls. now rewrite Hel.
Qed.

Lemma hangup_when_cleaned s sess w :
  sessions w !! s = Some sess ->
  isWeb (platform w) = true ->
  hasAudio (client w) = true ->
  audioElements (client w) = [] ->
  exists w',
    hangup s w = (Ok None, w') /\
    platform w' = platform w /\ sessions w' = sessions w /\
    hasAudio (client w') = hasAudio (client w) /\
    userAgent (client w') = userAgent (client w) /\
    audioElements (client w') = [] /\
    trace w' = trace w ++ [ConsoleWarn "WebRtcClient.hangup error"].
Proof.
  intros Hs Hweb Ha He.
  destruct (cleanupMedia_in_browser s sess w Hs Hweb Ha)
    as (w0 & E0 & (P & S0 & A & _) & El & _ & T & U).
  assert (E : hangup_body s w = (Throw TypeError, w0)).
  { unfold hangup_body. apply bind_throws. rewrite E0. unfold cleanAudio.
    erewrite bind_ok by reflexivity. rewrite El, He. reflexivity. }
  unfold hangup, try_catch. rewrite E. cbn.
  eexists. split; [reflexivity|]. cbn. rewrite El, T. repeat split; assumption.
Qed.

Lemma hangup_all_when_cleaned ss : forall w,
  (forall s, In s ss -> is_Some (sessions w !! s)) ->
  isWeb (platform w) = true ->
  hasAudio (client w) = true ->
  audioElements (client w) = [] ->
  exists w',
    forEach ss (fun s => _ <- hangup s ;; ret tt) w = (Ok tt, w') /\
    platform w' = platform w /\ sessions w' = sessions w /\
    userAgent (client w') = userAgent (client w) /\
    audioElements (client w') = [] /\
    trace w' = trace w ++ replicate (length ss) (ConsoleWarn "WebRtcClient.hangup error").
Proof.
  induction ss as [|s ss IH]; intros w Hin Hweb Ha He; cbn [forEach].
  - exists w. cbn. rewrite app_nil_r. repeat split; assumption.
  - destruct (Hin s (or_introl eq_refl)) as [sess Hs].
    destruct (hangup_when_cleaned s sess w Hs Hweb Ha He)
      as (w1 & E1 & P1 & S1 & A1 & U1 & El1 & T1).
    erewrite bind_ok.
    2:{ erewrite bind_ok by exact E1. reflexivity. }
    destruct (IH w1) as (w' & E & P & S' & U & El & T).
    + intros s' Hs'. rewrite S1. apply Hin. now right.
    + now rewrite P1.
    + now rewrite A1.
    + exact El1.
    + exists w'. split; [exact E|]. split; [congruence|]. split; [congruence|].
      split; [congruence|]. split; [exact El|].
      rewrite T, T1. cbn. now rewrite <- app_assoc.
Qed.

(** X21. [close()] in a browser with audio, when no platform call
    raises and the audio elements have distinct names: every audio
    element is paused and, if it is in the page, taken out of it, one
    element after the other in the order of [Object.keys] (the names
    that are array indices first, in ascending order, then the others in
    the order of their creation), and all are forgotten; without a user
    agent that is all and the result is null.  With one, the transport
    (if there is one) is disconnected, the agent's listeners are
    removed, [hangup] is called for each of the agent's sessions, and
    the agent is stopped, in that order.  None of these [hangup]s ends
    its session: each only logs its warning, so [close] makes no
    [cancel], [reject] or [bye] call.  The [userAgent] field is left as
    it was. *)
Theorem close_in_a_browser_ends_no_session transport ss w :
  calm w ->
  isWeb (platform w) = true ->
  hasAudio (client w) = true ->
  NoDup (fst <$> audioElements (client w)) ->
  (forall s, In s ss -> is_Some (sessions w !! s)) ->
  let elements := audioElements (client w) in
  Object_keys elements ≡ₚ fst <$> elements /\
  (Forall (fun name => array_index name = None) (fst <$> elements) ->
   Object_keys elements = fst <$> elements) /\
  exists w',
    close transport ss w = (Ok (is_some (userAgent (client w))), w') /\
    audioElements (client w') = [] /\
    sessions w' = sessions w /\
    userAgent (client w') = userAgent (client w) /\
    trace w' = trace w
      ++ concat (cleaning_calls elements <$> Object_keys elements)
      ++ match userAgent (client w) with
         | None => []
         | Some u =>
             (if transport then [UaTransportDisconnect (uaId u)] else [])
             ++ [UaRemoveAllListeners (uaId u)]
             ++ replicate (length ss) (ConsoleWarn "WebRtcClient.hangup error")
             ++ [UaStop (uaId u)]
         end.
Proof.
  intros Hq Hweb Ha Hnd Hin. cbv zeta.
  split; [apply Object_keys_perm|]. split; [apply Object_keys_creation|].
  unfold close.
  (* _cleanupMedia(): every element is cleaned *)
  destruct (clean_all (audioElements (client w)) (Object_keys (audioElements (client w))) w Hq)
    as (w1 & E1 & P1 & S1 & A1 & U1 & N1 & M1 & T1).
  { now rewrite Object_keys_perm. }
  { intros k Hk. split; [|reflexivity]. apply element_at_name.
    apply list_elem_of_In. rewrite <- Object_keys_perm. now apply list_elem_of_In. }
  assert (C : _cleanupMedia None w = (Ok tt, w1)).
  { unfold _cleanupMedia, _hasAudio, _isWeb.
    erewrite bind_ok by reflexivity. cbv zeta. erewrite bind_ok by reflexivity.
    cbn [is_some andb when]. erewrite bind_ok by reflexivity.
    erewrite bind_ok by reflexivity. erewrite bind_ok by reflexivity.
    rewrite Ha, Hweb. cbn [andb when]. erewrite bind_ok by reflexivity. exact E1. }
  erewrite bind_ok by exact C.
  assert (Empty1 : audioElements (client w1) = []).
  { apply no_element_at. intros k.
    destruct (element_at k (audioElements (client w))) as [el|] eqn:K.
    - apply N1. apply list_elem_of_In. rewrite Object_keys_perm. apply list_elem_of_In.
      apply element_at_name. now exists el.
    - now apply M1. }
  erewrite bind_ok by reflexivity. rewrite Empty1. cbn [Object_keys fmap list_fmap forEach].
  change (Object_keys []) with (@nil string). cbn [forEach].
  erewrite bind_ok by reflexivity. erewrite bind_ok by reflexivity.
  erewrite bind_ok by reflexivity. wsimpl. rewrite U1.
  assert (Hq1 : calm w1) by now apply (calm_platform w).
  destruct (userAgent (client w)) as [u|] eqn:Hu; cbn [is_some].
  2:{ exists (with_client (set_audioElements []) w1).
      split; [reflexivity|]. cbn. repeat split; try assumption.
      now rewrite T1, app_nil_r. }
  set (w2 := with_client (set_audioElements []) w1).
  set (tr2 := if transport then [UaTransportDisconnect (uaId u)] else []).
  assert (Hq2 : calm w2) by exact Hq1.
  erewrite (bind_ok _ _ _ tt (with_trace (fun t => t ++ tr2) w2)).
  2:{ subst tr2. destruct transport; cbn [when]; [now apply call_ok|].
      unfold ret. f_equal. apply world_eq; cbn; try reflexivity. now rewrite app_nil_r. }
  erewrite bind_ok by (apply call_ok, Hq2).
  set (w3 := with_trace (fun t => t ++ [UaRemoveAllListeners (uaId u)])
               (with_trace (fun t => t ++ tr2) w2)).
  destruct (hangup_all_when_cleaned ss w3) as (w4 & E4 & P4 & S4 & U4 & El4 & T4).
  { intros s Hs. subst w3 w2. cbn. rewrite S1. now apply Hin. }
  { subst w3 w2. cbn. now rewrite P1. }
  { subst w3 w2. cbn. now rewrite A1. }
  { reflexivity. }
  erewrite bind_ok by exact E4.
  assert (Hq4 : calm w4) by (apply (calm_platform w3); [exact P4 | exact Hq2]).
  erewrite bind_ok by (apply call_ok, Hq4).
  eexists. split; [reflexivity|]. cbn.
  split; [exact El4|]. split; [rewrite S4; exact S1|].
  split; [rewrite U4; subst w3 w2; cbn; now rewrite U1|].
  rewrite T4. subst w3 w2 tr2. cbn. rewrite T1, <- !app_assoc. reflexivity.
Qed.

Lemma close_in_a_browser_ends_no_session_witness :
  exists w',
    close true conference crowded_world = (Ok true, w') /\
    audioElements (client w') = [] /\
    trace w' =
      [ElementPause "7"; ElementRemoveChild "7";
       ElementPause "call-b";
       ElementPause "call-a"; ElementRemoveChild "call-a";
       UaTransportDisconnect 7; UaRemoveAllListeners 7;
       ConsoleWarn "WebRtcClient.hangup error"; ConsoleWarn "WebRtcClient.hangup error";
       UaStop 7].
Proof.
  destruct (close_in_a_browser_ends_no_session true conference crowded_world)
    as (_ & _ & w' & E & A & _ & _ & T).
  - intros e. reflexivity.
  - reflexivity.
  - reflexivity.
  - refine (bool_decide_unpack _ _). vm_compute. exact I.
  - intros s [<- | [<- | []]]; eexists; reflexivity.
  - exists w'. split; [exact E|]. split; [exact A|].
    rewrite T. vm_compute. reflexivity.
Defined.

(** ** Unregistering *)

(** X22. [unregister] does not last.  It calls [userAgent.unregister]
    and clears [registered]; when the agent then reports 'unregistered',
    the listener starts the retry loop, and when the loop's timer (delay
    0) expires a new agent is made and [register] is called on it. *)
Theorem unregister_is_followed_by_a_new_registration w cfg u :
  config (client w) = Some cfg ->
  calm w ->
  task_ids_fresh w ->
  userAgent (client w) = Some u ->
  registering (client w) = false ->
  exists w1 w2 w3 c,
    unregister w = (Ok tt, w1) /\
    trace w1 = trace w ++ [UaUnregister (uaId u)] /\
    registered (client w1) = false /\
    perform EventUnregistered w1 = Some w2 /\
    registering (client w2) = true /\
    tasks w2 = tasks w ++ [(fresh w, RetryRegister 0 DefaultCb)] /\
    attempt w2 = Some w3 /\
    userAgent (client w3) = Some (mkUA (S (fresh w)) c false) /\
    In (UaRegister (S (fresh w))) (trace w3).
Proof.
  intros Hc Hq Hids Hu Hr.
  assert (E1 : unregister w
               = (Ok tt, with_client (set_registered false)
                           (with_trace (fun t => t ++ [UaUnregister (uaId u)]) w))).
  { unfold unregister. erewrite bind_ok by reflexivity. rewrite Hu.
    erewrite bind_ok by (apply call_ok, Hq). reflexivity. }
  set (w1 := with_client (set_registered false)
               (with_trace (fun t => t ++ [UaUnregister (uaId u)]) w)) in *.
  set (w1' := with_client (agent_registered false) w1).
  assert (E2 : onDisconnected w1' = (Ok tt, snd (onDisconnected w1'))).
  { unfold onDisconnected. erewrite bind_ok by reflexivity.
    rewrite reinit_starts by exact Hr. reflexivity. }
  assert (F2 : registering (client (snd (onDisconnected w1'))) = true
               /\ registered (client (snd (onDisconnected w1'))) = false
               /\ registerTries (client (snd (onDisconnected w1'))) = 0
               /\ registerTimeout (client (snd (onDisconnected w1'))) = Some (fresh w)
               /\ tasks (snd (onDisconnected w1')) = tasks w ++ [(fresh w, RetryRegister 0 DefaultCb)]
               /\ config (client (snd (onDisconnected w1'))) = Some cfg
               /\ platform (snd (onDisconnected w1')) = platform w
               /\ fresh (snd (onDisconnected w1')) = S (fresh w)).
  { unfold onDisconnected. erewrite bind_ok by reflexivity.
    rewrite reinit_starts by exact Hr. cbn. repeat split. exact Hc. }
  set (w2 := snd (onDisconnected w1')) in *.
  destruct F2 as (R2 & G2 & N2 & T2 & K2 & C2 & P2 & Fr2).
  assert (Hq2 : calm w2) by now apply (calm_platform w).
  destruct (settle_failed_attempt DefaultCb w2 cfg (fresh w) 0 C2 Hq2 G2)
    as (w3 & c & E3 & U3 & _ & _ & _ & _ & Tr3).
  { rewrite N2. unfold MAX_REGISTER_TRY. lia. }
  { exact T2. }
  { rewrite K2. apply lookup_task_older. apply older_than; [exact Hids | lia]. }
  exists w1, w2, w3, c.
  split; [exact E1|]. split; [reflexivity|]. split; [reflexivity|].
  split; [reflexivity|]. split; [exact R2|]. split; [exact K2|].
  split; [unfold attempt; rewrite T2; exact E3|].
  rewrite Fr2 in U3, Tr3.
  split; [exact U3|].
  rewrite Tr3. apply in_or_app. right. apply in_or_app. right.
  apply in_or_app. right. now left.
Qed.

Lemma unregister_is_followed_by_a_new_registration_witness :
  exists w1 w2 w3 c,
    unregister registered_world = (Ok tt, w1) /\
    trace w1 = [UaUnregister 7] /\
    registered (client w1) = false /\
    perform EventUnregistered w1 = Some w2 /\
    registering (client w2) = true /\
    tasks w2 = [(100, RetryRegister 0 DefaultCb)] /\
    attempt w2 = Some w3 /\
    userAgent (client w3) = Some (mkUA 101 c false) /\
    In (UaRegister 101) (trace w3).
Proof.
  apply (unregister_is_followed_by_a_new_registration registered_world sample_config
           (mkUA 7 (mkUAConfiguration None "" None "" "" (MBool true) (MBool false) 5000 []
                      (mkRtcOptions true false) false) true)).
  - reflexivity.
  - intros e. reflexivity.
  - constructor.
  - reflexivity.
  - reflexivity.
Defined.

(** ** Hanging up a merged session without an audio context *)

(** X23. Where there is no audio element to clean (no DOM, or audio
    off), [hangup] of a session whose MergeEntry has null sources (what
    [addToMerge] records without an audio context) ends nothing:
    [removeFromMerge] raises inside, [hangup] catches it, logs the
    warning and returns null.  No call is made on the session and the
    entry stays. *)
Theorem hangup_of_a_merged_session_without_sources s sess sdh w :
  sessions w !! s = Some sess ->
  sessionDescriptionHandler sess = Some sdh ->
  hasAudio (client w) && isWeb (platform w) = false ->
  audioStreams (client w) !! getSipSessionId (Some sess) = Some (mkMergeEntry None None) ->
  hangup s w =
    (Ok None,
     with_trace (fun t => t ++ [ConsoleWarn "WebRtcClient.hangup error"])
       (with_client (fun c => set_videoSessions
                       (delete (getSipSessionId (Some sess)) (videoSessions c)) c) w)).
Proof.
  intros Hs Hsdh Hno He. unfold hangup, try_catch, hangup_body.
  erewrite bind_ok by (apply (cleanupMedia_without_elements s sess); assumption).
  set (w0 := with_client _ w).
  assert (Hs0 : sessions w0 !! s = Some sess) by exact Hs.
  assert (He0 : audioStreams (client w0) !! getSipSessionId (Some sess)
                = Some (mkMergeEntry None None)) by exact He.
  clearbody w0. unfold sessionId, session_at.
  erewrite bind_ok by reflexivity. erewrite bind_ok by reflexivity. rewrite Hs0.
  unfold in_audioStreams. rewrite He0. cbn [is_some orb].
  erewrite bind_throws.
  2:{ apply bind_throws.
      apply (removeFromMerge_null_source s true w0 sess sdh (mkMergeEntry None None));
        try reflexivity; assumption. }
  reflexivity.
Qed.

Lemma hangup_of_a_merged_session_without_sources_witness :
  fst (hangup 0 merged_phone_world) = Ok None /\
  trace (snd (hangup 0 merged_phone_world))
  = trace merged_phone_world ++ [ConsoleWarn "WebRtcClient.hangup error"] /\
  audioStreams (client (snd (hangup 0 merged_phone_world))) !! "call-a"
  = Some (mkMergeEntry None None).
Proof.
  rewrite (hangup_of_a_merged_session_without_sources 0 (call_session "call-a")
             (mkSdh (Some (open_pc [mkSender (Some (mkTrack AudioTrack true))])))
             merged_phone_world); try reflexivity.
  repeat split.
Defined.

(** ** Retrying before the configuration has arrived *)

(** X24. If the timer of the retry loop expires while the client has
    no configuration yet (the constructor sets it only when
    [_buildConfig] resolves), the attempt raises a TypeError in
    [_createWebRTCConfiguration] and the loop is dead: the timer is gone,
    no other is set, the client's fields are as before, and since
    [registering] stays true every later [reinit] and every later
    'disconnected' or 'unregistered' event starts nothing. *)
Theorem retry_without_configuration_kills_the_loop cb w i delay :
  config (client w) = None ->
  registering (client w) = true ->
  registerTimeout (client w) = Some i ->
  lookup_task i (tasks w) = Some (RetryRegister delay cb) ->
  exists w',
    settle i None w = Some w' /\
    client w' = client w /\
    tasks w' = remove_task i (tasks w) /\
    registering (client w') = true /\
    (forall cb', reinit cb' w' = (Ok tt, w')) /\
    tasks (snd (onDisconnected w')) = tasks w'.
Proof.
  intros Hc Hr Ht Hl.
  assert (E : exists e tr,
            retry_attempt cb (with_tasks (remove_task i) w)
            = (Throw e, with_trace (fun t => t ++ tr) (with_tasks (remove_task i) w))).
  { unfold retry_attempt. erewrite bind_ok by reflexivity. wsimpl.
    set (w0 := with_tasks (remove_task i) w).
    assert (K : forall w1, client w1 = client w ->
              createUserAgent w1 = (Throw TypeError, w1)).
    { intros w1 C. unfold createUserAgent, _createWebRTCConfiguration.
      apply bind_throws. erewrite bind_ok by reflexivity. now rewrite C, Hc. }
    destruct (userAgent (client w)) as [u|].
    - destruct (call_cases (UaRemoveAllListeners (uaId u)) w0) as [C | C].
      + exists ExternalError, [UaRemoveAllListeners (uaId u)]. now apply bind_throws.
      + erewrite bind_ok by exact C. exists TypeError, [UaRemoveAllListeners (uaId u)].
        apply bind_throws. now apply K.
    - erewrite bind_ok by reflexivity. exists TypeError, [].
      apply bind_throws. rewrite (K w0 eq_refl). f_equal.
      apply world_eq; cbn; try reflexivity. now rewrite app_nil_r. }
  destruct E as (e & tr & E).
  unfold settle. rewrite Hl. cbn [ready run_task settles_promise]. rewrite E.
  set (w' := with_trace (fun t => t ++ tr) (with_tasks (remove_task i) w)).
  assert (Hr' : registering (client w') = true) by exact Hr.
  exists w'. split; [reflexivity|].
  split; [reflexivity|]. split; [reflexivity|]. split; [exact Hr'|]. split.
  - intros cb'. now apply reinit_while_registering.
  - unfold onDisconnected. erewrite bind_ok by reflexivity.
    now rewrite reinit_while_registering.
Qed.

Lemma retry_without_configuration_kills_the_loop_witness :
  let w := snd (reinit (UserCb 1) (new_world browser)) in
  exists w',
    settle 0 None w = Some w' /\
    tasks w' = [] /\
    registering (client w') = true /\
    (forall cb', reinit cb' w' = (Ok tt, w')).
Proof.
  cbv zeta.
  destruct (retry_without_configuration_kills_the_loop (UserCb 1)
              (snd (reinit (UserCb 1) (new_world browser))) 0 0)
    as (w' & E & _ & T & R & H & _); try reflexivity.
  exists w'. repeat split; assumption.
Defined.
